(** * virtualHDM: a local HTTP relay in front of the fiscal-device API

    A shallow embedding of [main.go]: the request handler [handleRequest],
    the call builder [runCurlCommand], the credential resolver
    [findCertificateFiles] / [checkCertificates] and the route table of
    [main], together with the parts of the Go standard library they call
    ([strconv.Atoi], [encoding/json], [path/filepath], [net/http]).

    The program is written against the outside world (a directory of
    certificates, the [curl] binary, the clock).  The world is an explicit
    record [Env]; every observable action is appended to a trace of
    [event]s, so that "which call was issued, and in what order" is a
    statement about a list. *)

From Stdlib Require Import ZArith String Ascii Bool List Permutation Lia.
From stdpp Require Import gmap strings list fin_maps sorting pretty.

Set Warnings "-register-all".

Local Open Scope string_scope.
Local Open Scope Z_scope.

(** ** Strings as Go sees them: sequences of bytes *)

Module Bytes.

Definition code (c : ascii) : Z := Z.of_nat (nat_of_ascii c).

Definition is_digit (c : ascii) : bool := (48 <=? code c) && (code c <=? 57).

Fixpoint all_digits (s : string) : bool :=
  match s with
  | EmptyString => true
  | String c s' => is_digit c && all_digits s'
  end.

(** Some character of [s] is not a decimal digit. *)
Fixpoint has_non_digit (s : string) : bool :=
  match s with
  | EmptyString => false
  | String c s' => negb (is_digit c) || has_non_digit s'
  end.

(** The value of a string of decimal digits, most significant first. *)
Fixpoint digits_value (acc : Z) (s : string) : Z :=
  match s with
  | EmptyString => acc
  | String c s' => digits_value (acc * 10 + (code c - 48)) s'
  end.

Fixpoint has_suffix (suf s : string) : bool :=
  (s =? suf)%string
  || match s with
     | EmptyString => false
     | String _ s' => has_suffix suf s'
     end.

Fixpoint strip_prefix (p s : string) : option string :=
  match p, s with
  | EmptyString, _ => Some s
  | String a p', String b s' => if Ascii.eqb a b then strip_prefix p' s' else None
  | String _ _, EmptyString => None
  end.

End Bytes.

(** ** strconv.Atoi

    The Go function has a fast path for short strings and falls back to
    [ParseInt(s, 10, 0)], which parses the magnitude with [ParseUint] into a
    [uint64] and then checks it against the range of [int].  [int] is 64
    bits wide on the platforms the relay is built for. *)

Module strconv.
Import Bytes.

Inductive NumError := ErrSyntax | ErrRange.

Definition intSize : Z := 64.
Definition maxUint64 : Z := 2 ^ 64 - 1.

(** The loop of the fast path: [ch -= '0'] is byte arithmetic, so a
    character below ['0'] wraps to a large value and fails [ch > 9]. *)
Fixpoint atoi_fast_loop (s : string) (n : Z) : Z * option NumError :=
  match s with
  | EmptyString => (n, None)
  | String c s' =>
      let ch := (code c - 48) mod 256 in
      if 9 <? ch then (0, Some ErrSyntax)
      else atoi_fast_loop s' (n * 10 + ch)
  end.

Definition is_sign (c : ascii) : bool :=
  Ascii.eqb c "-" || Ascii.eqb c "+".

Definition atoi_fast (s0 : string) : Z * option NumError :=
  match s0 with
  | EmptyString => (0, Some ErrSyntax)
  | String c rest =>
      let s := if is_sign c then rest else s0 in
      if is_sign c && (String.length s <? 1)%nat then (0, Some ErrSyntax)
      else
        match atoi_fast_loop s 0 with
        | (n, None) => (if Ascii.eqb c "-" then - n else n, None)
        | r => r
        end
  end.

(** [ParseUint(s, 10, 64)]: [cutoff] is the smallest number such that
    [cutoff * 10] exceeds [maxUint64]; the first overflowing digit ends
    the loop with a range error, before later characters are looked at. *)
Definition uint_cutoff : Z := maxUint64 / 10 + 1.

Fixpoint parseUint_loop (s : string) (n : Z) : Z * option NumError :=
  match s with
  | EmptyString => (n, None)
  | String c s' =>
      if negb (is_digit c) then (0, Some ErrSyntax)
      else
        let d := code c - 48 in
        if uint_cutoff <=? n then (maxUint64, Some ErrRange)
        else
          let n10 := (n * 10) mod 2 ^ 64 in
          let n1 := (n10 + d) mod 2 ^ 64 in
          if (n1 <? n10) || (maxUint64 <? n1) then (maxUint64, Some ErrRange)
          else parseUint_loop s' n1
  end.

Definition ParseUint (s : string) : Z * option NumError :=
  match s with
  | EmptyString => (0, Some ErrSyntax)
  | _ => parseUint_loop s 0
  end.

Definition int_cutoff : Z := 2 ^ (intSize - 1).

Definition ParseInt (s0 : string) : Z * option NumError :=
  match s0 with
  | EmptyString => (0, Some ErrSyntax)
  | String c rest =>
      let neg := Ascii.eqb c "-" in
      let s := if is_sign c then rest else s0 in
      match ParseUint s with
      | (_, Some ErrSyntax) => (0, Some ErrSyntax)
      | (un, _) =>
          if negb neg && (int_cutoff <=? un) then (int_cutoff - 1, Some ErrRange)
          else if neg && (int_cutoff <? un) then (- int_cutoff, Some ErrRange)
          else (if neg then - un else un, None)
      end
  end.

Definition Atoi (s : string) : Z * option NumError :=
  let sLen := String.length s in
  if (0 <? sLen)%nat && (sLen <? 19)%nat then atoi_fast s
  else ParseInt s.

(** What the integer grammar of [Atoi] amounts to: an optional sign in
    front of the digits [body]. *)
Definition unsigned_part (s : string) : string :=
  match s with
  | String c rest => if is_sign c then rest else s
  | EmptyString => s
  end.

Definition signed_decimal (s : string) : bool :=
  let body := unsigned_part s in
  negb (body =? "")%string && all_digits body.

Definition is_neg (s : string) : bool :=
  match s with
  | String c _ => Ascii.eqb c "-"
  | EmptyString => false
  end.

(** The integer a signed decimal string denotes. *)
Definition signed_value (s : string) : Z :=
  let v := digits_value 0 (unsigned_part s) in
  if is_neg s then - v else v.

Definition minInt64 : Z := - 2 ^ 63.
Definition maxInt64 : Z := 2 ^ 63 - 1.

End strconv.

(** ** float64 and strconv.ParseFloat / FormatFloat

    [encoding/json] stores every JSON number it decodes into an [any] as a
    [float64], and prints a [float64] with the shortest decimal that reads
    back as the same number.  A finite binary64 number is kept as sign,
    integer mantissa and binary exponent, canonically; conversions are
    exact integer arithmetic with round-to-nearest-even. *)

Module float64.

Record t := mk { sign : bool; mant : Z; expo : Z }.

Definition eqb (x y : t) : bool :=
  Bool.eqb (sign x) (sign y) && (mant x =? mant y) && (expo x =? expo y).

Definition round_half_even (num den : Z) : Z :=
  let q := num / den in
  let r := num mod den in
  if 2 * r <? den then q
  else if den <? 2 * r then q + 1
  else if Z.even q then q else q + 1.

(** [floor (log2 (p / q))] for positive [p] and [q]. *)
Definition floor_log2_ratio (p q : Z) : Z :=
  let l := Z.log2 p - Z.log2 q in
  let reached := if 0 <=? l then q * 2 ^ l <=? p else q <=? p * 2 ^ (- l) in
  if reached then l else l - 1.

(** The binary64 number nearest to [p / q] ([0 <= p], [0 < q]); [None]
    when the rounded value does not fit (the parser's range error).
    Values below the smallest subnormal round to zero without error. *)
Definition of_ratio (s : bool) (p q : Z) : option t :=
  if p =? 0 then Some (mk s 0 0)
  else
    let e := Z.max (floor_log2_ratio p q - 52) (-1074) in
    let m := if 0 <=? e then round_half_even p (q * 2 ^ e)
             else round_half_even (p * 2 ^ (- e)) q in
    let '(m, e) := if m =? 2 ^ 53 then (2 ^ 52, e + 1) else (m, e) in
    if 971 <? e then None
    else if m =? 0 then Some (mk s 0 0)
    else Some (mk s m e).

(** The value [m * 10 ^ e] as a ratio. *)
Definition ratio_of_decimal (m e : Z) : Z * Z :=
  if 0 <=? e then (m * 10 ^ e, 1) else (m, 10 ^ (- e)).

Definition of_decimal (s : bool) (m e : Z) : option t :=
  let '(p, q) := ratio_of_decimal m e in of_ratio s p q.

Definition to_ratio (x : t) : Z * Z :=
  if 0 <=? expo x then (mant x * 2 ^ expo x, 1) else (mant x, 2 ^ (- expo x)).

Fixpoint ndigits_fuel (fuel : nat) (n : Z) : Z :=
  match fuel with
  | O => 0
  | S fuel' => if n <=? 0 then 0 else 1 + ndigits_fuel fuel' (n / 10)
  end.

(** Number of decimal digits of [n] ([0] for [n <= 0]). *)
Definition ndigits (n : Z) : Z := ndigits_fuel (Z.to_nat (Z.log2 n + 1)) n.

(** [floor (log10 (p / q))] for positive [p] and [q]. *)
Definition floor_log10_ratio (p q : Z) : Z :=
  if q <=? p then ndigits (p / q) - 1
  else - ndigits ((q + p - 1) / p - 1).

(** [p / q] written with [n] significant digits: the truncated digits
    [lo], whether the discarded part is below, at or above one half, and
    the decimal exponent [k] of the last digit kept. *)
Definition truncate_digits (p q n : Z) : Z * comparison * Z :=
  let k := floor_log10_ratio p q - (n - 1) in
  let '(num, den) := if 0 <=? k then (p, q * 10 ^ k) else (p * 10 ^ (- k), q) in
  (num / den, (2 * (num mod den)) ?= den, k).

(** The digit generation of the shortest formatting: with [n] digits,
    round down or up, whichever reads back as [x]; when both do, round
    to nearest; when neither does, use one more digit. *)
Fixpoint shortest_from (fuel : nat) (n : Z) (x : t) : Z * Z :=
  let '(p, q) := to_ratio x in
  let '(lo, half, k) := truncate_digits p q n in
  let reads_back d :=
    match of_decimal (sign x) d k with
    | Some y => eqb x y
    | None => false
    end in
  let nearest :=
    match half with
    | Lt => lo
    | Gt => lo + 1
    | Eq => if Z.even lo then lo else lo + 1
    end in
  match fuel with
  | O => (nearest, k)
  | S fuel' =>
      match reads_back lo, reads_back (lo + 1) with
      | true, true => (nearest, k)
      | true, false => (lo, k)
      | false, true => (lo + 1, k)
      | false, false => shortest_from fuel' (n + 1) x
      end
  end.

(** Shortest decimal [(digits, exponent)] of a nonzero [x]; seventeen
    digits always identify a binary64 number. *)
Definition shortest (x : t) : Z * Z := shortest_from 16 1 x.

End float64.

(** ** unicode/utf8, unicode/utf16

    Runes are code points in [Z]; [EncodeRune] and [DecodeRune] are the
    library functions, with the masks and shifts written as division and
    remainder. *)

Module utf8.
Import Bytes.

Definition RuneError : Z := 0xFFFD.

Definition byte (n : Z) : ascii := ascii_of_nat (Z.to_nat n).

(** The UTF-8 encoding of a rune; a surrogate or a rune beyond U+10FFFF
    is written as [RuneError]. *)
Definition EncodeRune (r : Z) : string :=
  if (0 <=? r) && (r <=? 0x7F) then String (byte r) ""
  else if (0x80 <=? r) && (r <=? 0x7FF) then
    String (byte (0xC0 + r / 64)) (String (byte (0x80 + r mod 64)) "")
  else if ((0x800 <=? r) && (r <? 0xD800)) || ((0xDFFF <? r) && (r <=? 0xFFFF)) then
    String (byte (0xE0 + r / 4096))
      (String (byte (0x80 + (r / 64) mod 64)) (String (byte (0x80 + r mod 64)) ""))
  else if (0xFFFF <? r) && (r <=? 0x10FFFF) then
    String (byte (0xF0 + r / 262144))
      (String (byte (0x80 + (r / 4096) mod 64))
         (String (byte (0x80 + (r / 64) mod 64)) (String (byte (0x80 + r mod 64)) "")))
  else String (byte 0xEF) (String (byte 0xBF) (String (byte 0xBD) "")).

(** The table [first] for a leading byte above ASCII: the length of the
    sequence and the range accepted for its second byte; [None] for a
    byte that starts no sequence. *)
Definition first (p0 : Z) : option (nat * (Z * Z)) :=
  if (0xC2 <=? p0) && (p0 <=? 0xDF) then Some (2%nat, (0x80, 0xBF))
  else if p0 =? 0xE0 then Some (3%nat, (0xA0, 0xBF))
  else if (0xE1 <=? p0) && (p0 <=? 0xEC) then Some (3%nat, (0x80, 0xBF))
  else if p0 =? 0xED then Some (3%nat, (0x80, 0x9F))
  else if (0xEE <=? p0) && (p0 <=? 0xEF) then Some (3%nat, (0x80, 0xBF))
  else if p0 =? 0xF0 then Some (4%nat, (0x90, 0xBF))
  else if (0xF1 <=? p0) && (p0 <=? 0xF3) then Some (4%nat, (0x80, 0xBF))
  else if p0 =? 0xF4 then Some (4%nat, (0x80, 0x8F))
  else None.

(** The first rune of [p] and its width in bytes; [(RuneError, 1)] when
    [p] does not start with a well-formed sequence. *)
Definition DecodeRune (p : string) : Z * nat :=
  match p with
  | EmptyString => (RuneError, 0%nat)
  | String c0 p1 =>
      let p0 := code c0 in
      match first p0 with
      | None => (if p0 <? 0x80 then p0 else RuneError, 1%nat)
      | Some (sz, (lo, hi)) =>
          if (String.length p <? sz)%nat then (RuneError, 1%nat)
          else
            match p1 with
            | EmptyString => (RuneError, 1%nat)
            | String c1 p2 =>
                let b1 := code c1 in
                if (b1 <? lo) || (hi <? b1) then (RuneError, 1%nat)
                else if (sz <=? 2)%nat then ((p0 mod 32) * 64 + b1 mod 64, 2%nat)
                else
                  match p2 with
                  | EmptyString => (RuneError, 1%nat)
                  | String c2 p3 =>
                      let b2 := code c2 in
                      if (b2 <? 0x80) || (0xBF <? b2) then (RuneError, 1%nat)
                      else if (sz <=? 3)%nat then
                        ((p0 mod 16) * 4096 + (b1 mod 64) * 64 + b2 mod 64, 3%nat)
                      else
                        match p3 with
                        | EmptyString => (RuneError, 1%nat)
                        | String c3 _ =>
                            let b3 := code c3 in
                            if (b3 <? 0x80) || (0xBF <? b3) then (RuneError, 1%nat)
                            else ((p0 mod 8) * 262144 + (b1 mod 64) * 4096
                                  + (b2 mod 64) * 64 + b3 mod 64, 4%nat)
                        end
                  end
            end
      end
  end.

End utf8.

Module utf16.

Definition IsSurrogate (r : Z) : bool := (0xD800 <=? r) && (r <? 0xE000).

(** The rune of a surrogate pair; [RuneError] when the two halves are
    not a high surrogate followed by a low one. *)
Definition DecodeRune (r1 r2 : Z) : Z :=
  if (0xD800 <=? r1) && (r1 <? 0xDC00) && (0xDC00 <=? r2) && (r2 <? 0xE000)
  then (r1 - 0xD800) * 1024 + (r2 - 0xDC00) + 0x10000
  else utf8.RuneError.

End utf16.

(** ** encoding/json

    A request body that passed the scanner is kept as its syntax tree
    [jvalue]: object members in the order written, duplicate keys included,
    numbers as the literal text.  A [JString] and a key carry the Go string
    the decoder makes of the literal ([json.unquote] below).  Go values of
    type [any] are the tree [any]; [map[string]any] is a finite map.

    The document as the client wrote it is the tree [jtext]: the same
    shape, with every string literal and key as the sequence of its bytes
    and [\uXXXX] escapes.  [json.read] takes the written tree to the
    syntax tree the decoder works on. *)

Inductive jvalue :=
| JNull
| JBool (b : bool)
| JNumber (lit : string)
| JString (s : string)
| JArray (elems : list jvalue)
| JObject (members : list (string * jvalue)).

Inductive any :=
| ANil
| ABool (b : bool)
| AFloat64 (x : float64.t)
| AInt (n : Z)
| AString (s : string)
| ASlice (l : list any)
| AMap (m : gmap string any).

(** One element of a string literal as written: a byte of the literal
    (a two-character escape such as [\n] stands for its byte), or an
    escape [\uXXXX] with its four hex digits as a number. *)
Inductive jchar :=
| JByte (b : ascii)
| JEscape (u : Z).

Inductive jtext :=
| TNull
| TBool (b : bool)
| TNumber (lit : string)
| TString (s : list jchar)
| TArray (elems : list jtext)
| TObject (members : list (list jchar * jtext)).

Module json.
Import Bytes.

(** *** Number literals *)

Fixpoint span_digits (s : string) : string * string :=
  match s with
  | String c s' =>
      if is_digit c then let '(d, r) := span_digits s' in (String c d, r)
      else ("", s)
  | EmptyString => ("", "")
  end.

Definition int_part (s : string) : option (string * string) :=
  match span_digits s with
  | ("", _) => None
  | (String "0" (String _ _), _) => None
  | (d, r) => Some (d, r)
  end.

Definition frac_part (s : string) : option (string * string) :=
  match s with
  | String "." s' =>
      match span_digits s' with
      | ("", _) => None
      | (d, r) => Some (d, r)
      end
  | _ => Some ("", s)
  end.

Definition exp_part (s : string) : option Z :=
  match s with
  | EmptyString => Some 0
  | String c s' =>
      if Ascii.eqb c "e" || Ascii.eqb c "E" then
        let '(neg, s'') :=
          match s' with
          | String "-" t => (true, t)
          | String "+" t => (false, t)
          | _ => (false, s')
          end in
        match span_digits s'' with
        | ("", _) => None
        | (d, "") => Some (if neg then - digits_value 0 d else digits_value 0 d)
        | _ => None
        end
      else None
  end.

(** The JSON grammar [-? int frac? exp?]; the literal denotes
    [(-1)^neg * m * 10^e]. *)
Definition number_of_literal (lit : string) : option (bool * Z * Z) :=
  let '(neg, s) :=
    match lit with
    | String "-" t => (true, t)
    | _ => (false, lit)
    end in
  '(i, s) ← int_part s;
  '(f, s) ← frac_part s;
  e ← exp_part s;
  Some (neg, digits_value 0 (i ++ f), e - Z.of_nat (String.length f)).

(** [strconv.ParseFloat(lit, 64)] on a JSON number literal. *)
Definition ParseFloat (lit : string) : option float64.t :=
  '(neg, m, e) ← number_of_literal lit;
  float64.of_decimal neg m e.

(** *** Printing a float64: the [floatEncoder] *)

Fixpoint drop_zeros (s : string) : string :=
  match s with
  | String "0" s' => drop_zeros s'
  | _ => s
  end.

Definition strip_trailing_zeros (s : string) : string :=
  String.rev (drop_zeros (String.rev s)).

Fixpoint zeros (n : nat) : string :=
  match n with
  | O => ""
  | S n' => String "0" (zeros n')
  end.

(** [%f] with the shortest digits [ds] and decimal point position [dp]
    (the value is [0.ds * 10^dp]). *)
Definition fmtF (ds : string) (dp : Z) : string :=
  let nd := Z.of_nat (String.length ds) in
  let int :=
    if 0 <? dp then
      substring 0 (Z.to_nat (Z.min nd dp)) ds ++ zeros (Z.to_nat (dp - nd))
    else "0" in
  let frac :=
    if dp <? nd then
      "." ++ zeros (Z.to_nat (- dp))
          ++ substring (Z.to_nat dp) (String.length ds) ds
    else "" in
  int ++ frac.

(** [%e], followed by the encoder's clean-up of [e-09] to [e-9]. *)
Definition fmtE (ds : string) (dp : Z) : string :=
  let first := substring 0 1 ds in
  let more := substring 1 (String.length ds) ds in
  let exp := dp - 1 in
  let sgn := if exp <? 0 then "-" else "+" in
  let dd := if Z.abs exp <? 10 then "0" ++ pretty (Z.abs exp) else pretty (Z.abs exp) in
  let dd := match dd with
            | String "0" (String d EmptyString) => String d EmptyString
            | _ => dd
            end in
  first ++ (if (more =? "")%string then "" else "." ++ more) ++ "e" ++ sgn ++ dd.

Definition FormatFloat (x : float64.t) : string :=
  let sgn := if float64.sign x then "-" else "" in
  if float64.mant x =? 0 then sgn ++ "0"
  else
    let '(d, k) := float64.shortest x in
    let ds0 := pretty d in
    let ds := strip_trailing_zeros ds0 in
    let dp := Z.of_nat (String.length ds0) + k in
    (* abs < 1e-6 || abs >= 1e21 *)
    if (dp <=? -6) || (22 <=? dp) then sgn ++ fmtE ds dp
    else sgn ++ fmtF ds dp.

(** *** Decoding into [any] and into [map[string]any] *)

Inductive error :=
| SyntaxError
| UnmarshalTypeError (value : string).

Definition maxNestingDepth : Z := 10000.

Fixpoint depth (j : jvalue) : Z :=
  match j with
  | JArray l => 1 + foldr (λ x acc, Z.max (depth x) acc) 0 l
  | JObject fs => 1 + foldr (λ kv acc, Z.max (depth kv.2) acc) 0 fs
  | _ => 0
  end.

(** [m[key] = value] for each member in turn: a later duplicate
    overwrites an earlier one. *)
Definition store_members (kvs : list (string * any)) : gmap string any :=
  foldl (λ m kv, <[kv.1 := kv.2]> m) ∅ kvs.

(** The decoder's [valueInterface]; [None] when a number literal does
    not fit a float64 (the decoder records an [UnmarshalTypeError]).  The
    strings and keys of the tree are the unquoted ones ([unquote], [read]
    below). *)
Fixpoint valueInterface (j : jvalue) : option any :=
  match j with
  | JNull => Some ANil
  | JBool b => Some (ABool b)
  | JNumber lit => AFloat64 <$> ParseFloat lit
  | JString s => Some (AString s)
  | JArray l => ASlice <$> mapM valueInterface l
  | JObject fs =>
      (λ kvs, AMap (store_members kvs))
        <$> mapM (λ kv, pair kv.1 <$> valueInterface kv.2) fs
  end.

(** [json.Unmarshal(body, &jsonData)] with [jsonData] a nil
    [map[string]any]: [None] is the nil map. *)
Definition Unmarshal (j : jvalue) : option (gmap string any) * option error :=
  if maxNestingDepth <? depth j then (None, Some SyntaxError)
  else
    match j with
    | JNull => (None, None)
    | JObject fs =>
        match valueInterface (JObject fs) with
        | Some (AMap m) => (Some m, None)
        | _ => (Some ∅, Some (UnmarshalTypeError "number"))
        end
    | JArray _ => (None, Some (UnmarshalTypeError "array"))
    | JString _ => (None, Some (UnmarshalTypeError "string"))
    | JNumber _ => (None, Some (UnmarshalTypeError "number"))
    | JBool _ => (None, Some (UnmarshalTypeError "bool"))
    end.

(** *** Encoding *)

Definition key_le (a b : string * jvalue) : Prop := String.leb a.1 b.1.

#[export] Instance key_le_dec a b : Decision (key_le a b).
Proof. unfold key_le. apply _. Defined.

(** The value tree the encoder writes: map keys sorted, a float64 as its
    shortest decimal. *)
Fixpoint encode (a : any) : jvalue :=
  match a with
  | ANil => JNull
  | ABool b => JBool b
  | AFloat64 x => JNumber (FormatFloat x)
  | AInt n => JNumber (pretty n)
  | AString s => JString s
  | ASlice l => JArray (encode <$> l)
  | AMap m => JObject (merge_sort key_le (map_to_list (encode <$> m)))
  end.

Definition hex_digit (n : Z) : ascii :=
  ascii_of_nat (Z.to_nat (if n <? 10 then 48 + n else 87 + n)).

(** One byte of a string literal, with the encoder's HTML-safe escaping. *)
Definition escape_byte (c : ascii) : string :=
  let b := code c in
  if (b =? 34) || (b =? 92) then String "\" (String c "")
  else if b =? 8 then "\b"
  else if b =? 12 then "\f"
  else if b =? 10 then "\n"
  else if b =? 13 then "\r"
  else if b =? 9 then "\t"
  else if (b <? 32) || (b =? 60) || (b =? 62) || (b =? 38) then
    "\u00" ++ String (hex_digit (b / 16)) (String (hex_digit (b mod 16)) "")
  else String c "".

(** U+2028 and U+2029 (bytes E2 80 A8 and E2 80 A9) are escaped too. *)
Fixpoint escape (s : string) : string :=
  match s with
  | EmptyString => ""
  | String c s' =>
      match s' with
      | String c1 (String c2 s'') =>
          if (code c =? 226) && (code c1 =? 128)
             && ((code c2 =? 168) || (code c2 =? 169))
          then "\u202" ++ String (hex_digit (code c2 - 160)) (escape s'')
          else escape_byte c ++ escape s'
      | _ => escape_byte c ++ escape s'
      end
  end.

Definition quote (s : string) : string :=
  String "034" (escape s ++ String "034" "").

Definition join (sep : string) (l : list string) : string :=
  String.concat sep l.

(** The compact text of a value tree. *)
Fixpoint json_text (j : jvalue) : string :=
  match j with
  | JNull => "null"
  | JBool true => "true"
  | JBool false => "false"
  | JNumber lit => lit
  | JString s => quote s
  | JArray l => "[" ++ join "," (json_text <$> l) ++ "]"
  | JObject fs =>
      "{" ++ join "," ((λ kv, quote kv.1 ++ ":" ++ json_text kv.2) <$> fs) ++ "}"
  end.

(** [json.Marshal] of an [any]; the values this program builds (decoded
    JSON, strings, integers) are always encodable, so the error result
    is [None]. *)
Definition Marshal (a : any) : string * option string :=
  (json_text (encode a), None).

(** [json.Marshal] of a [map[string]any] variable; the nil map is
    written as [null]. *)
Definition Marshal_map (m : option (gmap string any)) : string * option string :=
  match m with
  | None => ("null", None)
  | Some m => Marshal (AMap m)
  end.

(** *** String literals: the decoder's [unquote] *)

(** The bytes of the literal from its first element up to the next
    escape. *)
Fixpoint raw_prefix (s : list jchar) : string :=
  match s with
  | JByte b :: s' => String b (raw_prefix s')
  | _ => ""
  end.

(** The Go string of a literal.  An escape is written as the UTF-8 form
    of its rune, a high surrogate escape directly followed by a low one
    as the rune of the pair, any other surrogate escape as U+FFFD.  An
    ASCII byte is copied; any other byte is decoded with
    [utf8.DecodeRune] and encoded again, which copies a well-formed
    sequence and turns a byte that starts none into U+FFFD. *)
Fixpoint unquote (s : list jchar) : string :=
  match s with
  | [] => ""
  | JEscape rr :: rest =>
      if utf16.IsSurrogate rr then
        match rest with
        | JEscape rr1 :: rest' =>
            let dec := utf16.DecodeRune rr rr1 in
            if dec =? utf8.RuneError
            then utf8.EncodeRune utf8.RuneError ++ unquote rest
            else utf8.EncodeRune dec ++ unquote rest'
        | _ => utf8.EncodeRune utf8.RuneError ++ unquote rest
        end
      else utf8.EncodeRune rr ++ unquote rest
  | JByte c :: rest =>
      if code c <? 0x80 then String c (unquote rest)
      else
        let '(rr, size) := utf8.DecodeRune (raw_prefix s) in
        utf8.EncodeRune rr ++
        match size, rest with
        | 2%nat, _ :: r2 => unquote r2
        | 3%nat, _ :: _ :: r3 => unquote r3
        | 4%nat, _ :: _ :: _ :: r4 => unquote r4
        | _, _ => unquote rest
        end
  end.

(** The syntax tree of a written document: every string literal and
    every key unquoted. *)
Fixpoint read (t : jtext) : jvalue :=
  match t with
  | TNull => JNull
  | TBool b => JBool b
  | TNumber lit => JNumber lit
  | TString s => JString (unquote s)
  | TArray l => JArray (read <$> l)
  | TObject fs => JObject ((λ kv, (unquote kv.1, read kv.2)) <$> fs)
  end.

End json.

(** ** The outside world

    What the relay observes (the entries of the [certs] directory, whether
    a path exists, what a [curl] process prints and how it exits, the
    clock) is the record [Env].  What it does is a chronological list of
    [event]s.  The outcome of a process may depend on everything that
    happened before it. *)

Inductive event :=
| EvGlob (pattern : string)
| EvStat (name : string)
| EvExec (argv : list string)
| EvLog (line : string).

Record Env := {
  certs_dir : list string;
  not_exist : string → bool;
  output_of : list event → list string → string * option string;
  clock : string
}.

Definition IO (A : Type) : Type := Env → list event → A * list event.

#[export] Instance IO_ret : MRet IO := λ A x _ tr, (x, tr).
#[export] Instance IO_bind : MBind IO :=
  λ A B f c env tr, let '(a, tr') := c env tr in f a env tr'.

Definition emit (e : event) : IO unit := λ _ tr, (tt, (tr ++ [e])%list).
Definition ask : IO Env := λ env tr, (env, tr).
Definition history : IO (list event) := λ _ tr, (tr, tr).

(** Run a computation from the start of a request. *)
Definition exec_io {A} (c : IO A) (env : Env) : A * list event := c env [].

Definition nl : string := String "010" "".

(** The [exec] events of a trace, in order: the processes started. *)
Definition commands (tr : list event) : list (list string) :=
  omap (λ e, match e with EvExec argv => Some argv | _ => None end) tr.

Definition is_lookup (e : event) : bool :=
  match e with
  | EvGlob _ | EvStat _ => true
  | _ => false
  end.

(** ** path/filepath, os, os/exec, log, time *)

Module filepath.

(** [Join] of two clean, non-empty elements. *)
Definition Join (dir file : string) : string := dir ++ "/" ++ file.

(** [Match] for patterns made of literal bytes and [*].  The relay only
    builds patterns [crn*.crt] and [crn*.key] from a [crn] that passed
    [Atoi], so the other pattern forms are not modelled.  The names
    matched are directory entries and contain no separator. *)
Fixpoint Match (pat name : string) : bool :=
  match pat with
  | EmptyString => (name =? "")%string
  | String p pat' =>
      if Ascii.eqb p "*" then
        (fix star (name : string) : bool :=
           Match pat' name
           || match name with
              | EmptyString => false
              | String _ name' => star name'
              end) name
      else
        match name with
        | EmptyString => false
        | String c name' => Ascii.eqb p c && Match pat' name'
        end
  end.

(** [Glob]: the entries of the directory named in the pattern that match
    its last element, joined to the directory, in directory order.  The
    only directory of this world is [certs]; a well-formed pattern gives
    no error. *)
Definition Glob (pattern : string) : IO (list string * option string) :=
  emit (EvGlob pattern);;
  env ← ask;
  match Bytes.strip_prefix "certs/" pattern with
  | Some file => mret (Join "certs" <$> filter (λ n, Match file n) (certs_dir env), None)
  | None => mret ([], None)
  end.

End filepath.

Module os.
(** [os.Stat] followed by [os.IsNotExist] on its error. *)
Definition Stat_IsNotExist (name : string) : IO bool :=
  emit (EvStat name);;
  env ← ask;
  mret (not_exist env name).
End os.

Module exec.
(** [exec.Command(argv...).Output()]: standard output and the error. *)
Definition Output (argv : list string) : IO (string * option string) :=
  tr ← history;
  env ← ask;
  emit (EvExec argv);;
  mret (output_of env tr argv).
End exec.

Module log.
Definition Println (line : string) : IO unit := emit (EvLog (line ++ nl)).
End log.

Module time.
(** [time.Now().Format(layout)]: the clock reading, already formatted. *)
Definition Now_Format : IO string := env ← ask; mret (clock env).
End time.

(** ** net/http

    A [ResponseWriter] is threaded through the handler: the header map,
    the status line once written (with the header map as it was then:
    later changes to the map do not reach the client), and the bytes
    written.  A [Response] is what the handler sent through the writer;
    what the server adds on the wire (default headers, framing) is not
    part of it. *)

(** A request body: a stream that fails while it is read, bytes that are
    not JSON, or bytes that scan as JSON, with their syntax tree
    ([json.read] of the document written). *)
Inductive body :=
| Unreadable
| Malformed
| Text (j : jvalue).

Record Request := {
  Method : string;
  URL_Path : string;
  Body : body
}.

Record Response := {
  status : Z;
  headers : gmap string string;
  content : string
}.

Module http.

Record ResponseWriter := {
  header : gmap string string;
  wrote : option (Z * gmap string string);
  written : string
}.

Definition StatusOK : Z := 200.
Definition StatusBadRequest : Z := 400.
Definition StatusNotFound : Z := 404.
Definition StatusMethodNotAllowed : Z := 405.
Definition StatusInternalServerError : Z := 500.
Definition MethodPost : string := "POST".

Definition new_writer : ResponseWriter :=
  {| header := ∅; wrote := None; written := "" |}.

Definition Header_Set (w : ResponseWriter) (k v : string) : ResponseWriter :=
  {| header := <[k := v]> (header w); wrote := wrote w; written := written w |}.

(** Only the first [WriteHeader] counts. *)
Definition WriteHeader (w : ResponseWriter) (code : Z) : ResponseWriter :=
  match wrote w with
  | Some _ => w
  | None => {| header := header w; wrote := Some (code, header w); written := written w |}
  end.

(** [Write] sends the status line with [StatusOK] first if none was sent. *)
Definition Write (w : ResponseWriter) (b : string) : ResponseWriter :=
  let w := WriteHeader w StatusOK in
  {| header := header w; wrote := wrote w; written := written w ++ b |}.

(** [http.Error]: a plain-text reply, the message followed by a newline. *)
Definition Error (w : ResponseWriter) (error : string) (code : Z) : ResponseWriter :=
  let w := Header_Set w "Content-Type" "text/plain; charset=utf-8" in
  let w := Header_Set w "X-Content-Type-Options" "nosniff" in
  let w := WriteHeader w code in
  Write w (error ++ nl).

(** What the client receives once the handler has returned. *)
Definition finish (w : ResponseWriter) : Response :=
  match wrote w with
  | Some (code, h) => {| status := code; headers := h; content := written w |}
  | None => {| status := StatusOK; headers := header w; content := written w |}
  end.

(** The reply [http.Error] produces on a fresh writer. *)
Definition plain_text (code : Z) (msg : string) : Response :=
  {| status := code;
     headers := <["X-Content-Type-Options" := "nosniff"]>
                  (<["Content-Type" := "text/plain; charset=utf-8"]> ∅);
     content := msg ++ nl |}.

End http.

(** [io.ReadAll(r.Body)]: the bytes read, or an error. *)
Definition io_ReadAll (b : body) : body * option string :=
  match b with
  | Unreadable => (Unreadable, Some "unexpected EOF")
  | _ => (b, None)
  end.

(** [json.Unmarshal] on the bytes of a body. *)
Definition json_Unmarshal (b : body) : option (gmap string any) * option json.error :=
  match b with
  | Text j => json.Unmarshal j
  | _ => (None, Some json.SyntaxError)
  end.

(** Indexing a possibly nil Go map: [v, ok := m[k]]. *)
Definition map_index (m : option (gmap string any)) (k : string) : option any :=
  m ≫= (λ m, m !! k).

(** * The program *)

Definition baseURL : string := "https://ecrm.taxservice.am/taxsystem-rs-vcr/api/v1.0/".

(** Declared by the program and used nowhere in it. *)
Record Crn := { Value : string }.

Definition endpoint_names : list string :=
  [ "checkConnection"; "activate"; "configureDepartments"; "getGoodList";
    "print"; "printCopy"; "getReturnedReceiptInfo"; "printReturnReceipt";
    "uploadCertificate" ].

Definition endpoints : gmap string string :=
  list_to_map ((λ k, (k, k)) <$> endpoint_names).

Definition findCertificateFiles (crn : string) : IO (string * string * option string) :=
  let certFileCrt := filepath.Join "certs" (crn ++ "*.crt") in
  let keyFileKey := filepath.Join "certs" (crn ++ "*.key") in
  '(certFiles, err) ← filepath.Glob certFileCrt;
  match err with
  | Some err => mret ("", "", Some err)
  | None =>
      '(keyFiles, err) ← filepath.Glob keyFileKey;
      match err with
      | Some err => mret ("", "", Some err)
      | None =>
          match certFiles, keyFiles with
          | [certFile], [keyFile] => mret (certFile, keyFile, None)
          | _, _ =>
              mret ("", "",
                    Some ("certificate or key file not found or multiple files found for crn: "
                          ++ crn))
          end
      end
  end.

Definition upload_argv (certPath keyPath crn : string) : list string :=
  [ "curl"; "-X"; "POST";
    baseURL ++ "uploadCertificate";
    "-H"; "Content-Type: multipart/form-data";
    "-F"; "certificate=@" ++ certPath;
    "-F"; "key=@" ++ keyPath;
    "-F"; "crn=" ++ crn ].

Definition checkCertificates (crn : string) : IO (string * string * option string) :=
  '(certPath, keyPath, err) ← findCertificateFiles crn;
  match err with
  | Some err => mret ("", "", Some err)
  | None =>
      missing ← os.Stat_IsNotExist certPath;
      if missing : bool then mret ("", "", Some ("certificate file not found: " ++ certPath))
      else
        missing ← os.Stat_IsNotExist keyPath;
        if missing : bool then mret ("", "", Some ("key file not found: " ++ keyPath))
        else
          log.Println "Certificates found successfully";;
          '(output, err) ← exec.Output (upload_argv certPath keyPath crn);
          match err with
          | Some err =>
              mret ("", "",
                    Some ("error uploading certificates: " ++ err ++ nl
                          ++ "Response:" ++ nl ++ output))
          | None =>
              log.Println "Certificates uploaded successfully";;
              mret (certPath, keyPath, None)
          end
  end.

Definition call_argv (endpoint certPath keyPath jsonBytes : string) : list string :=
  [ "curl"; "-X"; "POST";
    baseURL ++ endpoint;
    "-H"; "Content-Type: application/json";
    "--cert"; certPath;
    "--key"; keyPath;
    "-d"; jsonBytes ].

Definition runCurlCommand (endpointKey : string) (jsonData : option (gmap string any))
  : IO (string * option string) :=
  match endpoints !! endpointKey with
  | None => mret ("", Some ("unknown endpoint " ++ endpointKey))
  | Some endpoint =>
      match json.Marshal_map jsonData with
      | (_, Some err) => mret ("", Some ("JSON encoding error: " ++ err))
      | (jsonBytes, None) =>
          match map_index jsonData "crn" with
          | None => mret ("", Some "field 'crn' is missing")
          | Some (AString crn) =>
              match strconv.Atoi crn with
              | (_, Some _) => mret ("", Some "field 'crn' must contain only numbers")
              | (_, None) =>
                  '(certPath, keyPath, err) ← checkCertificates crn;
                  match err with
                  | Some err => mret ("", Some err)
                  | None =>
                      '(output, err) ←
                        exec.Output (call_argv endpoint certPath keyPath jsonBytes);
                      match err with
                      | Some err =>
                          mret ("", Some ("error in " ++ endpointKey ++ ": " ++ err ++ nl
                                          ++ "Response:" ++ nl ++ output))
                      | None =>
                          emit (EvLog (endpointKey ++ " result: " ++ output ++ nl));;
                          mret (output, None)
                      end
                  end
              end
          | Some _ => mret ("", Some "field 'crn' must be a string")
          end
      end
  end.

Definition errorResponse (currentTime path : string) : gmap string any :=
  <["path" := AString path]>
  (<["message" := AString "Request method 'GET' not supported"]>
  (<["error" := AString "Method Not Allowed"]>
  (<["status" := AInt 405]>
  (<["timestamp" := AString currentTime]> ∅)))).

Definition handleRequest (w : http.ResponseWriter) (r : Request) (endpointKey : string)
  : IO http.ResponseWriter :=
  if negb (Method r =? http.MethodPost)%string then
    now ← time.Now_Format;
    let currentTime := now ++ "+0000" in
    match json.Marshal (AMap (errorResponse currentTime (URL_Path r))) with
    | (_, Some _) =>
        mret (http.Error w "Error marshaling JSON" http.StatusInternalServerError)
    | (jsonResponse, None) =>
        let w := http.WriteHeader w http.StatusMethodNotAllowed in
        let w := http.Header_Set w "Content-Type" "application/json" in
        mret (http.Write w jsonResponse)
    end
  else
    match io_ReadAll (Body r) with
    | (_, Some _) =>
        mret (http.Error w "Error reading request body" http.StatusBadRequest)
    | (body, None) =>
        match json_Unmarshal body with
        | (_, Some _) => mret (http.Error w "Invalid JSON" http.StatusBadRequest)
        | (jsonData, None) =>
            match map_index jsonData "crn" with
            | None => mret (http.Error w "Field 'crn' is missing" http.StatusBadRequest)
            | Some (AString crn) =>
                match strconv.Atoi crn with
                | (_, Some _) =>
                    mret (http.Error w "Field 'crn' must contain only numbers"
                            http.StatusBadRequest)
                | (_, None) =>
                    '(response, err) ← runCurlCommand endpointKey jsonData;
                    match err with
                    | Some err =>
                        mret (http.Error w ("Error processing request: " ++ err)
                                http.StatusInternalServerError)
                    | None =>
                        let w := http.WriteHeader w http.StatusOK in
                        mret (http.Write w response)
                    end
                end
            | Some _ =>
                mret (http.Error w "Field 'crn' must be a string" http.StatusBadRequest)
            end
        end
    end.

(** [main]: the nine routes, each bound to [handleRequest] with its
    operation; any other path gets the server's own "not found" reply. *)
Definition routes : list (string * string) :=
  (λ k, ("/" ++ k, k)) <$> endpoint_names.

Definition route (path : string) : option string :=
  (list_to_map routes : gmap string string) !! path.

Definition serve (r : Request) : IO Response :=
  match route (URL_Path r) with
  | Some endpointKey =>
      w ← handleRequest http.new_writer r endpointKey;
      mret (http.finish w)
  | None =>
      mret (http.finish (http.Error http.new_writer "404 page not found" http.StatusNotFound))
  end.

(** * Vocabulary of the properties *)

(** ** Names in the credential store *)

Fixpoint no_star (s : string) : bool :=
  match s with
  | EmptyString => true
  | String c s' => negb (Ascii.eqb c "*") && no_star s'
  end.

(** [name] is [crn], anything, then [ext]. *)
Definition is_named (crn ext name : string) : bool :=
  match Bytes.strip_prefix crn name with
  | Some rest => Bytes.has_suffix ext rest
  | None => false
  end.

(** The entries of the credential store named [crn*ext], as [Glob] lists
    them. *)
Definition matching (env : Env) (crn ext : string) : list string :=
  filter (λ n, is_named crn ext n) (certs_dir env).

Definition not_found (crn : string) : string :=
  "certificate or key file not found or multiple files found for crn: " ++ crn.

Definition glob_events (crn : string) : list event :=
  [ EvGlob (filepath.Join "certs" (crn ++ "*.crt"));
    EvGlob (filepath.Join "certs" (crn ++ "*.key")) ].

(** What has happened when the upload starts. *)
Definition upload_history (crn certPath keyPath : string) : list event :=
  (glob_events crn
   ++ [ EvStat certPath; EvStat keyPath;
        EvLog ("Certificates found successfully" ++ nl) ])%list.

(** What has happened when the operation's own call starts. *)
Definition call_history (crn certPath keyPath : string) : list event :=
  (upload_history crn certPath keyPath
   ++ [ EvExec (upload_argv certPath keyPath crn);
        EvLog ("Certificates uploaded successfully" ++ nl) ])%list.

Record accepted (r : Request) (jsonData : option (gmap string any)) (crn : string) : Prop := {
  acc_readable : Body r ≠ Unreadable;
  acc_json : json_Unmarshal (Body r) = (jsonData, None);
  acc_crn : map_index jsonData "crn" = Some (AString crn);
  acc_atoi : (strconv.Atoi crn).2 = None
}.

Definition resolve (env : Env) (crn : string) : string * string * option string :=
  match matching env crn ".crt", matching env crn ".key" with
  | [c], [k] => (filepath.Join "certs" c, filepath.Join "certs" k, None)
  | _, _ => ("", "", Some (not_found crn))
  end.

(** ** Outcomes of a request *)

(** How a request fails validation, with the message of the reply. *)
Inductive invalid (r : Request) : string → Prop :=
| invalid_unreadable :
    Body r = Unreadable →
    invalid r "Error reading request body"
| invalid_json e :
    Body r ≠ Unreadable →
    (json_Unmarshal (Body r)).2 = Some e →
    invalid r "Invalid JSON"
| invalid_missing jsonData :
    Body r ≠ Unreadable →
    json_Unmarshal (Body r) = (jsonData, None) →
    map_index jsonData "crn" = None →
    invalid r "Field 'crn' is missing"
| invalid_not_string jsonData v :
    Body r ≠ Unreadable →
    json_Unmarshal (Body r) = (jsonData, None) →
    map_index jsonData "crn" = Some v →
    (∀ s, v ≠ AString s) →
    invalid r "Field 'crn' must be a string"
| invalid_not_number jsonData crn e :
    Body r ≠ Unreadable →
    json_Unmarshal (Body r) = (jsonData, None) →
    map_index jsonData "crn" = Some (AString crn) →
    (strconv.Atoi crn).2 = Some e →
    invalid r "Field 'crn' must contain only numbers".

(** A POST request to the route of [k] whose body decodes to the object [m]. *)
Definition carries (r : Request) (k : string) (m : gmap string any) : Prop :=
  Method r = "POST" ∧ route (URL_Path r) = Some k
  ∧ Body r ≠ Unreadable ∧ json_Unmarshal (Body r) = (Some m, None).

Definition upload_failure (err output : string) : string :=
  "error uploading certificates: " ++ err ++ nl ++ "Response:" ++ nl ++ output.

Definition call_failure (k err output : string) : string :=
  "error in " ++ k ++ ": " ++ err ++ nl ++ "Response:" ++ nl ++ output.

(** ** Field content of an envelope *)

(** Two number literals denote the same number. *)
Definition same_number (a b : string) : bool :=
  match json.number_of_literal a, json.number_of_literal b with
  | Some (na, ma, ea), Some (nb, mb, eb) =>
      let lo := Z.min ea eb in
      ((if na : bool then - ma else ma) * 10 ^ (ea - lo)
       =? (if nb : bool then - mb else mb) * 10 ^ (eb - lo))
  | _, _ => false
  end.

(** Two value trees have the same field content: equal scalars, numbers
    of equal value, arrays equal element by element, objects with the
    same members whatever their order. *)
Inductive same_content : jvalue → jvalue → Prop :=
| same_null : same_content JNull JNull
| same_bool b : same_content (JBool b) (JBool b)
| same_num a b : same_number a b = true → same_content (JNumber a) (JNumber b)
| same_string s : same_content (JString s) (JString s)
| same_array l l' :
    Forall2 same_content l l' → same_content (JArray l) (JArray l')
| same_object fs fs' gs :
    gs ≡ₚ fs' →
    Forall2 (λ a b, a.1 = b.1 ∧ same_content a.2 b.2) fs gs →
    same_content (JObject fs) (JObject fs').

(** The number survives the conversion to float64 and back. *)
Definition survives (lit : string) : bool :=
  match json.ParseFloat lit with
  | Some x => same_number lit (json.FormatFloat x)
  | None => false
  end.

(** On a syntax tree, whose strings and keys are already unquoted: no
    object repeats a key and every number survives float64. *)
Fixpoint lossless (j : jvalue) : bool :=
  match j with
  | JNumber lit => survives lit
  | JArray l => forallb lossless l
  | JObject fs => bool_decide (NoDup fs.*1) && forallb (λ kv, lossless kv.2) fs
  | _ => true
  end.

(** ** Field content of a written document *)

(** A string of digits that starts with a superfluous zero. *)
Definition leading_zero (d : string) : bool :=
  match d with String "0" (String _ _) => true | _ => false end.

(** An integer literal of magnitude below 2^53: an optional minus sign,
    then decimal digits without a superfluous leading zero. *)
Definition plain_integer (lit : string) : bool :=
  let d := match lit with String "-" t => t | _ => lit end in
  negb (d =? "")%string && Bytes.all_digits d && negb (leading_zero d)
  && (Bytes.digits_value 0 d <? 2 ^ 53).

(** A decimal without exponent and with at most fifteen digits: an
    optional minus sign, digits without a superfluous leading zero,
    and possibly a point followed by digits. *)
Definition short_decimal (lit : string) : bool :=
  let s := match lit with
           | String c t => if Ascii.eqb c "-" then t else lit
           | EmptyString => lit
           end in
  let '(i, r) := json.span_digits s in
  negb (i =? "")%string && negb (leading_zero i)
  && match r with
     | EmptyString => (String.length i <=? 15)%nat
     | String c f =>
         Ascii.eqb c "." && negb (f =? "")%string && Bytes.all_digits f
         && (String.length (i ++ f) <=? 15)%nat
     end.

(** The number is kept: it is a plain integer, a short decimal or, more
    generally, a literal that survives the conversion to float64 and
    back. *)
Definition number_kept (lit : string) : bool :=
  plain_integer lit || short_decimal lit || survives lit.

Definition in_range (lo hi : Z) (c : jchar) : bool :=
  match c with
  | JByte b => (lo <=? Bytes.code b) && (Bytes.code b <=? hi)
  | JEscape _ => false
  end.

Definition tail_byte : jchar → bool := in_range 0x80 0xBF.

(** The literal is well-formed text.  Its bytes follow the grammar of
    UTF-8 (RFC 3629): an ASCII byte; C2..DF and one tail byte; E0 A0..BF,
    E1..EC 80..BF, ED 80..9F or EE..EF 80..BF and one more tail byte;
    F0 90..BF, F1..F3 80..BF or F4 80..8F and two more tail bytes.  Its
    escapes are four hex digits, and a surrogate escape occurs only as a
    high surrogate directly followed by a low one. *)
Fixpoint well_formed (s : list jchar) : bool :=
  match s with
  | [] => true
  | JEscape u :: rest =>
      if (0xD800 <=? u) && (u <=? 0xDBFF) then
        match rest with
        | JEscape v :: rest' =>
            (0xDC00 <=? v) && (v <=? 0xDFFF) && well_formed rest'
        | _ => false
        end
      else if (0xDC00 <=? u) && (u <=? 0xDFFF) then false
      else (0 <=? u) && (u <=? 0xFFFF) && well_formed rest
  | JByte b :: rest =>
      let c := Bytes.code b in
      if c <=? 0x7F then well_formed rest
      else
        match rest with
        | [] => false
        | c1 :: rest1 =>
            if (0xC2 <=? c) && (c <=? 0xDF) then tail_byte c1 && well_formed rest1
            else
              match rest1 with
              | [] => false
              | c2 :: rest2 =>
                  if c =? 0xE0 then
                    in_range 0xA0 0xBF c1 && tail_byte c2 && well_formed rest2
                  else if ((0xE1 <=? c) && (c <=? 0xEC)) || ((0xEE <=? c) && (c <=? 0xEF)) then
                    tail_byte c1 && tail_byte c2 && well_formed rest2
                  else if c =? 0xED then
                    in_range 0x80 0x9F c1 && tail_byte c2 && well_formed rest2
                  else
                    match rest2 with
                    | [] => false
                    | c3 :: rest3 =>
                        if c =? 0xF0 then
                          in_range 0x90 0xBF c1 && tail_byte c2 && tail_byte c3
                          && well_formed rest3
                        else if (0xF1 <=? c) && (c <=? 0xF3) then
                          tail_byte c1 && tail_byte c2 && tail_byte c3
                          && well_formed rest3
                        else if c =? 0xF4 then
                          in_range 0x80 0x8F c1 && tail_byte c2 && tail_byte c3
                          && well_formed rest3
                        else false
                    end
              end
        end
  end.

(** The text a literal stands for, byte by byte: its bytes as written,
    an escape as the UTF-8 form of its code point, a surrogate pair as
    the one code point it encodes.  An unpaired surrogate escape stands
    for no text. *)
Fixpoint written_bytes (s : list jchar) : option string :=
  match s with
  | [] => Some ""
  | JByte b :: rest => String b <$> written_bytes rest
  | JEscape u :: rest =>
      if (0xD800 <=? u) && (u <=? 0xDFFF) then
        match rest with
        | JEscape v :: rest' =>
            if (u <=? 0xDBFF) && (0xDC00 <=? v) && (v <=? 0xDFFF) then
              String.append
                (utf8.EncodeRune (0x10000 + (u - 0xD800) * 1024 + (v - 0xDC00)))
                <$> written_bytes rest'
            else None
        | _ => None
        end
      else String.append (utf8.EncodeRune u) <$> written_bytes rest
  end.

(** The written document with every literal replaced by the text it
    stands for: the field content the client sent. *)
Fixpoint written_tree (t : jtext) : option jvalue :=
  match t with
  | TNull => Some JNull
  | TBool b => Some (JBool b)
  | TNumber lit => Some (JNumber lit)
  | TString s => JString <$> written_bytes s
  | TArray l => JArray <$> mapM written_tree l
  | TObject fs =>
      JObject <$> mapM (λ kv, key ← written_bytes kv.1;
                              pair key <$> written_tree kv.2) fs
  end.

(** Every string and key is well-formed text, no object repeats a key,
    every number is kept. *)
Fixpoint lossless_text (t : jtext) : bool :=
  match t with
  | TNumber lit => number_kept lit
  | TString s => well_formed s
  | TArray l => forallb lossless_text l
  | TObject fs =>
      forallb (λ kv, well_formed kv.1) fs
      && bool_decide (NoDup (written_bytes <$> fs.*1))
      && forallb (λ kv, lossless_text kv.2) fs
  | _ => true
  end.

(** A literal written without escapes. *)
Definition raw (s : string) : list jchar := JByte <$> list_ascii_of_string s.

(** The binary64 number that is exactly the integer [n], for
    [0 < n < 2^53]. *)
Definition exact_float (s : bool) (n : Z) : float64.t :=
  float64.mk s (n * 2 ^ (52 - Z.log2 n)) (Z.log2 n - 52).

(** The number grammar after the sign. *)
Definition unsigned_literal (neg : bool) (s : string) : option (bool * Z * Z) :=
  '(i, s) ← json.int_part s;
  '(f, s) ← json.frac_part s;
  e ← json.exp_part s;
  Some (neg, Bytes.digits_value 0 (i ++ f), e - Z.of_nat (String.length f)).

(** [b^l <= p / q], for any sign of [l]. *)
Definition reaches (b l p q : Z) : bool :=
  if 0 <=? l then q * b ^ l <=? p else q <=? p * b ^ (- l).

(** [c * 10^k] and [m * 10^e] are the same number. *)
Definition same_decimal (c k m e : Z) : Prop :=
  c * 10 ^ (k - Z.min k e) = m * 10 ^ (e - Z.min k e).

(** The string is empty or starts with something that is not a digit. *)
Definition stops (b : string) : bool :=
  match b with
  | EmptyString => true
  | String c _ => negb (Bytes.is_digit c)
  end.

(** ** The whole outcome of an accepted request *)

Definition failed (msg : string) : Response :=
  http.plain_text 500 ("Error processing request: " ++ msg).

(** Reply and trace of a request that passed validation, case by case:
    resolution, the two existence checks, the upload, the call. *)
Definition relay_outcome (env : Env) (k : string)
    (jsonData : option (gmap string any)) (crn : string) : Response * list event :=
  match resolve env crn with
  | (_, _, Some err) => (failed err, glob_events crn)
  | (certPath, keyPath, None) =>
      if not_exist env certPath then
        (failed ("certificate file not found: " ++ certPath),
         (glob_events crn ++ [EvStat certPath])%list)
      else if not_exist env keyPath then
        (failed ("key file not found: " ++ keyPath),
         (glob_events crn ++ [EvStat certPath; EvStat keyPath])%list)
      else
        let upload := upload_argv certPath keyPath crn in
        let call := call_argv k certPath keyPath (json.Marshal_map jsonData).1 in
        match output_of env (upload_history crn certPath keyPath) upload with
        | (output, Some err) =>
            (failed (upload_failure err output),
             (upload_history crn certPath keyPath ++ [EvExec upload])%list)
        | (_, None) =>
            match output_of env (call_history crn certPath keyPath) call with
            | (output, Some err) =>
                (failed (call_failure k err output),
                 (call_history crn certPath keyPath ++ [EvExec call])%list)
            | (output, None) =>
                ({| status := 200; headers := ∅; content := output |},
                 (call_history crn certPath keyPath
                  ++ [EvExec call; EvLog (k ++ " result: " ++ output ++ nl)])%list)
            end
        end
  end.

(** Some number literal of the tree does not fit a float64. *)
Fixpoint has_unfit_number (j : jvalue) : bool :=
  match j with
  | JNumber lit => negb (bool_decide (is_Some (json.ParseFloat lit)))
  | JArray l => existsb has_unfit_number l
  | JObject fs => existsb (λ kv, has_unfit_number kv.2) fs
  | _ => false
  end.

(** ** A sample world and sample requests *)

Module Fixture.

(** A store with one certificate and one key for merchant 1234, two
    certificates for merchant 77, and an upstream that answers [ok]. *)
Definition store : Env := {|
  certs_dir := ["-5.crt"; "-5.key"; "1234_shop.crt"; "1234_shop.key";
                "77.crt"; "77.key"; "77b.crt"];
  not_exist := λ _, false;
  output_of := λ _ _, ("ok", None);
  clock := "2024-05-01T10:20:30.123"
|}.

(** The same store in front of an upstream that refuses the upload. *)
Definition refusing : Env := {|
  certs_dir := certs_dir store;
  not_exist := λ _, false;
  output_of := λ tr _,
    match commands tr with
    | [] => ("denied", Some "exit status 22")
    | _ => ("ok", None)
    end;
  clock := clock store
|}.

Definition post (path : string) (j : jvalue) : Request :=
  {| Method := "POST"; URL_Path := path; Body := Text j |}.

Definition envelope (crn : string) : jvalue := JObject [("crn", JString crn)].

End Fixture.

Module Samples.

(** The sample store with the certificate of merchant 1234 gone between
    the listing and the check. *)
Definition vanished : Env := {|
  certs_dir := certs_dir Fixture.store;
  not_exist := λ name, String.eqb name "certs/1234_shop.crt";
  output_of := λ _ _, ("ok", None);
  clock := clock Fixture.store
|}.

(** The sample store with the key of merchant 1234 gone. *)
Definition keyless : Env := {|
  certs_dir := certs_dir Fixture.store;
  not_exist := λ name, String.eqb name "certs/1234_shop.key";
  output_of := λ _ _, ("ok", None);
  clock := clock Fixture.store
|}.

(** An upstream that takes the upload and fails the operation's call. *)
Definition failing_call : Env := {|
  certs_dir := certs_dir Fixture.store;
  not_exist := λ _, false;
  output_of := λ tr _,
    match commands tr with
    | [] => ("ok", None)
    | _ => ("busy", Some "exit status 7")
    end;
  clock := clock Fixture.store
|}.

End Samples.

(** * Properties *)

(** ** The integer grammar of [Atoi] *)

Module AtoiFacts.
Import Bytes strconv.

Lemma code_range c : 0 <= code c < 256.
Proof.
  unfold code. pose proof (nat_ascii_bounded c). lia.
Qed.

Lemma has_non_digit_all_digits s : has_non_digit s = negb (all_digits s).
Proof.
  induction s as [|c s IH]; simpl; [reflexivity|].
  rewrite IH. destruct (is_digit c); reflexivity.
Qed.

Lemma is_digit_wrap c : (9 <? (code c - 48) mod 256) = negb (is_digit c).
Proof.
  pose proof (code_range c) as Hc. unfold is_digit.
  destruct (Z.leb_spec 48 (code c)) as [Hlo|Hlo]; simpl.
  - rewrite Z.mod_small by lia.
    destruct (Z.leb_spec (code c) 57), (Z.ltb_spec 9 (code c - 48)); simpl; lia.
  - replace ((code c - 48) mod 256) with (code c + 208).
    + destruct (Z.ltb_spec 9 (code c + 208)); [reflexivity | lia].
    + apply Z.mod_unique with (q := -1); lia.
Qed.

Lemma is_digit_wrap_value c : is_digit c = true → (code c - 48) mod 256 = code c - 48.
Proof.
  unfold is_digit. intros H. apply andb_true_iff in H as [H1 H2].
  apply Z.leb_le in H1, H2. apply Z.mod_small. lia.
Qed.

Lemma is_digit_value c : is_digit c = true → 0 <= code c - 48 <= 9.
Proof.
  unfold is_digit. intros H. apply andb_true_iff in H as [H1 H2].
  apply Z.leb_le in H1, H2. lia.
Qed.

Lemma sign_not_digit c : is_sign c = true → is_digit c = false.
Proof.
  unfold is_sign. intros H. apply orb_true_iff in H as [H|H];
    apply Ascii.eqb_eq in H; subst c; reflexivity.
Qed.

Lemma digits_value_ge s : ∀ n, all_digits s = true → 0 <= n → n <= digits_value n s.
Proof.
  induction s as [|c s IH]; simpl; intros n Hs Hn; [lia|].
  apply andb_true_iff in Hs as [Hc Hs]. apply is_digit_value in Hc.
  specialize (IH (n * 10 + (code c - 48)) Hs). lia.
Qed.

Lemma digits_value_lt s :
  ∀ n, all_digits s = true → 0 <= n →
       digits_value n s < (n + 1) * 10 ^ Z.of_nat (String.length s).
Proof.
  induction s as [|c s IH]; intros n Hs Hn.
  - simpl. lia.
  - cbn [all_digits digits_value String.length] in *.
    apply andb_true_iff in Hs as [Hc Hs]. apply is_digit_value in Hc.
    specialize (IH (n * 10 + (code c - 48)) Hs).
    rewrite Nat2Z.inj_succ, Z.pow_succ_r by lia.
    assert (0 < 10 ^ Z.of_nat (String.length s)) by (apply Z.pow_pos_nonneg; lia).
    nia.
Qed.

(** The fast loop accepts exactly the strings of digits. *)
Lemma atoi_fast_loop_digits s :
  ∀ n, all_digits s = true → atoi_fast_loop s n = (digits_value n s, None).
Proof.
  induction s as [|c s IH]; simpl; intros n Hs; [reflexivity|].
  apply andb_true_iff in Hs as [Hc Hs].
  rewrite is_digit_wrap, Hc. simpl.
  rewrite is_digit_wrap_value by assumption. apply IH, Hs.
Qed.

Lemma atoi_fast_loop_syntax s :
  ∀ n, all_digits s = false → atoi_fast_loop s n = (0, Some ErrSyntax).
Proof.
  induction s as [|c s IH]; simpl; intros n Hs; [discriminate|].
  rewrite is_digit_wrap. destruct (is_digit c); simpl in *; [apply IH, Hs | reflexivity].
Qed.

(** [ParseUint]: a syntax error exactly off the digit strings; on a
    digit string, the value if it fits a uint64 and a range error if not. *)
Lemma parseUint_loop_syntax s :
  ∀ n, all_digits s = false → ∃ v e, parseUint_loop s n = (v, Some e).
Proof.
  induction s as [|c s IH]; simpl; intros n Hs; [discriminate|].
  destruct (is_digit c); simpl in *; [|eauto].
  destruct (uint_cutoff <=? n); [eauto|].
  match goal with |- context [if ?b then _ else _] => destruct b end; [eauto|].
  apply IH, Hs.
Qed.

Lemma parseUint_loop_digits s :
  ∀ n, all_digits s = true → 0 <= n <= maxUint64 →
       (parseUint_loop s n = (digits_value n s, None) ∧ digits_value n s <= maxUint64)
       ∨ (parseUint_loop s n = (maxUint64, Some ErrRange) ∧ maxUint64 < digits_value n s).
Proof.
  induction s as [|c s IH]; simpl; intros n Hs Hn; [left; split; [reflexivity | lia]|].
  apply andb_true_iff in Hs as [Hc Hs]. rewrite Hc. simpl.
  pose proof (is_digit_value c Hc) as Hd.
  unfold uint_cutoff, maxUint64 in *.
  change ((2 ^ 64 - 1) / 10 + 1) with 1844674407370955162.
  change (2 ^ 64) with 18446744073709551616 in *.
  destruct (Z.leb_spec 1844674407370955162 n) as [Hcut|Hcut].
  - right. split; [reflexivity|].
    pose proof (digits_value_ge s (n * 10 + (code c - 48)) Hs). lia.
  - assert (Hn10 : (n * 10) mod 18446744073709551616 = n * 10)
      by (apply Z.mod_small; lia).
    rewrite Hn10.
    destruct (Z.lt_ge_cases (n * 10 + (code c - 48)) 18446744073709551616)
      as [Hfit|Hover].
    + rewrite (Z.mod_small (n * 10 + (code c - 48))) by lia.
      destruct (Z.ltb_spec (n * 10 + (code c - 48)) (n * 10)); [lia|].
      destruct (Z.ltb_spec (18446744073709551616 - 1) (n * 10 + (code c - 48))); [lia|].
      simpl. apply IH; [assumption | lia].
    + assert (Hw : (n * 10 + (code c - 48)) mod 18446744073709551616
                   = n * 10 + (code c - 48) - 18446744073709551616)
        by (symmetry; apply Z.mod_unique with (q := 1); lia).
      rewrite Hw.
      destruct (Z.ltb_spec (n * 10 + (code c - 48) - 18446744073709551616) (n * 10));
        [|lia].
      simpl. right. split; [reflexivity|].
      pose proof (digits_value_ge s (n * 10 + (code c - 48)) Hs). lia.
Qed.

Lemma parseUint_loop_range s :
  ∀ n v, parseUint_loop s n = (v, Some ErrRange) → v = maxUint64.
Proof.
  induction s as [|c s IH]; simpl; intros n v H; [discriminate|].
  destruct (is_digit c); simpl in H; [|discriminate].
  destruct (uint_cutoff <=? n); [congruence|].
  match type of H with context [if ?b then _ else _] => destruct b end;
    [congruence | eauto].
Qed.

Lemma parseUint_loop_ok s n v : parseUint_loop s n = (v, None) → all_digits s = true.
Proof.
  intros H. destruct (all_digits s) eqn:Hd; [reflexivity|].
  destruct (parseUint_loop_syntax s n Hd) as (v' & e & He). congruence.
Qed.

Lemma unsigned_part_sign c rest : is_sign c = true → unsigned_part (String c rest) = rest.
Proof. intros H. simpl. rewrite H. reflexivity. Qed.

Lemma unsigned_part_plain c rest :
  is_sign c = false → unsigned_part (String c rest) = String c rest.
Proof. intros H. simpl. rewrite H. reflexivity. Qed.

(** [ParseInt] without error: the string is a signed decimal. *)
Lemma ParseInt_accepts s v : ParseInt s = (v, None) → signed_decimal s = true.
Proof.
  destruct s as [|c rest]; [discriminate|].
  unfold ParseInt, signed_decimal.
  change (if is_sign c then rest else String c rest) with (unsigned_part (String c rest)).
  generalize (unsigned_part (String c rest)) as body. intros body H.
  destruct (ParseUint body) as [un [[]|]] eqn:HU; [discriminate | |].
  - exfalso. destruct body as [|b body]; [discriminate|].
    apply parseUint_loop_range in HU. subst un.
    destruct (Ascii.eqb c "-"); simpl in H; discriminate.
  - destruct body as [|b body]; [discriminate|].
    apply parseUint_loop_ok in HU. rewrite HU. reflexivity.
Qed.

Lemma atoi_fast_loop_ok s n v : atoi_fast_loop s n = (v, None) → all_digits s = true.
Proof.
  intros H. destruct (all_digits s) eqn:Hd; [reflexivity|].
  rewrite (atoi_fast_loop_syntax _ n Hd) in H. discriminate.
Qed.

Lemma atoi_fast_accepts s v : atoi_fast s = (v, None) → signed_decimal s = true.
Proof.
  destruct s as [|c rest]; [discriminate|].
  unfold atoi_fast, signed_decimal.
  change (if is_sign c then rest else String c rest) with (unsigned_part (String c rest)).
  destruct (is_sign c) eqn:Hsign.
  - rewrite (unsigned_part_sign _ _ Hsign).
    destruct rest as [|b rest]; [discriminate|].
    cbn [String.length Nat.ltb Nat.leb andb].
    destruct (atoi_fast_loop (String b rest) 0) as [n [e|]] eqn:HL; [discriminate|].
    intros _. apply atoi_fast_loop_ok in HL. rewrite HL. reflexivity.
  - rewrite (unsigned_part_plain _ _ Hsign). cbn [andb].
    destruct (atoi_fast_loop (String c rest) 0) as [n [e|]] eqn:HL; [discriminate|].
    intros _. apply atoi_fast_loop_ok in HL. rewrite HL. reflexivity.
Qed.

(** [Atoi] succeeds only on an optional sign followed by digits. *)
Lemma Atoi_accepts s v : Atoi s = (v, None) → signed_decimal s = true.
Proof.
  unfold Atoi. destruct (_ && _); [apply atoi_fast_accepts | apply ParseInt_accepts].
Qed.

Lemma Atoi_rejects s : signed_decimal s = false → ∃ v e, Atoi s = (v, Some e).
Proof.
  intros H. destruct (Atoi s) as [v [e|]] eqn:HA; [eauto|].
  apply Atoi_accepts in HA. congruence.
Qed.

Lemma signed_decimal_body s :
  signed_decimal s = true →
  ∃ c rest, s = String c rest ∧ unsigned_part s ≠ "" ∧ all_digits (unsigned_part s) = true.
Proof.
  unfold signed_decimal. intros H. apply andb_true_iff in H as [Hne Hd].
  destruct s as [|c rest]; [discriminate|].
  exists c, rest. split; [reflexivity|]. split; [|assumption].
  intros E. rewrite E in Hne. discriminate.
Qed.

Lemma short_digits_in_range body :
  all_digits body = true → (String.length body < 19)%nat →
  0 <= digits_value 0 body <= maxInt64.
Proof.
  intros Hd Hlen. split; [apply (digits_value_ge body 0 Hd); lia|].
  pose proof (digits_value_lt body 0 Hd ltac:(lia)) as Hlt.
  assert (10 ^ Z.of_nat (String.length body) <= 10 ^ 18)
    by (apply Z.pow_le_mono_r; lia).
  change (10 ^ 18) with 1000000000000000000 in *.
  unfold maxInt64. change (2 ^ 63) with 9223372036854775808. lia.
Qed.

(** [Atoi] on a signed decimal: its value when it fits an [int], the
    nearest bound and a range error when it does not. *)
Lemma Atoi_signed_decimal s :
  signed_decimal s = true →
  Atoi s =
    if (minInt64 <=? signed_value s) && (signed_value s <=? maxInt64)
    then (signed_value s, None)
    else (if is_neg s then minInt64 else maxInt64, Some ErrRange).
Proof.
  intros Hs. destruct (signed_decimal_body s Hs) as (c & rest & -> & Hne & Hd).
  unfold Atoi, signed_value, is_neg.
  destruct ((0 <? String.length (String c rest))%nat
            && (String.length (String c rest) <? 19)%nat) eqn:Hfast.
  - apply andb_true_iff in Hfast as [_ Hlen]. apply Nat.ltb_lt in Hlen.
    unfold atoi_fast.
    change (if is_sign c then rest else String c rest)
      with (unsigned_part (String c rest)).
    assert (Hblen : (String.length (unsigned_part (String c rest)) < 19)%nat).
    { simpl unsigned_part. destruct (is_sign c); simpl in *; lia. }
    pose proof (short_digits_in_range _ Hd Hblen) as Hrange.
    rewrite (atoi_fast_loop_digits _ 0 Hd).
    assert (Hlen1 : (String.length (unsigned_part (String c rest)) <? 1)%nat = false).
    { destruct (unsigned_part (String c rest)); [congruence | reflexivity]. }
    rewrite Hlen1, andb_false_r.
    unfold minInt64, maxInt64 in *. change (2 ^ 63) with 9223372036854775808 in *.
    set (v := digits_value 0 (unsigned_part (String c rest))) in *.
    destruct (Ascii.eqb c "-"); cbn [negb andb];
      repeat match goal with
             | |- context [Z.leb ?a ?b] => destruct (Z.leb_spec a b)
             end; cbn [negb andb]; (reflexivity || lia).
  - unfold ParseInt.
    change (if is_sign c then rest else String c rest)
      with (unsigned_part (String c rest)).
    pose proof (digits_value_ge _ 0 Hd ltac:(lia)) as Hge.
    assert (HU : ParseUint (unsigned_part (String c rest))
                 = parseUint_loop (unsigned_part (String c rest)) 0).
    { destruct (unsigned_part (String c rest)); [congruence | reflexivity]. }
    rewrite HU.
    unfold minInt64, maxInt64, int_cutoff, intSize in *.
    change (2 ^ (64 - 1)) with 9223372036854775808 in *.
    change (2 ^ 63) with 9223372036854775808 in *.
    destruct (parseUint_loop_digits _ 0 Hd) as [[-> Hfit]|[-> Hbig]];
      [unfold maxUint64; change (2 ^ 64 - 1) with 18446744073709551615; lia | |].
    + set (v := digits_value 0 (unsigned_part (String c rest))) in *.
      destruct (Ascii.eqb c "-"); cbn [negb andb];
        repeat match goal with
               | |- context [Z.leb ?a ?b] => destruct (Z.leb_spec a b)
               | |- context [Z.ltb ?a ?b] => destruct (Z.ltb_spec a b)
               end; cbn [negb andb]; (reflexivity || lia).
    + unfold maxUint64 in *. change (2 ^ 64 - 1) with 18446744073709551615 in *.
      set (v := digits_value 0 (unsigned_part (String c rest))) in *.
      destruct (Ascii.eqb c "-"); cbn [negb andb];
        repeat match goal with
               | |- context [Z.leb ?a ?b] => destruct (Z.leb_spec a b)
               | |- context [Z.ltb ?a ?b] => destruct (Z.ltb_spec a b)
               end; cbn [negb andb]; (reflexivity || lia).
Qed.

End AtoiFacts.

(** ** Replies and the shape of a handled request *)

Lemma finish_Error msg code :
  http.finish (http.Error http.new_writer msg code) = http.plain_text code msg.
Proof. reflexivity. Qed.

Lemma route_endpoint path k : route path = Some k → path = "/" ++ k ∧ In k endpoint_names.
Proof.
  unfold route. intros H.
  apply elem_of_list_to_map_2 in H.
  unfold routes in H. apply list_elem_of_fmap in H as (k' & E & Hin).
  inversion E; subst. split; [reflexivity|].
  apply list_elem_of_In. assumption.
Qed.

Lemma endpoint_known k : In k endpoint_names → endpoints !! k = Some k.
Proof.
  intros H. simpl in H.
  repeat (destruct H as [<-|H]; [reflexivity|]). contradiction.
Qed.

Lemma post_method r : Method r = "POST" → negb (Method r =? http.MethodPost)%string = false.
Proof. intros ->. reflexivity. Qed.

Lemma io_ReadAll_readable b : b ≠ Unreadable → io_ReadAll b = (b, None).
Proof. destruct b; [congruence | reflexivity | reflexivity]. Qed.

(** A request that fails validation is answered on the spot: the reply
    is the plain-text 400 and nothing was done in the world. *)
Lemma handleRequest_invalid env tr r k msg :
  Method r = "POST" → invalid r msg →
  handleRequest http.new_writer r k env tr
  = (http.Error http.new_writer msg http.StatusBadRequest, tr).
Proof.
  intros HM Hinv. unfold handleRequest. rewrite (post_method r HM).
  destruct Hinv as [HB | e HB HU | jd HB HU Hcrn | jd v HB HU Hcrn Hv | jd crn e HB HU Hcrn HA].
  - rewrite HB. reflexivity.
  - rewrite (io_ReadAll_readable _ HB).
    destruct (json_Unmarshal (Body r)) as [jd err]. simpl in HU. subst err. reflexivity.
  - rewrite (io_ReadAll_readable _ HB), HU, Hcrn. reflexivity.
  - rewrite (io_ReadAll_readable _ HB), HU, Hcrn.
    destruct v; try reflexivity. exfalso. eapply Hv. reflexivity.
  - rewrite (io_ReadAll_readable _ HB), HU, Hcrn.
    destruct (strconv.Atoi crn) as [n err]. simpl in HA. subst err. reflexivity.
Qed.

Lemma serve_invalid env r k msg :
  Method r = "POST" → route (URL_Path r) = Some k → invalid r msg →
  exec_io (serve r) env = (http.plain_text 400 msg, []).
Proof.
  intros HM HR Hinv. unfold exec_io, serve. rewrite HR.
  unfold mbind, IO_bind. rewrite (handleRequest_invalid env [] r k msg HM Hinv).
  reflexivity.
Qed.

(** ** Patterns [crn*.ext] *)

Module GlobFacts.
Import Bytes filepath.

Lemma Match_literal p : ∀ name, no_star p = true → Match p name = (name =? p)%string.
Proof.
  induction p as [|c p IH]; intros name Hp.
  - destruct name; reflexivity.
  - simpl in Hp. apply andb_true_iff in Hp as [Hc Hp].
    apply negb_true_iff in Hc. cbn [Match]. rewrite Hc.
    destruct name as [|d name]; [reflexivity|].
    rewrite (IH name Hp). cbn [String.eqb].
    rewrite (Ascii.eqb_sym c d). destruct (Ascii.eqb d c); reflexivity.
Qed.

Lemma Match_star p name :
  no_star p = true → Match (String "*" p) name = has_suffix p name.
Proof.
  intros Hp. cbn [Match]. change (Ascii.eqb "*" "*") with true. cbv iota.
  induction name as [|d name IH].
  - rewrite (Match_literal p "" Hp). simpl. rewrite orb_false_r. reflexivity.
  - rewrite (Match_literal p _ Hp). cbn [has_suffix]. rewrite IH. reflexivity.
Qed.

Lemma Match_prefix a q :
  ∀ name, no_star a = true →
          Match (a ++ q) name
          = match strip_prefix a name with
            | Some rest => Match q rest
            | None => false
            end.
Proof.
  induction a as [|c a IH]; intros name Ha; [reflexivity|].
  simpl in Ha. apply andb_true_iff in Ha as [Hc Ha]. apply negb_true_iff in Hc.
  change (String c a ++ q) with (String c (a ++ q)).
  cbn [Match strip_prefix]. rewrite Hc.
  destruct name as [|d name]; [reflexivity|].
  rewrite (IH name Ha). destruct (Ascii.eqb c d); reflexivity.
Qed.

(** The pattern the resolver builds matches the names that start with
    [crn] and end in the extension. *)
Lemma Match_crn_ext crn ext name :
  no_star crn = true → no_star ext = true →
  Match (crn ++ String "*" ext) name = is_named crn ext name.
Proof.
  intros Hc He. rewrite (Match_prefix crn _ name Hc). unfold is_named.
  destruct (strip_prefix crn name); [apply Match_star, He | reflexivity].
Qed.

Lemma strip_prefix_app p s : strip_prefix p (p ++ s) = Some s.
Proof.
  induction p as [|c p IH]; [reflexivity|].
  simpl. rewrite Ascii.eqb_refl. exact IH.
Qed.

Lemma strip_prefix_Some p s rest : strip_prefix p s = Some rest → s = p ++ rest.
Proof.
  revert s. induction p as [|c p IH]; intros s H; simpl in H.
  - injection H as ->. reflexivity.
  - destruct s as [|d s]; [discriminate|].
    destruct (Ascii.eqb_spec c d); [|discriminate]. subst d.
    change (String c p ++ rest) with (String c (p ++ rest)).
    f_equal. apply IH, H.
Qed.

Lemma has_suffix_spec suf s : has_suffix suf s = true ↔ ∃ mid, s = mid ++ suf.
Proof.
  split.
  - induction s as [|c s IH]; cbn [has_suffix]; intros H.
    + apply orb_true_iff in H as [H|H]; [|discriminate].
      apply String.eqb_eq in H. exists "". exact H.
    + apply orb_true_iff in H as [H|H].
      * apply String.eqb_eq in H. exists "". exact H.
      * destruct (IH H) as [mid ->]. exists (String c mid). reflexivity.
  - intros [mid ->]. induction mid as [|c mid IH].
    + change ("" ++ suf) with suf.
      destruct suf; cbn [has_suffix]; rewrite String.eqb_refl; reflexivity.
    + change (String c mid ++ suf) with (String c (mid ++ suf)).
      cbn [has_suffix]. rewrite IH. apply orb_true_r.
Qed.

(** A name is [crn*.ext] exactly when it is [crn ++ mid ++ ext]. *)
Lemma is_named_spec crn ext name :
  is_named crn ext name = true ↔ ∃ mid, name = crn ++ mid ++ ext.
Proof.
  unfold is_named. split.
  - destruct (strip_prefix crn name) as [rest|] eqn:E; [|discriminate].
    intros H. apply has_suffix_spec in H as [mid ->].
    exists mid. apply strip_prefix_Some, E.
  - intros [mid ->]. rewrite strip_prefix_app. apply has_suffix_spec. eauto.
Qed.

Lemma digits_no_star s : all_digits s = true → no_star s = true.
Proof.
  induction s as [|c s IH]; simpl; intros H; [reflexivity|].
  apply andb_true_iff in H as [Hc Hs]. rewrite (IH Hs), andb_true_r.
  destruct (Ascii.eqb_spec c "*"); [subst c; discriminate | reflexivity].
Qed.

Lemma signed_decimal_no_star crn : strconv.signed_decimal crn = true → no_star crn = true.
Proof.
  unfold strconv.signed_decimal. intros H. apply andb_true_iff in H as [_ Hd].
  destruct crn as [|c rest]; [reflexivity|].
  simpl in Hd. destruct (strconv.is_sign c) eqn:Hs.
  - simpl. rewrite (digits_no_star _ Hd), andb_true_r.
    unfold strconv.is_sign in Hs. apply orb_true_iff in Hs as [Hs|Hs];
      apply Ascii.eqb_eq in Hs; subst c; reflexivity.
  - apply digits_no_star, Hd.
Qed.

End GlobFacts.

(** ** Running the resolver and the call builder *)

Lemma accepted_signed_decimal r jsonData crn :
  accepted r jsonData crn → strconv.signed_decimal crn = true.
Proof.
  intros [_ _ _ H]. destruct (strconv.Atoi crn) as [v e] eqn:HA. simpl in H. subst e.
  eapply AtoiFacts.Atoi_accepts, HA.
Qed.

Section Running.
Variable env : Env.

Lemma Glob_run tr crn ext :
  no_star crn = true → no_star ext = true →
  filepath.Glob (filepath.Join "certs" (crn ++ String "*" ext)) env tr
  = ((filepath.Join "certs" <$> matching env crn ext, None),
     (tr ++ [EvGlob (filepath.Join "certs" (crn ++ String "*" ext))])%list).
Proof.
  intros Hc He. unfold filepath.Glob, filepath.Join, matching.
  change ("certs" ++ "/" ++ crn ++ String "*" ext)
    with ("certs/" ++ (crn ++ String "*" ext)).
  unfold mbind, mret, IO_bind, IO_ret, emit, ask. cbv beta iota.
  rewrite GlobFacts.strip_prefix_app.
  do 3 f_equal. apply list_filter_iff. intros n.
  rewrite (GlobFacts.Match_crn_ext crn ext n Hc He). reflexivity.
Qed.

Lemma findCertificateFiles_run tr crn :
  strconv.signed_decimal crn = true →
  findCertificateFiles crn env tr = (resolve env crn, (tr ++ glob_events crn)%list).
Proof.
  intros Hs. apply GlobFacts.signed_decimal_no_star in Hs.
  unfold findCertificateFiles, resolve.
  unfold mbind at 1. unfold IO_bind at 1.
  change (crn ++ "*.crt") with (crn ++ String "*" ".crt").
  rewrite (Glob_run tr crn ".crt" Hs eq_refl). cbv beta iota.
  unfold mbind at 1. unfold IO_bind at 1.
  change (crn ++ "*.key") with (crn ++ String "*" ".key").
  rewrite (Glob_run _ crn ".key" Hs eq_refl). cbv beta iota.
  rewrite <- app_assoc. unfold glob_events, mret, IO_ret. cbn [app].
  destruct (matching env crn ".crt") as [|c [|c' cs]];
    destruct (matching env crn ".key") as [|k [|k' ks]]; reflexivity.
Qed.

Lemma checkCertificates_run crn certPath keyPath :
  strconv.signed_decimal crn = true →
  resolve env crn = (certPath, keyPath, None) →
  not_exist env certPath = false → not_exist env keyPath = false →
  checkCertificates crn env []
  = match output_of env (upload_history crn certPath keyPath)
            (upload_argv certPath keyPath crn) with
    | (output, Some err) =>
        (("", "", Some (upload_failure err output)),
         (upload_history crn certPath keyPath
          ++ [EvExec (upload_argv certPath keyPath crn)])%list)
    | (_, None) => ((certPath, keyPath, None), call_history crn certPath keyPath)
    end.
Proof.
  intros Hs Hres Hc Hk. unfold checkCertificates.
  unfold mbind at 1. unfold IO_bind at 1.
  rewrite (findCertificateFiles_run [] crn Hs), Hres. cbv beta iota.
  unfold os.Stat_IsNotExist, exec.Output, log.Println, history, ask, emit,
    mbind, mret, IO_bind, IO_ret. cbv beta iota.
  rewrite Hc, Hk. cbv beta iota.
  unfold call_history, upload_history. cbn [app].
  destruct (output_of env _ _) as [output [err|]]; reflexivity.
Qed.

End Running.

Section Accepted.
Variable env : Env.
Variables (r : Request) (k : string).
Variables (jsonData : option (gmap string any)) (crn : string).
Hypothesis post : Method r = "POST".
Hypothesis routed : route (URL_Path r) = Some k.
Hypothesis valid : accepted r jsonData crn.

(** The call builder on an accepted envelope: its own checks pass, and
    the rest is the resolver followed by the operation's call. *)
Lemma runCurlCommand_accepted tr :
  runCurlCommand k jsonData env tr
  = let '((certPath, keyPath, err), tr1) := checkCertificates crn env tr in
    match err with
    | Some err => (("", Some err), tr1)
    | None =>
        let argv := call_argv k certPath keyPath (json.Marshal_map jsonData).1 in
        match output_of env tr1 argv with
        | (output, Some err) =>
            (("", Some (call_failure k err output)), (tr1 ++ [EvExec argv])%list)
        | (output, None) =>
            ((output, None),
             (tr1 ++ [EvExec argv; EvLog (k ++ " result: " ++ output ++ nl)])%list)
        end
    end.
Proof.
  destruct valid as [_ _ Hcrn HA].
  destruct (route_endpoint _ _ routed) as [_ Hk].
  unfold runCurlCommand. rewrite (endpoint_known k Hk).
  assert (HM : (json.Marshal_map jsonData).2 = None)
    by (destruct jsonData; reflexivity).
  destruct (json.Marshal_map jsonData) as [jsonBytes merr].
  cbn [fst snd] in *. subst merr. rewrite Hcrn.
  destruct (strconv.Atoi crn) as [n e]. simpl in HA. subst e.
  unfold mbind at 1. unfold IO_bind at 1.
  destruct (checkCertificates crn env tr) as [[[certPath keyPath] [err|]] tr1];
    [reflexivity|].
  unfold exec.Output, history, ask, emit, mbind, mret, IO_bind, IO_ret.
  cbv beta iota.
  destruct (output_of env tr1 _) as [output [err|]]; [reflexivity|].
  rewrite <- app_assoc. reflexivity.
Qed.

Lemma handleRequest_accepted w tr :
  handleRequest w r k env tr
  = let '((response, err), tr') := runCurlCommand k jsonData env tr in
    (match err with
     | Some err =>
         http.Error w ("Error processing request: " ++ err)
           http.StatusInternalServerError
     | None => http.Write (http.WriteHeader w http.StatusOK) response
     end, tr').
Proof.
  destruct valid as [HB HU Hcrn HA].
  unfold handleRequest. rewrite (post_method r post).
  rewrite (io_ReadAll_readable _ HB), HU, Hcrn.
  destruct (strconv.Atoi crn) as [n e]. simpl in HA. subst e.
  unfold mbind, IO_bind.
  destruct (runCurlCommand k jsonData env tr) as [[response [err|]] tr']; reflexivity.
Qed.

Lemma serve_accepted :
  exec_io (serve r) env
  = let '((response, err), tr') := runCurlCommand k jsonData env [] in
    (match err with
     | Some err => http.plain_text 500 ("Error processing request: " ++ err)
     | None => {| status := 200; headers := ∅; content := response |}
     end, tr').
Proof.
  unfold exec_io, serve. rewrite routed. unfold mbind, IO_bind.
  rewrite handleRequest_accepted.
  destruct (runCurlCommand k jsonData env []) as [[response [err|]] tr']; reflexivity.
Qed.

(** Once the credentials resolve, the whole request: the upload runs
    first; the operation's call runs only after a successful upload. *)
Lemma serve_resolved certPath keyPath :
  resolve env crn = (certPath, keyPath, None) →
  not_exist env certPath = false → not_exist env keyPath = false →
  let upload := upload_argv certPath keyPath crn in
  let call := call_argv k certPath keyPath (json.Marshal_map jsonData).1 in
  exec_io (serve r) env
  = match output_of env (upload_history crn certPath keyPath) upload with
    | (output, Some err) =>
        (http.plain_text 500
           ("Error processing request: " ++ upload_failure err output),
         (upload_history crn certPath keyPath ++ [EvExec upload])%list)
    | (_, None) =>
        match output_of env (call_history crn certPath keyPath) call with
        | (output, Some err) =>
            (http.plain_text 500
               ("Error processing request: " ++ call_failure k err output),
             (call_history crn certPath keyPath ++ [EvExec call])%list)
        | (output, None) =>
            ({| status := 200; headers := ∅; content := output |},
             (call_history crn certPath keyPath
              ++ [EvExec call; EvLog (k ++ " result: " ++ output ++ nl)])%list)
        end
    end.
Proof.
  intros Hres Hc Hk upload call.
  rewrite serve_accepted, runCurlCommand_accepted.
  rewrite (checkCertificates_run env crn certPath keyPath
             (accepted_signed_decimal _ _ _ valid) Hres Hc Hk).
  fold upload.
  destruct (output_of env (upload_history crn certPath keyPath) upload)
    as [out1 [err1|]]; [reflexivity|].
  fold call. cbv zeta.
  destruct (output_of env (call_history crn certPath keyPath) call)
    as [out2 [err2|]]; reflexivity.
Qed.

End Accepted.

(** ** Validation, resolution and relaying *)

Lemma request_cases r :
  Method r = "POST" →
  (∃ msg, invalid r msg) ∨ (∃ jsonData crn, accepted r jsonData crn).
Proof.
  intros _. destruct (Body r) eqn:HB.
  - left. eexists. apply invalid_unreadable, HB.
  - left. eexists. apply (invalid_json r json.SyntaxError); rewrite HB; [discriminate | reflexivity].
  - assert (HR : Body r ≠ Unreadable) by (rewrite HB; discriminate).
    destruct (json_Unmarshal (Body r)) as [jd [e|]] eqn:HU.
    + left. eexists. apply (invalid_json r e HR). rewrite HU. reflexivity.
    + destruct (map_index jd "crn") as [v|] eqn:Hcrn.
      * destruct v;
          try (left; eexists; eapply (invalid_not_string r jd _ HR HU Hcrn); discriminate).
        destruct (strconv.Atoi s) as [n [e|]] eqn:HA.
        -- left. eexists. eapply (invalid_not_number r jd s e HR HU Hcrn).
           rewrite HA. reflexivity.
        -- right. exists jd, s. split; [assumption | assumption | assumption |].
           rewrite HA. reflexivity.
      * left. eexists. apply (invalid_missing r jd HR HU Hcrn).
Qed.

(** C6. A POST request that fails validation (unreadable body, malformed
    JSON, missing crn, non-string crn, non-numeric crn: the five cases of
    [invalid]) is answered with status 400 and the plain-text message,
    and the trace is empty: no glob, no stat, no process was started. *)
Theorem invalid_request_never_leaves env r k msg :
  Method r = "POST" → route (URL_Path r) = Some k → invalid r msg →
  exec_io (serve r) env = (http.plain_text 400 msg, [])
  ∧ commands (exec_io (serve r) env).2 = []
  ∧ filter (λ e, is_lookup e) (exec_io (serve r) env).2 = [].
Proof.
  intros HM HR Hinv. rewrite (serve_invalid env r k msg HM HR Hinv).
  repeat split.
Qed.

Lemma invalid_request_never_leaves_witness :
  exec_io (serve (Fixture.post "/print" (Fixture.envelope "12ab"))) Fixture.store
  = (http.plain_text 400 "Field 'crn' must contain only numbers", []).
Proof.
  apply (invalid_request_never_leaves Fixture.store
           (Fixture.post "/print" (Fixture.envelope "12ab")) "print").
  - reflexivity.
  - vm_compute. reflexivity.
  - apply (invalid_not_number _
             (json_Unmarshal (Text (Fixture.envelope "12ab"))).1 "12ab"
             strconv.ErrSyntax).
    + discriminate.
    + vm_compute. reflexivity.
    + vm_compute. reflexivity.
    + vm_compute. reflexivity.
Defined.

Lemma Unmarshal_non_object j :
  (∀ members, j ≠ JObject members) → j ≠ JNull → ∃ e, (json.Unmarshal j).2 = Some e.
Proof.
  intros Hobj Hnull. unfold json.Unmarshal.
  destruct (json.maxNestingDepth <? json.depth j); [eexists; reflexivity|].
  destruct j; try (eexists; reflexivity); [congruence|].
  exfalso. eapply Hobj. reflexivity.
Qed.

(** C10. A POST body that is valid JSON but not an object is answered
    with 400: an array, string, number or boolean with "Invalid JSON",
    the literal null with "Field 'crn' is missing". *)
Theorem non_object_body_rejected env r k j :
  Method r = "POST" → route (URL_Path r) = Some k → Body r = Text j →
  (∀ members, j ≠ JObject members) →
  exec_io (serve r) env
  = (http.plain_text 400
       match j with
       | JNull => "Field 'crn' is missing"
       | _ => "Invalid JSON"
       end, []).
Proof.
  intros HM HR HB Hobj.
  assert (Hread : Body r ≠ Unreadable) by (rewrite HB; discriminate).
  apply (serve_invalid env r k _ HM HR).
  assert (Hcase : j = JNull ∨ j ≠ JNull) by (destruct j; (left; reflexivity) || (right; discriminate)).
  destruct Hcase as [->|Hnull].
  - apply (invalid_missing r None Hread); rewrite ?HB; reflexivity.
  - destruct (Unmarshal_non_object j Hobj Hnull) as [e He].
    replace (match j with JNull => "Field 'crn' is missing" | _ => "Invalid JSON" end)
      with "Invalid JSON" by (destruct j; congruence).
    apply (invalid_json r e Hread). rewrite HB. exact He.
Qed.

Lemma non_object_body_rejected_witness :
  exec_io (serve (Fixture.post "/activate" (JArray [JNumber "1"; JNull]))) Fixture.store
  = (http.plain_text 400 "Invalid JSON", [])
  ∧ exec_io (serve (Fixture.post "/activate" JNull)) Fixture.store
    = (http.plain_text 400 "Field 'crn' is missing", []).
Proof.
  split.
  - apply (non_object_body_rejected Fixture.store _ "activate" (JArray [JNumber "1"; JNull]));
      [reflexivity | vm_compute; reflexivity | reflexivity | discriminate].
  - apply (non_object_body_rejected Fixture.store _ "activate" JNull);
      [reflexivity | vm_compute; reflexivity | reflexivity | discriminate].
Defined.

(** The values this program encodes never make [json.Marshal] fail. *)
Lemma Marshal_map_ok jsonData : (json.Marshal_map jsonData).2 = None.
Proof. destruct jsonData; reflexivity. Qed.

Lemma Atoi_digits_overflow crn :
  Bytes.all_digits crn = true → strconv.maxInt64 < Bytes.digits_value 0 crn →
  strconv.Atoi crn = (strconv.maxInt64, Some strconv.ErrRange).
Proof.
  intros Hd Hbig.
  destruct crn as [|c rest]; [simpl in Hbig; unfold strconv.maxInt64 in Hbig; lia|].
  assert (Hsign : strconv.is_sign c = false).
  { simpl in Hd. apply andb_true_iff in Hd as [Hc _].
    destruct (strconv.is_sign c) eqn:E; [|reflexivity].
    apply AtoiFacts.sign_not_digit in E. congruence. }
  assert (Hneg : Ascii.eqb c "-" = false).
  { unfold strconv.is_sign in Hsign. apply orb_false_iff in Hsign as [H _]. exact H. }
  assert (Hs : strconv.signed_decimal (String c rest) = true).
  { unfold strconv.signed_decimal.
    rewrite (AtoiFacts.unsigned_part_plain c rest Hsign), Hd. reflexivity. }
  rewrite (AtoiFacts.Atoi_signed_decimal _ Hs).
  unfold strconv.signed_value, strconv.is_neg.
  rewrite (AtoiFacts.unsigned_part_plain c rest Hsign), Hneg.
  destruct (Z.leb_spec (Bytes.digits_value 0 (String c rest)) strconv.maxInt64); [lia|].
  rewrite andb_false_r. reflexivity.
Qed.

(** C9. A crn made only of decimal digits whose value exceeds the signed
    64-bit range is rejected with status 400 and "Field 'crn' must
    contain only numbers": [Atoi] reports a range error, at the entry
    point and again in the call builder. *)
Theorem oversized_crn_rejected env r k jsonData crn :
  Method r = "POST" → route (URL_Path r) = Some k →
  Body r ≠ Unreadable → json_Unmarshal (Body r) = (jsonData, None) →
  map_index jsonData "crn" = Some (AString crn) →
  Bytes.all_digits crn = true → 2 ^ 63 - 1 < Bytes.digits_value 0 crn →
  (strconv.Atoi crn).2 = Some strconv.ErrRange
  ∧ exec_io (serve r) env
    = (http.plain_text 400 "Field 'crn' must contain only numbers", [])
  ∧ ∀ tr, runCurlCommand k jsonData env tr
          = (("", Some "field 'crn' must contain only numbers"), tr).
Proof.
  intros HM HR HB HU Hcrn Hd Hbig.
  pose proof (Atoi_digits_overflow crn Hd Hbig) as HA.
  split; [rewrite HA; reflexivity|]. split.
  - apply (serve_invalid env r k _ HM HR).
    apply (invalid_not_number r jsonData crn strconv.ErrRange HB HU Hcrn).
    rewrite HA. reflexivity.
  - intros tr. destruct (route_endpoint _ _ HR) as [_ Hk].
    unfold runCurlCommand. rewrite (endpoint_known k Hk).
    pose proof (Marshal_map_ok jsonData) as HMar.
    destruct (json.Marshal_map jsonData) as [jsonBytes merr].
    cbn [snd] in HMar. subst merr.
    rewrite Hcrn, HA. reflexivity.
Qed.

Lemma oversized_crn_rejected_witness :
  (strconv.Atoi "9223372036854775808").2 = Some strconv.ErrRange
  ∧ exec_io (serve (Fixture.post "/print" (Fixture.envelope "9223372036854775808")))
      Fixture.store
    = (http.plain_text 400 "Field 'crn' must contain only numbers", [])
  ∧ ∀ tr, runCurlCommand "print"
            (json_Unmarshal (Text (Fixture.envelope "9223372036854775808"))).1
            Fixture.store tr
          = (("", Some "field 'crn' must contain only numbers"), tr).
Proof.
  apply (oversized_crn_rejected Fixture.store
           (Fixture.post "/print" (Fixture.envelope "9223372036854775808")) "print"
           (json_Unmarshal (Text (Fixture.envelope "9223372036854775808"))).1
           "9223372036854775808").
  - reflexivity.
  - vm_compute. reflexivity.
  - discriminate.
  - vm_compute. reflexivity.
  - vm_compute. reflexivity.
  - reflexivity.
  - vm_compute. reflexivity.
Defined.

(** The call builder's own crn checks, for any map and any known
    operation. *)
Lemma runCurlCommand_checks env k (m : gmap string any) tr :
  In k endpoint_names →
  runCurlCommand k (Some m) env tr
  = match m !! "crn" with
    | None => (("", Some "field 'crn' is missing"), tr)
    | Some (AString crn) =>
        match strconv.Atoi crn with
        | (_, Some _) => (("", Some "field 'crn' must contain only numbers"), tr)
        | (_, None) => runCurlCommand k (Some m) env tr
        end
    | Some _ => (("", Some "field 'crn' must be a string"), tr)
    end.
Proof.
  intros Hk. unfold runCurlCommand at 1. rewrite (endpoint_known k Hk).
  cbn [json.Marshal_map json.Marshal map_index mbind option_bind].
  destruct (m !! "crn") as [[| | | |crn| |]|] eqn:Hcrn; try reflexivity.
  destruct (strconv.Atoi crn) as [n [e|]] eqn:HA; [reflexivity|].
  unfold runCurlCommand. rewrite (endpoint_known k Hk).
  cbn [json.Marshal_map json.Marshal map_index mbind option_bind].
  rewrite Hcrn, HA. reflexivity.
Qed.

(** C8. The crn checks (present, a string, a base-10 integer) are made
    twice with matching outcomes.  For every JSON object [m] and each of
    the nine operations, the call builder itself returns "field 'crn' is
    missing" when the key is absent, "field 'crn' must be a string" when
    its value is not a string, and "field 'crn' must contain only
    numbers" when [Atoi] rejects it, without touching the world; and
    every request carrying [m] is answered by the entry point with the
    400 of the same check. *)
Theorem crn_checked_at_both_layers env k (m : gmap string any) :
  In k endpoint_names →
  (m !! "crn" = None →
     (∀ tr, runCurlCommand k (Some m) env tr = (("", Some "field 'crn' is missing"), tr))
     ∧ ∀ r, carries r k m →
            exec_io (serve r) env = (http.plain_text 400 "Field 'crn' is missing", []))
  ∧ (∀ v, m !! "crn" = Some v → (∀ s, v ≠ AString s) →
     (∀ tr, runCurlCommand k (Some m) env tr
            = (("", Some "field 'crn' must be a string"), tr))
     ∧ ∀ r, carries r k m →
            exec_io (serve r) env
            = (http.plain_text 400 "Field 'crn' must be a string", []))
  ∧ (∀ s e, m !! "crn" = Some (AString s) → (strconv.Atoi s).2 = Some e →
     (∀ tr, runCurlCommand k (Some m) env tr
            = (("", Some "field 'crn' must contain only numbers"), tr))
     ∧ ∀ r, carries r k m →
            exec_io (serve r) env
            = (http.plain_text 400 "Field 'crn' must contain only numbers", [])).
Proof.
  intros Hk. split; [|split].
  - intros Hcrn. split.
    + intros tr. rewrite (runCurlCommand_checks env k m tr Hk), Hcrn. reflexivity.
    + intros r (HM & HR & HB & HU).
      apply (serve_invalid env r k _ HM HR), (invalid_missing r (Some m) HB HU). exact Hcrn.
  - intros v Hcrn Hv. split.
    + intros tr. rewrite (runCurlCommand_checks env k m tr Hk), Hcrn.
      destruct v; try reflexivity. exfalso. eapply Hv. reflexivity.
    + intros r (HM & HR & HB & HU).
      apply (serve_invalid env r k _ HM HR), (invalid_not_string r (Some m) v HB HU Hcrn Hv).
  - intros s e Hcrn HA. split.
    + intros tr. rewrite (runCurlCommand_checks env k m tr Hk), Hcrn.
      destruct (strconv.Atoi s) as [n err]. simpl in HA. subst err. reflexivity.
    + intros r (HM & HR & HB & HU).
      apply (serve_invalid env r k _ HM HR),
        (invalid_not_number r (Some m) s e HB HU Hcrn HA).
Qed.

Lemma crn_checked_at_both_layers_witness :
  let j := JObject [("crn", JNumber "12"); ("seq", JNumber "3")] in
  (∀ tr, runCurlCommand "getGoodList" (json_Unmarshal (Text j)).1 Fixture.store tr
         = (("", Some "field 'crn' must be a string"), tr))
  ∧ exec_io (serve (Fixture.post "/getGoodList" j)) Fixture.store
    = (http.plain_text 400 "Field 'crn' must be a string", []).
Proof.
  intros j.
  pose (m := default ∅ (json_Unmarshal (Text j)).1).
  assert (Hm : json_Unmarshal (Text j) = (Some m, None)) by (vm_compute; reflexivity).
  destruct (crn_checked_at_both_layers Fixture.store "getGoodList" m)
    as (_ & Hstring & _).
  - vm_compute. tauto.
  - rewrite Hm. cbn [fst].
    destruct (Hstring (default ANil (m !! "crn"))) as [Hbuild Hentry].
    + vm_compute. reflexivity.
    + intros s. vm_compute. discriminate.
    + split; [exact Hbuild|]. apply Hentry.
      split; [reflexivity|]. split; [vm_compute; reflexivity|].
      split; [discriminate | exact Hm].
Defined.

(** C7. When the upload and the operation's own call both succeed, the
    reply has status 200 and its body is exactly what the upstream call
    printed, whatever that is. *)
Theorem success_relays_upstream_body env r k jsonData crn certPath keyPath uploaded output :
  Method r = "POST" → route (URL_Path r) = Some k → accepted r jsonData crn →
  resolve env crn = (certPath, keyPath, None) →
  not_exist env certPath = false → not_exist env keyPath = false →
  output_of env (upload_history crn certPath keyPath)
    (upload_argv certPath keyPath crn) = (uploaded, None) →
  output_of env (call_history crn certPath keyPath)
    (call_argv k certPath keyPath (json.Marshal_map jsonData).1) = (output, None) →
  (exec_io (serve r) env).1 = {| status := 200; headers := ∅; content := output |}.
Proof.
  intros HM HR Hacc Hres Hc Hk Hup Hcall.
  pose proof (serve_resolved env r k jsonData crn HM HR Hacc certPath keyPath Hres Hc Hk)
    as Hrun.
  cbv zeta in Hrun. rewrite Hup, Hcall in Hrun. rewrite Hrun. reflexivity.
Qed.

Lemma Fixture_accepted crn :
  (strconv.Atoi crn).2 = None →
  accepted (Fixture.post "/print" (Fixture.envelope crn))
    (json_Unmarshal (Text (Fixture.envelope crn))).1 crn.
Proof.
  intros HA. split; [discriminate | reflexivity | | exact HA].
  unfold Fixture.envelope, json_Unmarshal, json.Unmarshal.
  cbn. unfold map_index. cbn. apply lookup_insert_eq.
Qed.

Lemma success_relays_upstream_body_witness :
  (exec_io (serve (Fixture.post "/print" (Fixture.envelope "1234"))) Fixture.store).1
  = {| status := 200; headers := ∅; content := "ok" |}.
Proof.
  apply (success_relays_upstream_body Fixture.store _ "print"
           (json_Unmarshal (Text (Fixture.envelope "1234"))).1 "1234"
           "certs/1234_shop.crt" "certs/1234_shop.key" "ok" "ok").
  - reflexivity.
  - vm_compute. reflexivity.
  - apply Fixture_accepted. vm_compute. reflexivity.
  - vm_compute. reflexivity.
  - reflexivity.
  - reflexivity.
  - reflexivity.
  - reflexivity.
Defined.

(** C3. For each of the nine operations, once the credentials resolve,
    the first process started is the certificate upload (multipart
    certificate, key and crn to the upstream uploadCertificate endpoint).
    If it fails, it is the only process started and the reply is the
    500 that describes the upload failure and echoes the upstream
    output; only if it succeeds does the operation's own call follow. *)
Theorem upload_precedes_call env r k jsonData crn certPath keyPath :
  Method r = "POST" → route (URL_Path r) = Some k → accepted r jsonData crn →
  resolve env crn = (certPath, keyPath, None) →
  not_exist env certPath = false → not_exist env keyPath = false →
  let upload := upload_argv certPath keyPath crn in
  let call := call_argv k certPath keyPath (json.Marshal_map jsonData).1 in
  upload = [ "curl"; "-X"; "POST";
             "https://ecrm.taxservice.am/taxsystem-rs-vcr/api/v1.0/uploadCertificate";
             "-H"; "Content-Type: multipart/form-data";
             "-F"; "certificate=@" ++ certPath;
             "-F"; "key=@" ++ keyPath;
             "-F"; "crn=" ++ crn ]
  ∧ match output_of env (upload_history crn certPath keyPath) upload with
    | (output, Some err) =>
        commands (exec_io (serve r) env).2 = [upload]
        ∧ (exec_io (serve r) env).1
          = http.plain_text 500
              ("Error processing request: error uploading certificates: " ++ err
               ++ nl ++ "Response:" ++ nl ++ output)
    | (_, None) => commands (exec_io (serve r) env).2 = [upload; call]
    end.
Proof.
  intros HM HR Hacc Hres Hc Hk upload call. split; [reflexivity|].
  pose proof (serve_resolved env r k jsonData crn HM HR Hacc certPath keyPath Hres Hc Hk)
    as Hrun.
  cbv zeta in Hrun. fold upload call in Hrun. rewrite Hrun. clear Hrun.
  destruct (output_of env (upload_history crn certPath keyPath) upload)
    as [out1 [err1|]].
  - split; reflexivity.
  - destruct (output_of env (call_history crn certPath keyPath) call)
      as [out2 [err2|]]; reflexivity.
Qed.

Lemma upload_precedes_call_witness :
  let r := Fixture.post "/uploadCertificate" (Fixture.envelope "1234") in
  let upload := upload_argv "certs/1234_shop.crt" "certs/1234_shop.key" "1234" in
  (commands (exec_io (serve r) Fixture.refusing).2 = [upload]
   ∧ (exec_io (serve r) Fixture.refusing).1
     = http.plain_text 500
         ("Error processing request: error uploading certificates: exit status 22"
          ++ nl ++ "Response:" ++ nl ++ "denied"))
  ∧ commands (exec_io (serve r) Fixture.store).2
    = [upload;
       call_argv "uploadCertificate" "certs/1234_shop.crt" "certs/1234_shop.key"
         (json.Marshal_map (json_Unmarshal (Text (Fixture.envelope "1234"))).1).1].
Proof.
  intros r upload. split.
  - apply (upload_precedes_call Fixture.refusing r "uploadCertificate"
             (json_Unmarshal (Text (Fixture.envelope "1234"))).1 "1234"
             "certs/1234_shop.crt" "certs/1234_shop.key");
      [reflexivity | vm_compute; reflexivity
      | split; [discriminate | reflexivity | vm_compute; reflexivity | vm_compute; reflexivity]
      | vm_compute; reflexivity | reflexivity | reflexivity].
  - apply (upload_precedes_call Fixture.store r "uploadCertificate"
             (json_Unmarshal (Text (Fixture.envelope "1234"))).1 "1234"
             "certs/1234_shop.crt" "certs/1234_shop.key");
      [reflexivity | vm_compute; reflexivity
      | split; [discriminate | reflexivity | vm_compute; reflexivity | vm_compute; reflexivity]
      | vm_compute; reflexivity | reflexivity | reflexivity].
Defined.

(** C2. For a merchant identifier [crn] (a string [Atoi] accepts),
    resolution succeeds and returns one certificate path and one key path
    exactly when the store holds exactly one entry named [crn*.crt] and
    exactly one named [crn*.key]; with any other count, zero included, it
    fails with "certificate or key file not found or multiple files
    found for crn: " followed by [crn]. *)
Theorem resolution_needs_exactly_one env tr crn :
  strconv.signed_decimal crn = true →
  let certs := matching env crn ".crt" in
  let keys := matching env crn ".key" in
  let result := (findCertificateFiles crn env tr).1 in
  (∀ name, name ∈ certs ↔ name ∈ certs_dir env ∧ ∃ mid, name = crn ++ mid ++ ".crt")
  ∧ (∀ name, name ∈ keys ↔ name ∈ certs_dir env ∧ ∃ mid, name = crn ++ mid ++ ".key")
  ∧ (length certs = 1%nat ∧ length keys = 1%nat →
     ∃ c k, certs = [c] ∧ keys = [k] ∧ result = ("certs/" ++ c, "certs/" ++ k, None))
  ∧ (¬ (length certs = 1%nat ∧ length keys = 1%nat) →
     result
     = ("", "",
        Some ("certificate or key file not found or multiple files found for crn: "
              ++ crn))).
Proof.
  intros Hs certs keys result.
  assert (Hmem : ∀ ext name,
             name ∈ matching env crn ext
             ↔ name ∈ certs_dir env ∧ ∃ mid, name = crn ++ mid ++ ext).
  { intros ext name. unfold matching. rewrite list_elem_of_filter.
    rewrite Is_true_true, GlobFacts.is_named_spec. tauto. }
  split; [apply Hmem|]. split; [apply Hmem|].
  subst result. rewrite (findCertificateFiles_run env tr crn Hs). cbn [fst].
  unfold resolve. fold certs keys. split.
  - intros [Hc Hk].
    destruct certs as [|c [|c' cs]]; try discriminate.
    destruct keys as [|k' [|k'' ks]]; try discriminate.
    exists c, k'. repeat split.
  - intros Hnot.
    destruct certs as [|c [|c' cs]]; try reflexivity.
    destruct keys as [|k' [|k'' ks]]; try reflexivity.
    exfalso. apply Hnot. split; reflexivity.
Qed.

Lemma resolution_needs_exactly_one_witness :
  ((findCertificateFiles "1234" Fixture.store []).1
   = ("certs/1234_shop.crt", "certs/1234_shop.key", None))
  ∧ (findCertificateFiles "77" Fixture.store []).1
    = ("", "",
       Some "certificate or key file not found or multiple files found for crn: 77")
  ∧ (findCertificateFiles "9" Fixture.store []).1
    = ("", "",
       Some "certificate or key file not found or multiple files found for crn: 9").
Proof.
  split; [|split].
  - destruct (resolution_needs_exactly_one Fixture.store [] "1234" eq_refl)
      as (_ & _ & Hone & _).
    destruct Hone as (c & k & Hc & Hk & ->); [split; reflexivity|].
    vm_compute in Hc. vm_compute in Hk.
    injection Hc as <-. injection Hk as <-. reflexivity.
  - destruct (resolution_needs_exactly_one Fixture.store [] "77" eq_refl)
      as (_ & _ & _ & Hnot).
    apply Hnot. vm_compute. intros [H _]. discriminate.
  - destruct (resolution_needs_exactly_one Fixture.store [] "9" eq_refl)
      as (_ & _ & _ & Hnot).
    apply Hnot. vm_compute. intros [H _]. discriminate.
Defined.

(** C1 as stated fails: the crn "-5" contains a character that is not a
    digit, yet the request passes validation and is relayed. *)
Lemma crn_with_sign_is_accepted :
  let r := Fixture.post "/print" (Fixture.envelope "-5") in
  Method r = "POST"
  ∧ route (URL_Path r) = Some "print"
  ∧ map_index (json_Unmarshal (Body r)).1 "crn" = Some (AString "-5")
  ∧ Bytes.has_non_digit "-5" = true
  ∧ (exec_io (serve r) Fixture.store).1
    = {| status := 200; headers := ∅; content := "ok" |}
  ∧ ¬ (∀ env r k jsonData crn,
         Method r = "POST" → route (URL_Path r) = Some k →
         Body r ≠ Unreadable → json_Unmarshal (Body r) = (jsonData, None) →
         map_index jsonData "crn" = Some (AString crn) →
         Bytes.has_non_digit crn = true →
         (exec_io (serve r) env).1
         = http.plain_text 400 "Field 'crn' must contain only numbers").
Proof.
  intros r.
  assert (Hrun : (exec_io (serve r) Fixture.store).1
                 = {| status := 200; headers := ∅; content := "ok" |})
    by (vm_compute; reflexivity).
  split; [reflexivity|]. split; [vm_compute; reflexivity|].
  split; [vm_compute; reflexivity|]. split; [reflexivity|]. split; [exact Hrun|].
  intros Hclaim.
  specialize (Hclaim Fixture.store r "print" (json_Unmarshal (Body r)).1 "-5").
  rewrite Hrun in Hclaim.
  assert (H : {| status := 200; headers := ∅; content := "ok" |}
              = http.plain_text 400 "Field 'crn' must contain only numbers").
  { apply Hclaim; try reflexivity; try discriminate; vm_compute; reflexivity. }
  discriminate H.
Qed.

(** C1, amended. A POST request to one of the nine routes whose decoded
    body has a string crn that is not an optional [+] or [-] followed by
    one or more decimal digits is answered with status 400 and "Field
    'crn' must contain only numbers"; a crn string gets past this check
    only if it is such an optionally signed string of digits. *)
Theorem non_decimal_crn_rejected env r k jsonData crn :
  Method r = "POST" → route (URL_Path r) = Some k →
  Body r ≠ Unreadable → json_Unmarshal (Body r) = (jsonData, None) →
  map_index jsonData "crn" = Some (AString crn) →
  (strconv.signed_decimal crn = false →
   exec_io (serve r) env
   = (http.plain_text 400 "Field 'crn' must contain only numbers", []))
  ∧ ((exec_io (serve r) env).1
     ≠ http.plain_text 400 "Field 'crn' must contain only numbers" →
     strconv.signed_decimal crn = true).
Proof.
  intros HM HR HB HU Hcrn.
  assert (Hrej : strconv.signed_decimal crn = false →
                 exec_io (serve r) env
                 = (http.plain_text 400 "Field 'crn' must contain only numbers", [])).
  { intros Hs. destruct (AtoiFacts.Atoi_rejects crn Hs) as (v & e & HA).
    apply (serve_invalid env r k _ HM HR).
    apply (invalid_not_number r jsonData crn e HB HU Hcrn). rewrite HA. reflexivity. }
  split; [exact Hrej|].
  intros Hne. destruct (strconv.signed_decimal crn); [reflexivity|].
  exfalso. apply Hne. rewrite Hrej; reflexivity.
Qed.

Lemma non_decimal_crn_rejected_witness :
  exec_io (serve (Fixture.post "/print" (Fixture.envelope "12ab"))) Fixture.store
  = (http.plain_text 400 "Field 'crn' must contain only numbers", []).
Proof.
  destruct (non_decimal_crn_rejected Fixture.store
              (Fixture.post "/print" (Fixture.envelope "12ab")) "print"
              (json_Unmarshal (Text (Fixture.envelope "12ab"))).1 "12ab")
    as [Hrej _].
  - reflexivity.
  - vm_compute. reflexivity.
  - discriminate.
  - reflexivity.
  - vm_compute. reflexivity.
  - apply Hrej. reflexivity.
Defined.

(** The reply to any method other than POST: status 405 (sent before the
    content type is set, so no header reaches the client) and a JSON
    object with the five fields; the message is a constant. *)
Lemma method_not_allowed_reply env r k :
  Method r ≠ "POST" → route (URL_Path r) = Some k →
  exec_io (serve r) env
  = ({| status := 405; headers := ∅;
        content :=
          json.json_text
            (JObject [ ("error", JString "Method Not Allowed");
                       ("message", JString "Request method 'GET' not supported");
                       ("path", JString (URL_Path r));
                       ("status", JNumber "405");
                       ("timestamp", JString (clock env ++ "+0000")) ]) |}, []).
Proof.
  intros HM HR. unfold exec_io, serve. rewrite HR.
  unfold mbind, IO_bind, handleRequest.
  assert (Hm : negb (Method r =? http.MethodPost)%string = true).
  { apply negb_true_iff. apply String.eqb_neq. exact HM. }
  rewrite Hm. unfold time.Now_Format, ask, mbind, mret, IO_bind, IO_ret.
  cbv beta iota.
  unfold json.Marshal. cbv beta iota.
  replace (json.encode (AMap (errorResponse (clock env ++ "+0000") (URL_Path r))))
    with (JObject [ ("error", JString "Method Not Allowed");
                    ("message", JString "Request method 'GET' not supported");
                    ("path", JString (URL_Path r));
                    ("status", JNumber "405");
                    ("timestamp", JString (clock env ++ "+0000")) ])
    by (vm_compute; reflexivity).
  reflexivity.
Qed.

(** C4 at a PUT request: status 405, the JSON object with timestamp,
    status 405, error label and path, but the message names GET, not
    the method that was rejected. *)
Theorem put_is_reported_as_GET :
  exec_io (serve {| Method := "PUT"; URL_Path := "/print"; Body := Malformed |})
    Fixture.store
  = ({| status := 405; headers := ∅;
        content :=
          json.json_text
            (JObject [ ("error", JString "Method Not Allowed");
                       ("message", JString "Request method 'GET' not supported");
                       ("path", JString "/print");
                       ("status", JNumber "405");
                       ("timestamp", JString "2024-05-01T10:20:30.123+0000") ]) |}, []).
Proof.
  apply (method_not_allowed_reply Fixture.store
           {| Method := "PUT"; URL_Path := "/print"; Body := Malformed |} "print").
  - discriminate.
  - vm_compute. reflexivity.
Qed.

(** ** The envelope sent upstream *)

(** Which numbers survive float64: short decimals and integers up to
    2^53 do; 2^53 + 1 and numbers below the smallest subnormal do not. *)
Lemma survives_samples :
  survives "150" = true ∧ survives "1.50" = true ∧ survives "0.1" = true
  ∧ survives "-0" = true ∧ survives "9007199254740992" = true
  ∧ survives "9007199254740993" = false ∧ survives "1e-400" = false
  ∧ survives "1e400" = false.
Proof. vm_compute. repeat split. Qed.

Lemma jvalue_nested_ind (P : jvalue → Prop) :
  P JNull → (∀ b, P (JBool b)) → (∀ lit, P (JNumber lit)) → (∀ s, P (JString s)) →
  (∀ l, Forall P l → P (JArray l)) →
  (∀ fs, Forall (λ kv, P kv.2) fs → P (JObject fs)) →
  ∀ j, P j.
Proof.
  intros Hnull Hbool Hnum Hstr Harr Hobj.
  fix IH 1. intros [|b|lit|s|l|fs];
    [apply Hnull | apply Hbool | apply Hnum | apply Hstr | |].
  - apply Harr. induction l as [|x l IHl]; constructor; [apply IH | exact IHl].
  - apply Hobj. induction fs as [|[key x] fs IHfs]; constructor; [apply IH | exact IHfs].
Qed.

Lemma store_members_from (kvs : list (string * any)) :
  ∀ m0 : gmap string any,
    foldl (λ m kv, <[kv.1 := kv.2]> m) m0 kvs = list_to_map (reverse kvs) ∪ m0.
Proof.
  induction kvs as [|[key v] kvs IH]; intros m0.
  - simpl. rewrite (left_id_L ∅ (∪)). reflexivity.
  - cbn [foldl]. rewrite IH, reverse_cons, list_to_map_app.
    cbn [list_to_map foldr fst snd].
    rewrite <- (assoc_L (∪)). rewrite insert_empty.
    rewrite <- insert_union_singleton_l. reflexivity.
Qed.

(** Decoding keeps, for each key, the last member written. *)
Lemma store_members_last_wins (kvs : list (string * any)) :
  json.store_members kvs = list_to_map (reverse kvs).
Proof.
  unfold json.store_members. rewrite store_members_from.
  apply (right_id_L ∅ (∪)).
Qed.

Lemma store_members_distinct (kvs : list (string * any)) :
  NoDup kvs.*1 → map_to_list (json.store_members kvs) ≡ₚ kvs.
Proof.
  intros Hnd. rewrite store_members_last_wins.
  rewrite map_to_list_to_map.
  - apply reverse_Permutation.
  - rewrite fmap_reverse, reverse_Permutation. exact Hnd.
Qed.

(** Decoding then encoding keeps the field content of a lossless tree. *)
Lemma encode_decode_same_content :
  ∀ j a, lossless j = true → json.valueInterface j = Some a →
         same_content j (json.encode a).
Proof.
  induction j as [|b|lit|s|l IHl|fs IHfs] using jvalue_nested_ind; intros a Hl Hd.
  - injection Hd as <-. constructor.
  - injection Hd as <-. constructor.
  - cbn [json.valueInterface] in Hd. apply fmap_Some in Hd as (x & Hx & ->).
    cbn [json.encode]. constructor.
    cbn [lossless] in Hl. unfold survives in Hl. rewrite Hx in Hl. exact Hl.
  - injection Hd as <-. constructor.
  - cbn [json.valueInterface] in Hd. apply fmap_Some in Hd as (ys & Hys & ->).
    cbn [json.encode]. constructor.
    apply mapM_Some_1 in Hys. cbn [lossless] in Hl.
    induction Hys as [|x y l ys Hxy Hys IH]; [constructor|].
    cbn [forallb] in Hl. apply andb_true_iff in Hl as [Hx Hrest].
    inversion IHl as [|? ? Px Pl]; subst.
    rewrite fmap_cons. constructor; [apply Px; assumption | apply IH; assumption].
  - cbn [json.valueInterface] in Hd. apply fmap_Some in Hd as (kvs & Hkvs & ->).
    cbn [json.encode]. cbn [lossless] in Hl. apply andb_true_iff in Hl as [Hnd Hl].
    apply bool_decide_eq_true in Hnd.
    apply mapM_Some_1 in Hkvs.
    assert (Hkeys : kvs.*1 = fs.*1).
    { clear -Hkvs. induction Hkvs as [|[key x] kv fs kvs Hkv _ IH]; [reflexivity|].
      cbn [fst snd] in Hkv. apply fmap_Some in Hkv as (y & _ & ->).
      rewrite !fmap_cons, IH. reflexivity. }
    apply (same_object fs _ (prod_map id json.encode <$> kvs)).
    + rewrite merge_sort_Permutation, map_to_list_fmap.
      apply fmap_Permutation. symmetry. apply store_members_distinct.
      rewrite Hkeys. exact Hnd.
    + clear Hnd Hkeys.
      induction Hkvs as [|[key x] kv fs kvs Hkv Hkvs IH]; [constructor|].
      cbn [forallb fst snd] in *. apply andb_true_iff in Hl as [Hx Hrest].
      apply fmap_Some in Hkv as (y & Hy & ->).
      inversion IHfs as [|? ? Px Pfs]; subst.
      rewrite fmap_cons. constructor; [|apply IH; assumption].
      split; [reflexivity|]. cbn [fst snd prod_map] in *. apply Px; assumption.
Qed.

Lemma commands_app tr1 tr2 : commands (tr1 ++ tr2) = (commands tr1 ++ commands tr2)%list.
Proof. apply omap_app. Qed.

Ltac trace_commands :=
  rewrite ?commands_app; unfold glob_events;
  cbn [commands omap app]; rewrite ?app_nil_r.

(** The resolver starts no process but the upload. *)
Lemma checkCertificates_commands env crn tr :
  strconv.signed_decimal crn = true →
  ∃ ups, commands (checkCertificates crn env tr).2 = (commands tr ++ ups)%list
         ∧ Forall (λ argv, ∃ c kp, argv = upload_argv c kp crn) ups.
Proof.
  intros Hs. unfold checkCertificates.
  unfold mbind at 1. unfold IO_bind at 1.
  rewrite (findCertificateFiles_run env tr crn Hs).
  destruct (resolve env crn) as [[c kp] [e|]].
  - exists []. split; [|constructor].
    unfold mret, IO_ret. cbn [snd]. trace_commands. reflexivity.
  - unfold os.Stat_IsNotExist, exec.Output, log.Println, history, ask, emit,
      mbind, mret, IO_bind, IO_ret. cbv beta iota.
    destruct (not_exist env c).
    { exists []. split; [|constructor]. cbn [snd]. trace_commands. reflexivity. }
    destruct (not_exist env kp).
    { exists []. split; [|constructor]. cbn [snd]. trace_commands. reflexivity. }
    exists [upload_argv c kp crn]. split; [|constructor; [eauto | constructor]].
    destruct (output_of env _ _) as [out [err|]]; cbn [snd];
      trace_commands; reflexivity.
Qed.

(** Every process an accepted request starts is the upload or the
    operation's call with the encoded envelope as its data. *)
Lemma serve_commands env r k jsonData crn :
  Method r = "POST" → route (URL_Path r) = Some k → accepted r jsonData crn →
  Forall (λ argv, (∃ c kp, argv = upload_argv c kp crn)
                  ∨ (∃ c kp, argv = call_argv k c kp (json.Marshal_map jsonData).1))
         (commands (exec_io (serve r) env).2).
Proof.
  intros HM HR Hacc.
  rewrite (serve_accepted env r k jsonData crn HM HR Hacc).
  rewrite (runCurlCommand_accepted env r k jsonData crn HR Hacc).
  destruct (checkCertificates_commands env crn []
              (accepted_signed_decimal _ _ _ Hacc)) as (ups & Hups & Hall).
  destruct (checkCertificates crn env []) as [[[c kp] [e|]] tr1]; cbn [snd] in *.
  - rewrite Hups. cbn [commands omap app].
    eapply Forall_impl; [exact Hall|]. intros argv H. left. exact H.
  - assert (Hleft : Forall (λ argv, (∃ c kp, argv = upload_argv c kp crn)
                             ∨ (∃ c0 kp0, argv = call_argv k c0 kp0
                                                  (json.Marshal_map jsonData).1))
                      (commands tr1)).
    { rewrite Hups. cbn [commands omap app].
      eapply Forall_impl; [exact Hall|]. intros argv H. left. exact H. }
    cbv zeta.
    destruct (output_of env tr1 _) as [out [err|]]; cbn [snd];
      rewrite commands_app; apply Forall_app; (split; [exact Hleft|]);
      cbn [commands omap];
      (constructor; [right; eauto | constructor]).
Qed.

Lemma call_is_not_upload k c kp payload c' kp' crn :
  call_argv k c kp payload ≠ upload_argv c' kp' crn.
Proof. unfold call_argv, upload_argv. intros H. injection H. intros. discriminate. Qed.

Lemma Unmarshal_object j m :
  json.Unmarshal j = (Some m, None) → json.valueInterface j = Some (AMap m).
Proof.
  unfold json.Unmarshal. destruct (json.maxNestingDepth <? json.depth j); [discriminate|].
  destruct j; try discriminate.
  destruct (json.valueInterface (JObject members)) as [[| | | | | |m']|];
    try discriminate.
  intros H. injection H as <-. reflexivity.
Qed.

(** The data of the operation's call is the encoding of the object
    decoded from the body: nothing changes it after decoding. *)
Lemma call_data_is_encoded_body env r k j certPath keyPath payload :
  Method r = "POST" → route (URL_Path r) = Some k → Body r = Text j →
  call_argv k certPath keyPath payload ∈ commands (exec_io (serve r) env).2 →
  ∃ m, json.Unmarshal j = (Some m, None)
       ∧ payload = json.json_text (json.encode (AMap m)).
Proof.
  intros HM HR HB Hin.
  destruct (request_cases r HM) as [[msg Hinv]|(jsonData & crn & Hacc)].
  - rewrite (serve_invalid env r k msg HM HR Hinv) in Hin. cbn in Hin.
    apply elem_of_nil in Hin. contradiction.
  - pose proof (serve_commands env r k jsonData crn HM HR Hacc) as Hall.
    rewrite Forall_forall in Hall. specialize (Hall _ Hin).
    destruct Hall as [(c & kp & Habs)|(c & kp & Hcall)];
      [exfalso; exact (call_is_not_upload _ _ _ _ _ _ _ Habs)|].
    destruct Hacc as [_ HU Hcrn _].
    destruct jsonData as [m|]; [|discriminate].
    rewrite HB in HU. cbn [json_Unmarshal] in HU.
    exists m. split; [exact HU|].
    unfold call_argv in Hcall. injection Hcall as _ _ ->. reflexivity.
Qed.

Lemma same_content_member fs fs' key x :
  same_content (JObject fs) (JObject fs') → (key, x) ∈ fs →
  ∃ y, (key, y) ∈ fs' ∧ same_content x y.
Proof.
  intros H Hin. inversion H as [| | | | |? ? gs Hperm Hall]; subst.
  assert (Hgs : ∃ y, (key, y) ∈ gs ∧ same_content x y).
  { clear Hperm H. induction Hall as [|a b fs gs [Hk Hc] _ IH].
    - apply elem_of_nil in Hin. contradiction.
    - apply elem_of_cons in Hin as [<-|Hin].
      + exists b.2. split; [|exact Hc]. cbn [fst] in Hk. rewrite Hk.
        destruct b. left.
      + destruct (IH Hin) as (y & Hy & Hsame). exists y. split; [right; exact Hy | exact Hsame]. }
  destruct Hgs as (y & Hy & Hsame). exists y. split; [|exact Hsame].
  rewrite <- Hperm. exact Hy.
Qed.

(** C5 as stated fails: the inbound number 9007199254740993 is decoded
    as a float64 and goes upstream as 9007199254740992. *)
Lemma rounded_number_is_sent_upstream :
  let j := JObject [("crn", JString "1234"); ("total", JNumber "9007199254740993")] in
  let sent := JObject [("crn", JString "1234"); ("total", JNumber "9007199254740992")] in
  commands (exec_io (serve (Fixture.post "/print" j)) Fixture.store).2
  = [ upload_argv "certs/1234_shop.crt" "certs/1234_shop.key" "1234";
      call_argv "print" "certs/1234_shop.crt" "certs/1234_shop.key"
        (json.json_text sent) ]
  ∧ ¬ same_content j sent
  ∧ ¬ (∀ j m, json.Unmarshal j = (Some m, None) →
              same_content j (json.encode (AMap m))).
Proof.
  intros j sent.
  assert (Hne : ¬ same_content j sent).
  { intros H.
    destruct (same_content_member _ _ "total" (JNumber "9007199254740993") H)
      as (y & Hy & Hsame).
    - right. left.
    - apply elem_of_cons in Hy as [Hy|Hy]; [discriminate|].
      apply elem_of_cons in Hy as [Hy|Hy]; [|apply elem_of_nil in Hy; contradiction].
      injection Hy as ->. inversion Hsame as [| |a b Hnum| | |]; subst.
      vm_compute in Hnum. discriminate. }
  split; [vm_compute; reflexivity|]. split; [exact Hne|].
  intros Hclaim. apply Hne.
  pose (m := default ∅ (json.Unmarshal j).1).
  assert (HU : json.Unmarshal j = (Some m, None)) by (vm_compute; reflexivity).
  specialize (Hclaim j m HU).
  replace (json.encode (AMap m)) with sent in Hclaim by (vm_compute; reflexivity).
  exact Hclaim.
Qed.

(** ** Every outcome of a request *)

Lemma checkCertificates_from_start env crn :
  strconv.signed_decimal crn = true →
  checkCertificates crn env []
  = match resolve env crn with
    | (_, _, Some err) => (("", "", Some err), glob_events crn)
    | (certPath, keyPath, None) =>
        if not_exist env certPath then
          (("", "", Some ("certificate file not found: " ++ certPath)),
           (glob_events crn ++ [EvStat certPath])%list)
        else if not_exist env keyPath then
          (("", "", Some ("key file not found: " ++ keyPath)),
           (glob_events crn ++ [EvStat certPath; EvStat keyPath])%list)
        else
          match output_of env (upload_history crn certPath keyPath)
                  (upload_argv certPath keyPath crn) with
          | (output, Some err) =>
              (("", "", Some (upload_failure err output)),
               (upload_history crn certPath keyPath
                ++ [EvExec (upload_argv certPath keyPath crn)])%list)
          | (_, None) => ((certPath, keyPath, None), call_history crn certPath keyPath)
          end
    end.
Proof.
  intros Hs.
  destruct (resolve env crn) as [[certPath keyPath] [err|]] eqn:Hres.
  - unfold checkCertificates. unfold mbind at 1. unfold IO_bind at 1.
    rewrite (findCertificateFiles_run env [] crn Hs), Hres. reflexivity.
  - destruct (not_exist env certPath) eqn:Hc; [|destruct (not_exist env keyPath) eqn:Hk].
    + unfold checkCertificates. unfold mbind at 1. unfold IO_bind at 1.
      rewrite (findCertificateFiles_run env [] crn Hs), Hres. cbv beta iota.
      unfold os.Stat_IsNotExist, emit, ask, mbind, mret, IO_bind, IO_ret.
      cbv beta iota. rewrite Hc. reflexivity.
    + unfold checkCertificates. unfold mbind at 1. unfold IO_bind at 1.
      rewrite (findCertificateFiles_run env [] crn Hs), Hres. cbv beta iota.
      unfold os.Stat_IsNotExist, emit, ask, mbind, mret, IO_bind, IO_ret.
      cbv beta iota. rewrite Hc, Hk. cbv beta iota.
      rewrite <- app_assoc. reflexivity.
    + apply (checkCertificates_run env crn certPath keyPath Hs Hres Hc Hk).
Qed.

(** An accepted request ends in exactly one of the cases of
    [relay_outcome]. *)
Lemma serve_relay_outcome env r k jsonData crn :
  Method r = "POST" → route (URL_Path r) = Some k → accepted r jsonData crn →
  exec_io (serve r) env = relay_outcome env k jsonData crn.
Proof.
  intros HM HR Hacc.
  rewrite (serve_accepted env r k jsonData crn HM HR Hacc).
  rewrite (runCurlCommand_accepted env r k jsonData crn HR Hacc).
  rewrite (checkCertificates_from_start env crn (accepted_signed_decimal _ _ _ Hacc)).
  unfold relay_outcome, failed.
  destruct (resolve env crn) as [[certPath keyPath] [err|]]; [reflexivity|].
  destruct (not_exist env certPath); [reflexivity|].
  destruct (not_exist env keyPath); [reflexivity|].
  cbv zeta.
  destruct (output_of env (upload_history crn certPath keyPath) _) as [out1 [err1|]];
    [reflexivity|].
  destruct (output_of env (call_history crn certPath keyPath) _) as [out2 [err2|]];
    reflexivity.
Qed.

Lemma Fixture_accepted_on path k crn :
  route path = Some k → (strconv.Atoi crn).2 = None →
  accepted (Fixture.post path (Fixture.envelope crn))
    (json_Unmarshal (Text (Fixture.envelope crn))).1 crn.
Proof.
  intros _ HA. split; [discriminate | reflexivity | | exact HA].
  unfold Fixture.envelope, json_Unmarshal, json.Unmarshal.
  cbn. unfold map_index. cbn. apply lookup_insert_eq.
Qed.

Lemma resolve_failure env crn :
  ¬ (length (matching env crn ".crt") = 1%nat ∧ length (matching env crn ".key") = 1%nat) →
  resolve env crn = ("", "", Some (not_found crn)).
Proof.
  intros Hnot. unfold resolve.
  destruct (matching env crn ".crt") as [|c [|c' cs]]; try reflexivity.
  destruct (matching env crn ".key") as [|k [|k' ks]]; try reflexivity.
  exfalso. apply Hnot. split; reflexivity.
Qed.

(** X1. When an accepted request finds no or several certificates or
    keys, the reply is the 500 naming the crn, and all that happened is
    the two globs: no existence check, no process. *)
Theorem unresolved_credentials_reply env r k jsonData crn :
  Method r = "POST" → route (URL_Path r) = Some k → accepted r jsonData crn →
  ¬ (length (matching env crn ".crt") = 1%nat ∧ length (matching env crn ".key") = 1%nat) →
  exec_io (serve r) env
  = (http.plain_text 500
       ("Error processing request: certificate or key file not found or multiple files found for crn: "
        ++ crn),
     [ EvGlob ("certs/" ++ crn ++ "*.crt"); EvGlob ("certs/" ++ crn ++ "*.key") ]).
Proof.
  intros HM HR Hacc Hnot.
  rewrite (serve_relay_outcome env r k jsonData crn HM HR Hacc).
  unfold relay_outcome. rewrite (resolve_failure env crn Hnot). reflexivity.
Qed.

Lemma unresolved_credentials_reply_witness :
  exec_io (serve (Fixture.post "/activate" (Fixture.envelope "77"))) Fixture.store
  = (http.plain_text 500
       "Error processing request: certificate or key file not found or multiple files found for crn: 77",
     [ EvGlob "certs/77*.crt"; EvGlob "certs/77*.key" ]).
Proof.
  apply (unresolved_credentials_reply Fixture.store _ "activate"
           (json_Unmarshal (Text (Fixture.envelope "77"))).1 "77").
  - reflexivity.
  - vm_compute. reflexivity.
  - apply (Fixture_accepted_on "/activate" "activate"); vm_compute; reflexivity.
  - vm_compute. intros [H _]. discriminate.
Defined.

(** X2. When the files resolve but the certificate does not exist at the
    check, the reply is the 500 "certificate file not found" with its
    path and the key is not checked; when only the key is missing, the
    reply names the key.  In both cases no process is started. *)
Theorem vanished_file_reply env r k jsonData crn certPath keyPath :
  Method r = "POST" → route (URL_Path r) = Some k → accepted r jsonData crn →
  resolve env crn = (certPath, keyPath, None) →
  (not_exist env certPath = true →
   exec_io (serve r) env
   = (http.plain_text 500
        ("Error processing request: certificate file not found: " ++ certPath),
      (glob_events crn ++ [EvStat certPath])%list))
  ∧ (not_exist env certPath = false → not_exist env keyPath = true →
     exec_io (serve r) env
     = (http.plain_text 500
          ("Error processing request: key file not found: " ++ keyPath),
        (glob_events crn ++ [EvStat certPath; EvStat keyPath])%list)).
Proof.
  intros HM HR Hacc Hres.
  rewrite (serve_relay_outcome env r k jsonData crn HM HR Hacc).
  unfold relay_outcome. rewrite Hres. split.
  - intros ->. reflexivity.
  - intros -> ->. reflexivity.
Qed.

Lemma vanished_file_reply_witness :
  let r := Fixture.post "/print" (Fixture.envelope "1234") in
  exec_io (serve r) Samples.vanished
  = (http.plain_text 500
       "Error processing request: certificate file not found: certs/1234_shop.crt",
     [ EvGlob "certs/1234*.crt"; EvGlob "certs/1234*.key";
       EvStat "certs/1234_shop.crt" ])
  ∧ exec_io (serve r) Samples.keyless
    = (http.plain_text 500
         "Error processing request: key file not found: certs/1234_shop.key",
       [ EvGlob "certs/1234*.crt"; EvGlob "certs/1234*.key";
         EvStat "certs/1234_shop.crt"; EvStat "certs/1234_shop.key" ]).
Proof.
  intros r. split.
  - destruct (vanished_file_reply Samples.vanished r "print"
                (json_Unmarshal (Text (Fixture.envelope "1234"))).1 "1234"
                "certs/1234_shop.crt" "certs/1234_shop.key") as [Hcert _].
    + reflexivity.
    + vm_compute. reflexivity.
    + apply (Fixture_accepted_on "/print" "print"); vm_compute; reflexivity.
    + vm_compute. reflexivity.
    + apply Hcert. reflexivity.
  - destruct (vanished_file_reply Samples.keyless r "print"
                (json_Unmarshal (Text (Fixture.envelope "1234"))).1 "1234"
                "certs/1234_shop.crt" "certs/1234_shop.key") as [_ Hkey].
    + reflexivity.
    + vm_compute. reflexivity.
    + apply (Fixture_accepted_on "/print" "print"); vm_compute; reflexivity.
    + vm_compute. reflexivity.
    + apply Hkey; reflexivity.
Defined.

(** X3. When the upload succeeds and the operation's call fails, the
    reply is the 500 "error in" the operation, with the error and the
    output of the call; both processes were started, upload first, and
    the result line is not logged. *)
Theorem failed_call_reply env r k jsonData crn certPath keyPath uploaded output err :
  Method r = "POST" → route (URL_Path r) = Some k → accepted r jsonData crn →
  resolve env crn = (certPath, keyPath, None) →
  not_exist env certPath = false → not_exist env keyPath = false →
  let upload := upload_argv certPath keyPath crn in
  let call := call_argv k certPath keyPath (json.Marshal_map jsonData).1 in
  output_of env (upload_history crn certPath keyPath) upload = (uploaded, None) →
  output_of env (call_history crn certPath keyPath) call = (output, Some err) →
  exec_io (serve r) env
  = (http.plain_text 500
       ("Error processing request: error in " ++ k ++ ": " ++ err ++ nl
        ++ "Response:" ++ nl ++ output),
     (call_history crn certPath keyPath ++ [EvExec call])%list)
  ∧ commands (exec_io (serve r) env).2 = [upload; call].
Proof.
  intros HM HR Hacc Hres Hc Hk upload call Hup Hcall.
  rewrite (serve_relay_outcome env r k jsonData crn HM HR Hacc).
  unfold relay_outcome. rewrite Hres, Hc, Hk. cbv zeta.
  fold upload call. rewrite Hup, Hcall. split; reflexivity.
Qed.

Lemma failed_call_reply_witness :
  let r := Fixture.post "/printCopy" (Fixture.envelope "1234") in
  (exec_io (serve r) Samples.failing_call).1
  = http.plain_text 500
      ("Error processing request: error in printCopy: exit status 7" ++ nl
       ++ "Response:" ++ nl ++ "busy").
Proof.
  intros r.
  destruct (failed_call_reply Samples.failing_call r "printCopy"
              (json_Unmarshal (Text (Fixture.envelope "1234"))).1 "1234"
              "certs/1234_shop.crt" "certs/1234_shop.key" "ok" "busy" "exit status 7")
    as [Hrun _].
  - reflexivity.
  - vm_compute. reflexivity.
  - apply (Fixture_accepted_on "/printCopy" "printCopy"); vm_compute; reflexivity.
  - vm_compute. reflexivity.
  - reflexivity.
  - reflexivity.
  - reflexivity.
  - reflexivity.
  - rewrite Hrun. reflexivity.
Defined.

Lemma relay_outcome_status env k jsonData crn :
  status (relay_outcome env k jsonData crn).1 = 200
  ∨ status (relay_outcome env k jsonData crn).1 = 500.
Proof.
  unfold relay_outcome.
  destruct (resolve env crn) as [[certPath keyPath] [err|]]; [right; reflexivity|].
  destruct (not_exist env certPath); [right; reflexivity|].
  destruct (not_exist env keyPath); [right; reflexivity|].
  cbv zeta.
  destruct (output_of env (upload_history crn certPath keyPath) _) as [out1 [err1|]];
    [right; reflexivity|].
  destruct (output_of env (call_history crn certPath keyPath) _) as [out2 [err2|]];
    [right; reflexivity | left; reflexivity].
Qed.

(** X4. A 200 reply is never made up locally: if a POST on a route is
    answered with status 200, the request was accepted, its credentials
    resolved and exist, exactly the upload and the operation's call were
    started, in this order, the call returned no error, and the reply
    body is the output of that call. *)
Theorem ok_reply_means_relayed env r k :
  Method r = "POST" → route (URL_Path r) = Some k →
  status (exec_io (serve r) env).1 = 200 →
  ∃ jsonData crn certPath keyPath,
    accepted r jsonData crn
    ∧ resolve env crn = (certPath, keyPath, None)
    ∧ not_exist env certPath = false ∧ not_exist env keyPath = false
    ∧ commands (exec_io (serve r) env).2
      = [ upload_argv certPath keyPath crn;
          call_argv k certPath keyPath (json.Marshal_map jsonData).1 ]
    ∧ output_of env (call_history crn certPath keyPath)
        (call_argv k certPath keyPath (json.Marshal_map jsonData).1)
      = (content (exec_io (serve r) env).1, None).
Proof.
  intros HM HR Hok.
  destruct (request_cases r HM) as [[msg Hinv]|(jsonData & crn & Hacc)].
  - rewrite (serve_invalid env r k msg HM HR Hinv) in Hok. discriminate.
  - exists jsonData, crn.
    rewrite (serve_relay_outcome env r k jsonData crn HM HR Hacc) in *.
    unfold relay_outcome in *.
    destruct (resolve env crn) as [[certPath keyPath] [err|]]; [discriminate|].
    exists certPath, keyPath.
    destruct (not_exist env certPath); [discriminate|].
    destruct (not_exist env keyPath); [discriminate|].
    cbv zeta in *.
    destruct (output_of env (upload_history crn certPath keyPath) _) as [out1 [err1|]];
      [discriminate|].
    destruct (output_of env (call_history crn certPath keyPath) _) as [out2 [err2|]];
      [discriminate|].
    split; [exact Hacc|]. repeat split.
Qed.

Lemma ok_reply_means_relayed_witness :
  let r := Fixture.post "/print" (Fixture.envelope "1234") in
  ∃ jsonData crn certPath keyPath,
    accepted r jsonData crn
    ∧ resolve Fixture.store crn = (certPath, keyPath, None)
    ∧ not_exist Fixture.store certPath = false
    ∧ not_exist Fixture.store keyPath = false
    ∧ commands (exec_io (serve r) Fixture.store).2
      = [ upload_argv certPath keyPath crn;
          call_argv "print" certPath keyPath (json.Marshal_map jsonData).1 ]
    ∧ output_of Fixture.store (call_history crn certPath keyPath)
        (call_argv "print" certPath keyPath (json.Marshal_map jsonData).1)
      = (content (exec_io (serve r) Fixture.store).1, None).
Proof.
  intros r.
  apply (ok_reply_means_relayed Fixture.store r "print");
    [reflexivity | vm_compute; reflexivity | vm_compute; reflexivity].
Defined.

(** X5. On a route, a POST request is answered with 200, 400 or 500; the
    status is 400 exactly when the request fails validation, and then
    nothing was done in the world. *)
Theorem bad_request_iff_invalid env r k :
  Method r = "POST" → route (URL_Path r) = Some k →
  (status (exec_io (serve r) env).1 = 400 ↔ ∃ msg, invalid r msg)
  ∧ (status (exec_io (serve r) env).1 = 400 → (exec_io (serve r) env).2 = [])
  ∧ (status (exec_io (serve r) env).1 = 200
     ∨ status (exec_io (serve r) env).1 = 400
     ∨ status (exec_io (serve r) env).1 = 500).
Proof.
  intros HM HR.
  destruct (request_cases r HM) as [[msg Hinv]|(jsonData & crn & Hacc)].
  - rewrite (serve_invalid env r k msg HM HR Hinv). cbn [fst snd status http.plain_text].
    split; [split; eauto|]. split; [reflexivity | right; left; reflexivity].
  - rewrite (serve_relay_outcome env r k jsonData crn HM HR Hacc).
    destruct (relay_outcome_status env k jsonData crn) as [Hs|Hs]; rewrite Hs.
    + split; [split; [discriminate|] | split; [discriminate | left; reflexivity]].
      intros [msg Hinv]. exfalso.
      pose proof (serve_invalid env r k msg HM HR Hinv) as Hrun.
      rewrite (serve_relay_outcome env r k jsonData crn HM HR Hacc) in Hrun.
      rewrite Hrun in Hs. discriminate.
    + split; [split; [discriminate|] | split; [discriminate | right; right; reflexivity]].
      intros [msg Hinv]. exfalso.
      pose proof (serve_invalid env r k msg HM HR Hinv) as Hrun.
      rewrite (serve_relay_outcome env r k jsonData crn HM HR Hacc) in Hrun.
      rewrite Hrun in Hs. discriminate.
Qed.

Lemma bad_request_iff_invalid_witness :
  ∃ msg, invalid (Fixture.post "/print" (Fixture.envelope "12ab")) msg.
Proof.
  destruct (bad_request_iff_invalid Fixture.store
              (Fixture.post "/print" (Fixture.envelope "12ab")) "print")
    as ([Hto _] & _ & _).
  - reflexivity.
  - vm_compute. reflexivity.
  - apply Hto. vm_compute. reflexivity.
Defined.

Lemma Atoi_ok_iff s :
  (strconv.Atoi s).2 = None
  ↔ strconv.signed_decimal s = true
    ∧ strconv.minInt64 <= strconv.signed_value s <= strconv.maxInt64.
Proof.
  split.
  - intros H. destruct (strconv.Atoi s) as [v e] eqn:HA. cbn [snd] in H. subst e.
    pose proof (AtoiFacts.Atoi_accepts s v HA) as Hs. split; [exact Hs|].
    rewrite (AtoiFacts.Atoi_signed_decimal s Hs) in HA.
    destruct (Z.leb_spec strconv.minInt64 (strconv.signed_value s));
      destruct (Z.leb_spec (strconv.signed_value s) strconv.maxInt64);
      cbn [andb] in HA; try discriminate. lia.
  - intros [Hs [Hlo Hhi]]. rewrite (AtoiFacts.Atoi_signed_decimal s Hs).
    apply Z.leb_le in Hlo, Hhi. rewrite Hlo, Hhi. reflexivity.
Qed.

(** X6. The crn check passes exactly on an optional sign followed by
    digits whose value fits a signed 64-bit integer: for a POST on a
    route whose decoded body has the string [crn], the reply is a 400
    unless [crn] is such a string, and is never a 400 when it is. *)
Theorem crn_accepted_exactly env r k jsonData crn :
  Method r = "POST" → route (URL_Path r) = Some k →
  Body r ≠ Unreadable → json_Unmarshal (Body r) = (jsonData, None) →
  map_index jsonData "crn" = Some (AString crn) →
  status (exec_io (serve r) env).1 ≠ 400
  ↔ strconv.signed_decimal crn = true
    ∧ - 2 ^ 63 <= strconv.signed_value crn <= 2 ^ 63 - 1.
Proof.
  intros HM HR HB HU Hcrn.
  change (- 2 ^ 63) with strconv.minInt64. change (2 ^ 63 - 1) with strconv.maxInt64.
  rewrite <- Atoi_ok_iff.
  destruct (strconv.Atoi crn) as [v [e|]] eqn:HA; cbn [snd].
  - assert (Hinv : invalid r "Field 'crn' must contain only numbers").
    { apply (invalid_not_number r jsonData crn e HB HU Hcrn). rewrite HA. reflexivity. }
    rewrite (serve_invalid env r k _ HM HR Hinv). cbn [fst status http.plain_text].
    split; [intros H; exfalso; apply H; reflexivity | discriminate].
  - assert (Hacc : accepted r jsonData crn).
    { split; try assumption. rewrite HA. reflexivity. }
    rewrite (serve_relay_outcome env r k jsonData crn HM HR Hacc).
    split; [reflexivity|]. intros _.
    destruct (relay_outcome_status env k jsonData crn) as [Hs|Hs]; rewrite Hs; discriminate.
Qed.

Lemma crn_accepted_exactly_witness :
  status (exec_io (serve (Fixture.post "/print" (Fixture.envelope "+0012"))) Fixture.store).1
  ≠ 400.
Proof.
  apply (crn_accepted_exactly Fixture.store
           (Fixture.post "/print" (Fixture.envelope "+0012")) "print"
           (json_Unmarshal (Text (Fixture.envelope "+0012"))).1 "+0012").
  - reflexivity.
  - vm_compute. reflexivity.
  - discriminate.
  - reflexivity.
  - vm_compute. reflexivity.
  - split; [reflexivity|]. vm_compute. split; discriminate.
Defined.

Lemma relay_outcome_commands env k jsonData crn :
  let cmds := commands (relay_outcome env k jsonData crn).2 in
  cmds = []
  ∨ (∃ c kp, cmds = [upload_argv c kp crn])
  ∨ (∃ c kp, cmds = [upload_argv c kp crn;
                     call_argv k c kp (json.Marshal_map jsonData).1]).
Proof.
  unfold relay_outcome.
  destruct (resolve env crn) as [[certPath keyPath] [err|]]; [left; reflexivity|].
  destruct (not_exist env certPath); [left; reflexivity|].
  destruct (not_exist env keyPath); [left; reflexivity|].
  cbv zeta.
  destruct (output_of env (upload_history crn certPath keyPath) _) as [out1 [err1|]].
  { right. left. exists certPath, keyPath. reflexivity. }
  destruct (output_of env (call_history crn certPath keyPath) _) as [out2 [err2|]];
    right; right; exists certPath, keyPath; reflexivity.
Qed.

(** X7. Whatever the request (any method, any path, any body), the relay
    starts no process, or only the upload, or the upload followed by one
    call; the call is a curl POST of JSON to the base URL followed by the
    request path, with the certificate and key the upload sent. *)
Theorem processes_started env r :
  let cmds := commands (exec_io (serve r) env).2 in
  cmds = []
  ∨ (∃ c kp crn, cmds = [upload_argv c kp crn])
  ∨ (∃ c kp crn payload,
       cmds = [ upload_argv c kp crn;
                [ "curl"; "-X"; "POST";
                  "https://ecrm.taxservice.am/taxsystem-rs-vcr/api/v1.0" ++ URL_Path r;
                  "-H"; "Content-Type: application/json";
                  "--cert"; c; "--key"; kp; "-d"; payload ] ]).
Proof.
  intros cmds. subst cmds.
  destruct (route (URL_Path r)) as [k|] eqn:HR.
  - destruct (String.eqb_spec (Method r) "POST") as [HM|HM].
    + destruct (request_cases r HM) as [[msg Hinv]|(jsonData & crn & Hacc)].
      * rewrite (serve_invalid env r k msg HM HR Hinv). left. reflexivity.
      * rewrite (serve_relay_outcome env r k jsonData crn HM HR Hacc).
        destruct (relay_outcome_commands env k jsonData crn)
          as [H|[(c & kp & H)|(c & kp & H)]]; cbv zeta in H; rewrite H.
        -- left. reflexivity.
        -- right. left. eauto.
        -- right. right. exists c, kp, crn, (json.Marshal_map jsonData).1.
           destruct (route_endpoint _ _ HR) as [-> _]. reflexivity.
    + rewrite (method_not_allowed_reply env r k HM HR). left. reflexivity.
  - unfold exec_io, serve. rewrite HR. left. reflexivity.
Qed.

(** X8. An operation name outside the nine is refused by the call
    builder with "unknown endpoint" and its name, before the envelope is
    looked at (even a nil map) and without touching the world; and no
    route leads there, since every routed operation is a known endpoint
    mapped to its own name. *)
Theorem unknown_endpoint_refused k :
  k ∉ endpoint_names →
  (∀ jsonData env tr,
     runCurlCommand k jsonData env tr = (("", Some ("unknown endpoint " ++ k)), tr))
  ∧ (∀ path k', route path = Some k' → endpoints !! k' = Some k' ∧ k' ≠ k).
Proof.
  intros Hk. split.
  - intros jsonData env tr. unfold runCurlCommand.
    assert (Hnone : endpoints !! k = None).
    { unfold endpoints. apply not_elem_of_list_to_map_1.
      rewrite <- list_fmap_compose. intros Hin.
      apply list_elem_of_fmap in Hin as (k0 & -> & Hin). exact (Hk Hin). }
    rewrite Hnone. reflexivity.
  - intros path k' HR. destruct (route_endpoint _ _ HR) as [_ Hin].
    split; [apply endpoint_known, Hin|].
    intros ->. apply Hk. apply list_elem_of_In. exact Hin.
Qed.

Lemma unknown_endpoint_refused_witness :
  runCurlCommand "refund" None Fixture.store []
  = (("", Some "unknown endpoint refund"), []).
Proof.
  destruct (unknown_endpoint_refused "refund") as [Hrefuse _].
  - intros Hin. repeat (apply elem_of_cons in Hin as [Hin|Hin]; [discriminate|]).
    apply elem_of_nil in Hin. exact Hin.
  - apply Hrefuse.
Defined.

Lemma handleRequest_other_method env tr w r k :
  Method r ≠ "POST" →
  handleRequest w r k env tr
  = (http.Write
       (http.Header_Set (http.WriteHeader w 405) "Content-Type" "application/json")
       (json.json_text
          (JObject [ ("error", JString "Method Not Allowed");
                     ("message", JString "Request method 'GET' not supported");
                     ("path", JString (URL_Path r));
                     ("status", JNumber "405");
                     ("timestamp", JString (clock env ++ "+0000")) ])), tr).
Proof.
  intros HM. unfold handleRequest.
  assert (Hm : negb (Method r =? http.MethodPost)%string = true).
  { apply negb_true_iff. apply String.eqb_neq. exact HM. }
  rewrite Hm. unfold time.Now_Format, ask, mbind, mret, IO_bind, IO_ret.
  cbv beta iota. unfold json.Marshal. cbv beta iota.
  replace (json.encode (AMap (errorResponse (clock env ++ "+0000") (URL_Path r))))
    with (JObject [ ("error", JString "Method Not Allowed");
                    ("message", JString "Request method 'GET' not supported");
                    ("path", JString (URL_Path r));
                    ("status", JNumber "405");
                    ("timestamp", JString (clock env ++ "+0000")) ])
    by (vm_compute; reflexivity).
  reflexivity.
Qed.

(** X9. A request with any method other than POST is answered 405
    without reading the body and without touching the world: the reply
    is the same whatever the body is.  The handler sets the JSON content
    type only after the status line is written, so the header is in the
    writer's map but not in the reply. *)
Theorem other_methods_get_405 env r k :
  Method r ≠ "POST" → route (URL_Path r) = Some k →
  let w := (handleRequest http.new_writer r k env []).1 in
  status (exec_io (serve r) env).1 = 405
  ∧ (exec_io (serve r) env).2 = []
  ∧ (∀ b, exec_io (serve {| Method := Method r; URL_Path := URL_Path r; Body := b |}) env
          = exec_io (serve r) env)
  ∧ http.header w !! "Content-Type" = Some "application/json"
  ∧ headers (exec_io (serve r) env).1 !! "Content-Type" = None.
Proof.
  intros HM HR w. subst w.
  rewrite (method_not_allowed_reply env r k HM HR).
  rewrite (handleRequest_other_method env [] http.new_writer r k HM).
  split; [reflexivity|]. split; [reflexivity|]. split; [|split; reflexivity].
  intros b.
  rewrite (method_not_allowed_reply env
             {| Method := Method r; URL_Path := URL_Path r; Body := b |} k HM HR).
  reflexivity.
Qed.

Lemma other_methods_get_405_witness :
  let r := {| Method := "DELETE"; URL_Path := "/activate"; Body := Unreadable |} in
  status (exec_io (serve r) Fixture.store).1 = 405
  ∧ (exec_io (serve r) Fixture.store).2 = [].
Proof.
  intros r.
  destruct (other_methods_get_405 Fixture.store r "activate") as (Hs & Ht & _).
  - discriminate.
  - vm_compute. reflexivity.
  - split; [exact Hs | exact Ht].
Defined.

(** X10. Every accepted request starts by globbing [certs/crn*.crt] and
    then [certs/crn*.key], with the crn text exactly as sent (sign and
    leading zeros included); the second glob runs even when the first
    found nothing, and no other glob is ever made. *)
Theorem accepted_request_globs_first env r k jsonData crn :
  Method r = "POST" → route (URL_Path r) = Some k → accepted r jsonData crn →
  ∃ rest,
    (exec_io (serve r) env).2
    = (EvGlob ("certs/" ++ crn ++ "*.crt") :: EvGlob ("certs/" ++ crn ++ "*.key") :: rest)%list
    ∧ Forall (λ e, ∀ pattern, e ≠ EvGlob pattern) rest.
Proof.
  intros HM HR Hacc.
  rewrite (serve_relay_outcome env r k jsonData crn HM HR Hacc).
  unfold relay_outcome, call_history, upload_history, glob_events.
  destruct (resolve env crn) as [[certPath keyPath] [err|]].
  { exists []. split; [reflexivity | constructor]. }
  destruct (not_exist env certPath).
  { eexists. split; [reflexivity|]. repeat constructor; discriminate. }
  destruct (not_exist env keyPath).
  { eexists. split; [reflexivity|]. repeat constructor; discriminate. }
  cbv zeta.
  destruct (output_of env _ _) as [out1 [err1|]].
  { eexists. split; [reflexivity|]. repeat constructor; discriminate. }
  destruct (output_of env _ _) as [out2 [err2|]];
    (eexists; split; [reflexivity|]; repeat constructor; discriminate).
Qed.

Lemma accepted_request_globs_first_witness :
  ∃ rest,
    (exec_io (serve (Fixture.post "/print" (Fixture.envelope "+0012"))) Fixture.store).2
    = (EvGlob "certs/+0012*.crt" :: EvGlob "certs/+0012*.key" :: rest)%list
    ∧ Forall (λ e, ∀ pattern, e ≠ EvGlob pattern) rest.
Proof.
  apply (accepted_request_globs_first Fixture.store
           (Fixture.post "/print" (Fixture.envelope "+0012")) "print"
           (json_Unmarshal (Text (Fixture.envelope "+0012"))).1 "+0012").
  - reflexivity.
  - vm_compute. reflexivity.
  - apply (Fixture_accepted_on "/print" "print"); vm_compute; reflexivity.
Defined.

(** ** Shared prefixes in the credential store *)

Lemma string_app_assoc (a b c : string) : (a ++ b) ++ c = a ++ b ++ c.
Proof.
  induction a as [|x a IH]; [reflexivity|].
  change (String x ((a ++ b) ++ c) = String x (a ++ b ++ c)). rewrite IH. reflexivity.
Qed.

Lemma all_digits_app a b :
  Bytes.all_digits (a ++ b) = Bytes.all_digits a && Bytes.all_digits b.
Proof.
  induction a as [|x a IH]; [reflexivity|].
  change (Bytes.is_digit x && Bytes.all_digits (a ++ b)
          = Bytes.is_digit x && Bytes.all_digits a && Bytes.all_digits b).
  rewrite IH, andb_assoc. reflexivity.
Qed.

Lemma signed_decimal_app crn more :
  strconv.signed_decimal crn = true → Bytes.all_digits more = true →
  strconv.signed_decimal (crn ++ more) = true.
Proof.
  intros Hs Hm.
  destruct (AtoiFacts.signed_decimal_body crn Hs) as (c & rest & -> & Hne & Hd).
  unfold strconv.signed_decimal.
  change (String c rest ++ more) with (String c (rest ++ more)).
  destruct (strconv.is_sign c) eqn:Hsign.
  - rewrite (AtoiFacts.unsigned_part_sign _ _ Hsign) in Hne, Hd.
    rewrite (AtoiFacts.unsigned_part_sign _ _ Hsign).
    destruct rest as [|d rest]; [exfalso; apply Hne; reflexivity|].
    rewrite all_digits_app, Hd, Hm. reflexivity.
  - rewrite (AtoiFacts.unsigned_part_plain _ _ Hsign) in Hd.
    rewrite (AtoiFacts.unsigned_part_plain _ _ Hsign).
    change (String c (rest ++ more)) with (String c rest ++ more).
    rewrite all_digits_app, Hd, Hm. reflexivity.
Qed.

Lemma is_named_longer crn more ext name :
  is_named (crn ++ more) ext name = true → is_named crn ext name = true.
Proof.
  rewrite !GlobFacts.is_named_spec. intros [mid ->].
  exists (more ++ mid). rewrite !string_app_assoc. reflexivity.
Qed.

Lemma matching_longer env crn more ext c :
  matching env crn ext = [c] → matching env (crn ++ more) ext ≠ [] →
  matching env (crn ++ more) ext = [c].
Proof.
  unfold matching. intros Hone Hsome.
  rewrite <- (list_filter_filter_l
                (λ n, is_named (crn ++ more) ext n) (λ n, is_named crn ext n)) in *.
  - rewrite Hone in *. rewrite filter_cons in *.
    destruct (decide (is_named (crn ++ more) ext c)); [reflexivity|].
    exfalso. apply Hsome. reflexivity.
  - intros n Hn. apply Is_true_true. apply Is_true_true in Hn.
    eapply is_named_longer, Hn.
  - intros n Hn. apply Is_true_true. apply Is_true_true in Hn.
    eapply is_named_longer, Hn.
Qed.

(** X11. Identifiers are matched as prefixes of file names.  If the
    store holds exactly one certificate and one key whose names start
    with [crn], and they also start with the longer identifier
    [crn ++ more], then both identifiers resolve, to the same two
    paths: the shorter crn is served with the credentials of the longer
    one. *)
Theorem shorter_crn_borrows_credentials env tr crn more :
  strconv.signed_decimal crn = true → Bytes.all_digits more = true →
  length (matching env crn ".crt") = 1%nat → length (matching env crn ".key") = 1%nat →
  matching env (crn ++ more) ".crt" ≠ [] → matching env (crn ++ more) ".key" ≠ [] →
  ∃ certPath keyPath,
    (findCertificateFiles crn env tr).1 = (certPath, keyPath, None)
    ∧ (findCertificateFiles (crn ++ more) env tr).1 = (certPath, keyPath, None).
Proof.
  intros Hs Hm Hc Hk Hlc Hlk.
  rewrite (findCertificateFiles_run env tr crn Hs).
  rewrite (findCertificateFiles_run env tr (crn ++ more) (signed_decimal_app _ _ Hs Hm)).
  cbn [fst]. unfold resolve.
  destruct (matching env crn ".crt") as [|c [|c' cs]] eqn:Ec; try discriminate.
  destruct (matching env crn ".key") as [|k [|k' ks]] eqn:Ek; try discriminate.
  rewrite (matching_longer env crn more ".crt" c Ec Hlc).
  rewrite (matching_longer env crn more ".key" k Ek Hlk).
  eauto.
Qed.

Lemma shorter_crn_borrows_credentials_witness :
  ∃ certPath keyPath,
    (findCertificateFiles "12" Fixture.store []).1 = (certPath, keyPath, None)
    ∧ (findCertificateFiles ("12" ++ "34") Fixture.store []).1
      = (certPath, keyPath, None).
Proof.
  apply (shorter_crn_borrows_credentials Fixture.store [] "12" "34");
    try reflexivity; vm_compute; discriminate.
Defined.

(** ** Decoding the body *)

Lemma valueInterface_None_iff j :
  json.valueInterface j = None ↔ has_unfit_number j = true.
Proof.
  induction j as [|b|lit|s|l IHl|fs IHfs] using jvalue_nested_ind;
    try (split; discriminate).
  - cbn [json.valueInterface has_unfit_number]. rewrite fmap_None.
    destruct (json.ParseFloat lit) as [x|].
    + rewrite bool_decide_eq_true_2 by eauto. split; discriminate.
    + rewrite bool_decide_eq_false_2 by (intros [x Hx]; discriminate). tauto.
  - cbn [json.valueInterface has_unfit_number]. rewrite fmap_None, mapM_None.
    rewrite existsb_exists, Exists_exists. rewrite Forall_forall in IHl.
    split.
    + intros (x & Hin & Hx). exists x. split; [apply list_elem_of_In, Hin|].
      apply IHl; assumption.
    + intros (x & Hin & Hx). apply list_elem_of_In in Hin. exists x.
      split; [exact Hin|]. apply IHl; assumption.
  - cbn [json.valueInterface has_unfit_number]. rewrite fmap_None, mapM_None.
    rewrite existsb_exists, Exists_exists. rewrite Forall_forall in IHfs.
    split.
    + intros (kv & Hin & Hkv). exists kv. split; [apply list_elem_of_In, Hin|].
      apply fmap_None in Hkv. apply IHfs; assumption.
    + intros (kv & Hin & Hkv). apply list_elem_of_In in Hin. exists kv.
      split; [exact Hin|]. apply fmap_None. apply IHfs; assumption.
Qed.

Lemma Unmarshal_object_error fs :
  (json.Unmarshal (JObject fs)).2 = None
  ↔ json.depth (JObject fs) <= json.maxNestingDepth
    ∧ has_unfit_number (JObject fs) = false.
Proof.
  unfold json.Unmarshal.
  destruct (Z.ltb_spec json.maxNestingDepth (json.depth (JObject fs))) as [Hd|Hd].
  - split; [discriminate | lia].
  - pose proof (valueInterface_None_iff (JObject fs)) as Hnone.
    destruct (json.valueInterface (JObject fs)) as [a|] eqn:Hv.
    + assert (Hfit : has_unfit_number (JObject fs) = false).
      { destruct (has_unfit_number (JObject fs)); [|reflexivity].
        destruct Hnone as [_ H]. discriminate H. reflexivity. }
      cbn [json.valueInterface] in Hv. apply fmap_Some in Hv as (kvs & _ & ->).
      split; [intros _; split; assumption | reflexivity].
    + destruct Hnone as [H _]. rewrite (H eq_refl).
      split; [discriminate | intros [_ ?]; discriminate].
Qed.

(** X12. A POST body that is a JSON object is rejected as "Invalid JSON"
    exactly when it nests deeper than 10000 levels or contains, at any
    depth, a number that does not fit a float64 (such as 1e400); the crn
    is not looked at and nothing is done in the world. *)
Theorem object_body_invalid_exactly env r k fs :
  Method r = "POST" → route (URL_Path r) = Some k → Body r = Text (JObject fs) →
  (10000 < json.depth (JObject fs) ∨ has_unfit_number (JObject fs) = true
   → exec_io (serve r) env = (http.plain_text 400 "Invalid JSON", []))
  ∧ (exec_io (serve r) env = (http.plain_text 400 "Invalid JSON", [])
     → 10000 < json.depth (JObject fs) ∨ has_unfit_number (JObject fs) = true).
Proof.
  intros HM HR HB.
  assert (Hread : Body r ≠ Unreadable) by (rewrite HB; discriminate).
  pose proof (Unmarshal_object_error fs) as Hiff.
  change json.maxNestingDepth with 10000 in Hiff.
  split.
  - intros Hbad. apply (serve_invalid env r k _ HM HR).
    destruct (json.Unmarshal (JObject fs)) as [jd [e|]] eqn:HU.
    + apply (invalid_json r e Hread). rewrite HB. cbn [json_Unmarshal]. rewrite HU.
      reflexivity.
    + exfalso. destruct Hiff as [H _]. destruct (H eq_refl) as [Hd Hn].
      destruct Hbad as [Hbad|Hbad]; [lia | congruence].
  - intros Hrun.
    destruct (Z.ltb_spec 10000 (json.depth (JObject fs))) as [Hd|Hd]; [left; exact Hd|].
    destruct (has_unfit_number (JObject fs)) eqn:Hn; [right; reflexivity|].
    exfalso. destruct Hiff as [_ H]. specialize (H (conj Hd eq_refl)).
    destruct (request_cases r HM) as [[msg Hinv]|(jsonData & crn & Hacc)].
    + rewrite (serve_invalid env r k msg HM HR Hinv) in Hrun.
      assert (msg = "Invalid JSON").
      { injection Hrun as Hmsg. unfold nl in Hmsg.
        destruct Hinv; try discriminate Hmsg. reflexivity. }
      subst msg. inversion Hinv as [| e _ He | | |]; try discriminate.
      * rewrite HB in He. cbn [json_Unmarshal] in He. congruence.
    + rewrite (serve_relay_outcome env r k jsonData crn HM HR Hacc) in Hrun.
      pose proof (relay_outcome_status env k jsonData crn) as Hs.
      rewrite Hrun in Hs. destruct Hs; discriminate.
Qed.

Lemma object_body_invalid_exactly_witness :
  exec_io (serve (Fixture.post "/print"
                    (JObject [ ("crn", JString "1234");
                               ("items", JArray [JObject [("qty", JNumber "1e400")]]) ])))
    Fixture.store
  = (http.plain_text 400 "Invalid JSON", []).
Proof.
  destruct (object_body_invalid_exactly Fixture.store
              (Fixture.post "/print"
                 (JObject [ ("crn", JString "1234");
                            ("items", JArray [JObject [("qty", JNumber "1e400")]]) ]))
              "print"
              [ ("crn", JString "1234");
                ("items", JArray [JObject [("qty", JNumber "1e400")]]) ])
    as [Hbad _].
  - reflexivity.
  - vm_compute. reflexivity.
  - reflexivity.
  - apply Hbad. right. vm_compute. reflexivity.
Defined.

Lemma decoded_members before key v after :
  ∀ kvs,
    mapM (λ kv : string * jvalue, pair kv.1 <$> json.valueInterface kv.2)
      (before ++ (key, v) :: after) = Some kvs →
    ∃ kb a ka, kvs = (kb ++ (key, a) :: ka)%list
               ∧ json.valueInterface v = Some a ∧ ka.*1 = after.*1.
Proof.
  intros kvs H. apply mapM_Some_1 in H.
  apply Forall2_app_inv_l in H as (kb & rest & Hb & Hrest & ->).
  inversion Hrest as [|? kv ? ka Hkv Hka]; subst.
  cbn [fst snd] in Hkv. apply fmap_Some in Hkv as (a & Ha & ->).
  exists kb, a, ka. split; [reflexivity|]. split; [exact Ha|].
  clear -Hka. induction Hka as [|[key' x] kv' after ka Hkv _ IH]; [reflexivity|].
  cbn [fst snd] in Hkv. apply fmap_Some in Hkv as (y & _ & ->).
  rewrite !fmap_cons, IH. reflexivity.
Qed.

Lemma store_members_last kb key (a : any) ka :
  key ∉ ka.*1 → json.store_members (kb ++ (key, a) :: ka) !! key = Some a.
Proof.
  intros Hnot. unfold json.store_members.
  rewrite foldl_app. cbn [foldl fst snd]. rewrite store_members_from.
  rewrite lookup_union_r.
  - apply lookup_insert_eq.
  - apply not_elem_of_list_to_map_1. rewrite fmap_reverse, elem_of_reverse. exact Hnot.
Qed.

(** X13. When the body repeats the crn member, the last one is the crn
    that is validated and used; earlier ones, valid or not, play no
    part. *)
Theorem last_crn_member_is_used env r k before after crn jsonData :
  Method r = "POST" → route (URL_Path r) = Some k →
  Body r = Text (JObject (before ++ ("crn", JString crn) :: after)) →
  "crn" ∉ after.*1 →
  json_Unmarshal (Body r) = (jsonData, None) →
  map_index jsonData "crn" = Some (AString crn)
  ∧ ((strconv.Atoi crn).2 = None → accepted r jsonData crn)
  ∧ (∀ e, (strconv.Atoi crn).2 = Some e →
          exec_io (serve r) env
          = (http.plain_text 400 "Field 'crn' must contain only numbers", [])).
Proof.
  intros HM HR HB Hlast HU.
  assert (Hread : Body r ≠ Unreadable) by (rewrite HB; discriminate).
  assert (Hcrn : map_index jsonData "crn" = Some (AString crn)).
  { rewrite HB in HU. cbn [json_Unmarshal] in HU.
    destruct jsonData as [m|].
    - apply Unmarshal_object in HU. cbn [json.valueInterface] in HU.
      apply fmap_Some in HU as (kvs & Hkvs & Hm). injection Hm as ->.
      destruct (decoded_members _ _ _ _ _ Hkvs) as (kb & a & ka & -> & Ha & Hkeys).
      injection Ha as <-. cbn [map_index mbind option_bind].
      apply store_members_last. rewrite Hkeys. exact Hlast.
    - exfalso. unfold json.Unmarshal in HU.
      destruct (json.maxNestingDepth <? _); [discriminate|].
      destruct (json.valueInterface _) as [[| | | | | |m']|]; discriminate. }
  split; [exact Hcrn|]. split.
  - intros HA. split; assumption.
  - intros e HA. apply (serve_invalid env r k _ HM HR).
    apply (invalid_not_number r jsonData crn e Hread HU Hcrn HA).
Qed.

Lemma last_crn_member_is_used_witness :
  let j := JObject ([("crn", JString "12ab"); ("seq", JNumber "1")]
                    ++ ("crn", JString "1234") :: [("seq", JNumber "2")]) in
  map_index (json_Unmarshal (Text j)).1 "crn" = Some (AString "1234").
Proof.
  intros j.
  destruct (last_crn_member_is_used Fixture.store (Fixture.post "/print" j) "print"
              [("crn", JString "12ab"); ("seq", JNumber "1")] [("seq", JNumber "2")]
              "1234" (json_Unmarshal (Text j)).1) as [Hcrn _].
  - reflexivity.
  - vm_compute. reflexivity.
  - reflexivity.
  - vm_compute. intros Hin.
    apply elem_of_cons in Hin as [Hin|Hin]; [discriminate|].
    apply elem_of_nil in Hin. exact Hin.
  - vm_compute. reflexivity.
  - exact Hcrn.
Defined.

(** ** The members of the outbound object *)

Lemma key_le_total : Total json.key_le.
Proof.
  intros a b. unfold json.key_le.
  destruct (String.leb_total a.1 b.1) as [H|H]; rewrite H; [left | right]; exact I.
Qed.

Lemma encode_map_members (m : gmap string any) :
  ∃ members,
    json.encode (AMap m) = JObject members
    ∧ NoDup members.*1
    ∧ Sorted json.key_le members
    ∧ ∀ key x, (key, x) ∈ members ↔ ∃ v, m !! key = Some v ∧ x = json.encode v.
Proof.
  exists (merge_sort json.key_le (map_to_list (json.encode <$> m))).
  split; [reflexivity|]. split; [|split].
  - rewrite merge_sort_Permutation. apply NoDup_fst_map_to_list.
  - apply Sorted_merge_sort, key_le_total.
  - intros key x. rewrite merge_sort_Permutation, elem_of_map_to_list, lookup_fmap.
    rewrite fmap_Some. split; intros (v & Hv & Hx); exists v; split; auto.
Qed.

(** X14. The object sent upstream has exactly the keys of the decoded
    envelope, each once, in ascending byte order, each with the encoding
    of its decoded value; in particular the crn goes through as the
    string that was validated. *)
Theorem outbound_object_members env r k jsonData crn certPath keyPath payload :
  Method r = "POST" → route (URL_Path r) = Some k → accepted r jsonData crn →
  call_argv k certPath keyPath payload ∈ commands (exec_io (serve r) env).2 →
  ∃ members,
    payload = json.json_text (JObject members)
    ∧ ("crn", JString crn) ∈ members
    ∧ NoDup members.*1
    ∧ Sorted json.key_le members
    ∧ ∀ key x, (key, x) ∈ members
               ↔ ∃ v, map_index jsonData key = Some v ∧ x = json.encode v.
Proof.
  intros HM HR Hacc Hin.
  pose proof (serve_commands env r k jsonData crn HM HR Hacc) as Hall.
  rewrite Forall_forall in Hall. specialize (Hall _ Hin).
  destruct Hall as [(c & kp & Habs)|(c & kp & Hcall)];
    [exfalso; exact (call_is_not_upload _ _ _ _ _ _ _ Habs)|].
  unfold call_argv in Hcall. injection Hcall as _ _ ->.
  destruct Hacc as [_ _ Hcrn _].
  destruct jsonData as [m|]; [|discriminate].
  destruct (encode_map_members m) as (members & Henc & Hnd & Hsorted & Hmem).
  exists members. cbn [json.Marshal_map json.Marshal fst]. rewrite Henc.
  split; [reflexivity|]. split; [|split; [exact Hnd | split; [exact Hsorted | exact Hmem]]].
  apply Hmem. exists (AString crn). split; [exact Hcrn | reflexivity].
Qed.

Lemma outbound_object_members_witness :
  let j := JObject [("seq", JNumber "7"); ("crn", JString "1234"); ("cash", JBool true)] in
  ∃ members,
    (json.Marshal_map (json_Unmarshal (Text j)).1).1 = json.json_text (JObject members)
    ∧ ("crn", JString "1234") ∈ members
    ∧ NoDup members.*1
    ∧ Sorted json.key_le members
    ∧ ∀ key x, (key, x) ∈ members
               ↔ ∃ v, map_index (json_Unmarshal (Text j)).1 key = Some v
                      ∧ x = json.encode v.
Proof.
  intros j.
  apply (outbound_object_members Fixture.store (Fixture.post "/print" j) "print"
           (json_Unmarshal (Text j)).1 "1234"
           "certs/1234_shop.crt" "certs/1234_shop.key").
  - reflexivity.
  - vm_compute. reflexivity.
  - split; [discriminate | reflexivity | vm_compute; reflexivity | vm_compute; reflexivity].
  - vm_compute. apply list_elem_of_further, list_elem_of_here.
Defined.

Lemma matching_single env crn ext name :
  matching env crn ext = [name] →
  name ∈ certs_dir env ∧ ∃ mid, name = crn ++ mid ++ ext.
Proof.
  intros H.
  assert (Hin : name ∈ matching env crn ext) by (rewrite H; left).
  unfold matching in Hin. apply list_elem_of_filter in Hin as [Hn Hin].
  split; [exact Hin|]. apply GlobFacts.is_named_spec, Is_true_true, Hn.
Qed.

(** X15. Whenever an accepted request starts a process, the first one
    uploads a certificate and a key that are entries of the [certs]
    directory, the only ones named [crn*.crt] and [crn*.key] for the
    validated crn, together with that crn. *)
Theorem sent_credentials_come_from_store env r k jsonData crn argv :
  Method r = "POST" → route (URL_Path r) = Some k → accepted r jsonData crn →
  head (commands (exec_io (serve r) env).2) = Some argv →
  ∃ cert key,
    matching env crn ".crt" = [cert] ∧ matching env crn ".key" = [key]
    ∧ cert ∈ certs_dir env ∧ key ∈ certs_dir env
    ∧ (∃ mid, cert = crn ++ mid ++ ".crt") ∧ (∃ mid, key = crn ++ mid ++ ".key")
    ∧ argv = upload_argv ("certs/" ++ cert) ("certs/" ++ key) crn.
Proof.
  intros HM HR Hacc.
  rewrite (serve_relay_outcome env r k jsonData crn HM HR Hacc).
  unfold relay_outcome, resolve.
  destruct (matching env crn ".crt") as [|cert [|c' cs]] eqn:Ec; try discriminate.
  all: destruct (matching env crn ".key") as [|key [|k' ks]] eqn:Ek; try discriminate.
  cbv iota beta.
  destruct (not_exist env (filepath.Join "certs" cert)); [discriminate|].
  destruct (not_exist env (filepath.Join "certs" key)); [discriminate|].
  cbv zeta. intros Hhead.
  assert (Hargv : argv = upload_argv ("certs/" ++ cert) ("certs/" ++ key) crn).
  { destruct (output_of env (upload_history crn _ _) _) as [out1 [err1|]];
      [injection Hhead as <-; reflexivity|].
    destruct (output_of env (call_history crn _ _) _) as [out2 [err2|]];
      injection Hhead as <-; reflexivity. }
  destruct (matching_single env crn ".crt" cert Ec) as [Hc1 Hc2].
  destruct (matching_single env crn ".key" key Ek) as [Hk1 Hk2].
  exists cert, key. repeat split; assumption.
Qed.

Lemma sent_credentials_come_from_store_witness :
  ∃ cert key,
    matching Fixture.store "1234" ".crt" = [cert]
    ∧ matching Fixture.store "1234" ".key" = [key]
    ∧ cert ∈ certs_dir Fixture.store ∧ key ∈ certs_dir Fixture.store
    ∧ (∃ mid, cert = "1234" ++ mid ++ ".crt") ∧ (∃ mid, key = "1234" ++ mid ++ ".key")
    ∧ upload_argv "certs/1234_shop.crt" "certs/1234_shop.key" "1234"
      = upload_argv ("certs/" ++ cert) ("certs/" ++ key) "1234".
Proof.
  apply (sent_credentials_come_from_store Fixture.store
           (Fixture.post "/getGoodList" (Fixture.envelope "1234")) "getGoodList"
           (json_Unmarshal (Text (Fixture.envelope "1234"))).1 "1234").
  - reflexivity.
  - vm_compute. reflexivity.
  - apply (Fixture_accepted_on "/getGoodList" "getGoodList"); vm_compute; reflexivity.
  - vm_compute. reflexivity.
Defined.

(** ** The envelope as the client wrote it *)

(** The printer, the nesting depth and the unquoting on samples: an
    object with an escaped member, an array nested three deep, and
    literals with a surrogate pair, a stray byte, a truncated sequence
    and an unpaired surrogate escape. *)
Lemma json_samples :
  let q := String "034" "" in
  let fffd := String "239" (String "191" (String "189" "")) in
  json.json_text (JObject [("crn", JString "1234");
                           ("items", JArray [JNumber "1.50"; JBool true; JNull;
                                             JString "x<y"])])
  = "{" ++ q ++ "crn" ++ q ++ ":" ++ q ++ "1234" ++ q ++ "," ++ q ++ "items" ++ q
    ++ ":[1.50,true,null," ++ q ++ "x\u003cy" ++ q ++ "]}"
  ∧ json.depth (JArray [JArray [JArray []]; JNull]) = 3
  ∧ json.unquote [JEscape 0xD83D; JEscape 0xDE00; JEscape 0xE9]
    = String "240" (String "159" (String "152" (String "128"
        (String "195" (String "169" "")))))
  ∧ json.unquote (raw "a" ++ [JByte "255"] ++ raw "b")%list = "a" ++ fffd ++ "b"
  ∧ json.unquote [JByte "226"; JByte "130"; JEscape 0x41] = fffd ++ fffd ++ "A"
  ∧ json.unquote (raw "tea" ++ [JEscape 0xD83D])%list = "tea" ++ fffd.
Proof. vm_compute. repeat split. Qed.

(** *** Well-formed literals are unquoted to the text they stand for *)

Lemma byte_code c : utf8.byte (Bytes.code c) = c.
Proof.
  unfold utf8.byte, Bytes.code. rewrite Nat2Z.id. apply ascii_nat_embedding.
Qed.

Ltac bools :=
  repeat match goal with
    | H : _ && _ = true |- _ => apply andb_true_iff in H as [? ?]
    | H : _ || _ = true |- _ => apply orb_true_iff in H
    | H : _ && _ = false |- _ => apply andb_false_iff in H
    | H : _ || _ = false |- _ => apply orb_false_iff in H as [? ?]
    | H : (_ <=? _) = true |- _ => apply Z.leb_le in H
    | H : (_ <=? _) = false |- _ => apply Z.leb_gt in H
    | H : (_ <? _) = true |- _ => apply Z.ltb_lt in H
    | H : (_ <? _) = false |- _ => apply Z.ltb_ge in H
    | H : (_ =? _) = true |- _ => apply Z.eqb_eq in H
    | H : (_ =? _) = false |- _ => apply Z.eqb_neq in H
    end.

Ltac decide_tests :=
  repeat match goal with
    | |- context [Z.leb ?a ?b] => destruct (Z.leb_spec a b); try lia
    | |- context [Z.ltb ?a ?b] => destruct (Z.ltb_spec a b); try lia
    | |- context [Z.eqb ?a ?b] => destruct (Z.eqb_spec a b); try lia
    end; cbn [andb orb].

Lemma first_spec p0 sz lo hi :
  utf8.first p0 = Some (sz, (lo, hi)) →
  (sz = 2%nat ∧ 0xC2 <= p0 <= 0xDF ∧ lo = 0x80 ∧ hi = 0xBF)
  ∨ (sz = 3%nat ∧ 0xE0 <= p0 <= 0xEF ∧ 0x80 <= lo ∧ hi <= 0xBF
     ∧ (p0 = 0xE0 → lo = 0xA0) ∧ (p0 = 0xED → hi = 0x9F))
  ∨ (sz = 4%nat ∧ 0xF0 <= p0 <= 0xF4 ∧ 0x80 <= lo ∧ hi <= 0xBF
     ∧ (p0 = 0xF0 → lo = 0x90) ∧ (p0 = 0xF4 → hi = 0x8F)).
Proof.
  unfold utf8.first.
  repeat match goal with
    | |- context [if ?b then _ else _] => destruct b eqn:?
    end; intros H; try discriminate; injection H as <- <- <-; bools; lia.
Qed.

Lemma EncodeRune_2 c0 c1 :
  0xC2 <= Bytes.code c0 <= 0xDF → 0x80 <= Bytes.code c1 <= 0xBF →
  utf8.EncodeRune ((Bytes.code c0 mod 32) * 64 + Bytes.code c1 mod 64)
  = String c0 (String c1 "").
Proof.
  intros H0 H1. unfold utf8.EncodeRune.
  set (r := _ + _).
  assert (Hr : 0x80 <= r <= 0x7FF ∧ r / 64 = Bytes.code c0 - 0xC0
               ∧ r mod 64 = Bytes.code c1 - 0x80).
  { subst r. Z.div_mod_to_equations. lia. }
  destruct Hr as (Hr & Hd & Hm). rewrite Hd, Hm.
  decide_tests.
  replace (0xC0 + (Bytes.code c0 - 0xC0)) with (Bytes.code c0) by lia.
  replace (0x80 + (Bytes.code c1 - 0x80)) with (Bytes.code c1) by lia.
  rewrite !byte_code. reflexivity.
Qed.

Lemma EncodeRune_3 c0 c1 c2 :
  0xE0 <= Bytes.code c0 <= 0xEF → 0x80 <= Bytes.code c1 <= 0xBF →
  0x80 <= Bytes.code c2 <= 0xBF →
  (Bytes.code c0 = 0xE0 → 0xA0 <= Bytes.code c1) →
  (Bytes.code c0 = 0xED → Bytes.code c1 <= 0x9F) →
  utf8.EncodeRune ((Bytes.code c0 mod 16) * 4096 + (Bytes.code c1 mod 64) * 64
                   + Bytes.code c2 mod 64)
  = String c0 (String c1 (String c2 "")).
Proof.
  intros H0 H1 H2 HE0 HED. unfold utf8.EncodeRune.
  set (r := _ + _).
  assert (Hr : ((0x800 <= r < 0xD800) ∨ (0xDFFF < r <= 0xFFFF))
               ∧ r / 4096 = Bytes.code c0 - 0xE0
               ∧ (r / 64) mod 64 = Bytes.code c1 - 0x80
               ∧ r mod 64 = Bytes.code c2 - 0x80).
  { subst r. Z.div_mod_to_equations. lia. }
  destruct Hr as (Hr & Hd & Hm1 & Hm). rewrite Hd, Hm1, Hm.
  decide_tests.
  all: replace (0xE0 + (Bytes.code c0 - 0xE0)) with (Bytes.code c0) by lia.
  all: replace (0x80 + (Bytes.code c1 - 0x80)) with (Bytes.code c1) by lia.
  all: replace (0x80 + (Bytes.code c2 - 0x80)) with (Bytes.code c2) by lia.
  all: rewrite !byte_code; reflexivity.
Qed.

Lemma EncodeRune_4 c0 c1 c2 c3 :
  0xF0 <= Bytes.code c0 <= 0xF4 → 0x80 <= Bytes.code c1 <= 0xBF →
  0x80 <= Bytes.code c2 <= 0xBF → 0x80 <= Bytes.code c3 <= 0xBF →
  (Bytes.code c0 = 0xF0 → 0x90 <= Bytes.code c1) →
  (Bytes.code c0 = 0xF4 → Bytes.code c1 <= 0x8F) →
  utf8.EncodeRune ((Bytes.code c0 mod 8) * 262144 + (Bytes.code c1 mod 64) * 4096
                   + (Bytes.code c2 mod 64) * 64 + Bytes.code c3 mod 64)
  = String c0 (String c1 (String c2 (String c3 ""))).
Proof.
  intros H0 H1 H2 H3 HF0 HF4. unfold utf8.EncodeRune.
  set (r := _ + _).
  assert (Hr : 0xFFFF < r <= 0x10FFFF
               ∧ r / 262144 = Bytes.code c0 - 0xF0
               ∧ (r / 4096) mod 64 = Bytes.code c1 - 0x80
               ∧ (r / 64) mod 64 = Bytes.code c2 - 0x80
               ∧ r mod 64 = Bytes.code c3 - 0x80).
  { subst r. Z.div_mod_to_equations. lia. }
  destruct Hr as (Hr & Hd & Hm2 & Hm1 & Hm). rewrite Hd, Hm2, Hm1, Hm.
  decide_tests.
  replace (0xF0 + (Bytes.code c0 - 0xF0)) with (Bytes.code c0) by lia.
  replace (0x80 + (Bytes.code c1 - 0x80)) with (Bytes.code c1) by lia.
  replace (0x80 + (Bytes.code c2 - 0x80)) with (Bytes.code c2) by lia.
  replace (0x80 + (Bytes.code c3 - 0x80)) with (Bytes.code c3) by lia.
  rewrite !byte_code. reflexivity.
Qed.

Lemma in_range_byte lo hi c :
  in_range lo hi c = true → ∃ b, c = JByte b ∧ lo <= Bytes.code b <= hi.
Proof.
  destruct c as [b|u]; cbn [in_range]; [|discriminate].
  intros H. bools. exists b. split; [reflexivity | lia].
Qed.

Ltac range_bytes :=
  repeat match goal with
    | H : in_range _ _ _ = true |- _ => apply in_range_byte in H as (? & -> & ?)
    end.

Lemma unquote_well_formed :
  ∀ s, well_formed s = true → written_bytes s = Some (json.unquote s).
Proof.
  intros s. induction s as [s IH] using (induction_ltof1 _ (@length jchar)).
  unfold ltof in IH.
  destruct s as [|[b|u] rest].
  - reflexivity.
  - cbn [well_formed written_bytes]. intros Hwf.
    change (json.unquote (JByte b :: rest)) with
      (if Bytes.code b <? 0x80 then String b (json.unquote rest)
       else
         let '(rr, size) := utf8.DecodeRune (json.raw_prefix (JByte b :: rest)) in
         (utf8.EncodeRune rr ++
          match size, rest with
          | 2%nat, _ :: r2 => json.unquote r2
          | 3%nat, _ :: _ :: r3 => json.unquote r3
          | 4%nat, _ :: _ :: _ :: r4 => json.unquote r4
          | _, _ => json.unquote rest
          end)%string).
    cbv zeta in Hwf.
    destruct (Z.leb_spec (Bytes.code b) 0x7F) as [Hascii|Hhigh].
    { destruct (Z.ltb_spec (Bytes.code b) 0x80); [|lia].
      rewrite (IH rest); [reflexivity | cbn; lia | exact Hwf]. }
    destruct (Z.ltb_spec (Bytes.code b) 0x80); [lia|].
    destruct rest as [|c1 rest1]; [discriminate|].
    destruct ((0xC2 <=? Bytes.code b) && (Bytes.code b <=? 0xDF)) eqn:H2.
    { unfold tail_byte in Hwf. bools. range_bytes.
      match goal with |- context [JByte ?x :: rest1] => rename x into b1 end.
      cbn [json.raw_prefix utf8.DecodeRune String.length].
      assert (Hf : utf8.first (Bytes.code b) = Some (2%nat, (0x80, 0xBF))).
      { unfold utf8.first. decide_tests. reflexivity. }
      rewrite Hf. cbn [Nat.ltb Nat.leb].
      destruct (Z.ltb_spec (Bytes.code b1) 0x80); [lia|].
      destruct (Z.ltb_spec 0xBF (Bytes.code b1)); [lia|]. cbn [orb].
      rewrite EncodeRune_2 by lia.
      cbn [written_bytes]. rewrite (IH rest1); [reflexivity | cbn; lia | assumption]. }
    destruct rest1 as [|c2 rest2]; [discriminate|].
    assert (H3 : (0xE0 <= Bytes.code b <= 0xEF
                  ∧ ∃ b1 b2, c1 = JByte b1 ∧ c2 = JByte b2
                    ∧ 0x80 <= Bytes.code b1 <= 0xBF ∧ 0x80 <= Bytes.code b2 <= 0xBF
                    ∧ (Bytes.code b = 0xE0 → 0xA0 <= Bytes.code b1)
                    ∧ (Bytes.code b = 0xED → Bytes.code b1 <= 0x9F)
                    ∧ well_formed rest2 = true)
                 ∨ (0xF0 <= Bytes.code b <= 0xF4
                    ∧ ∃ b1 b2 b3 rest3, c1 = JByte b1 ∧ c2 = JByte b2
                      ∧ rest2 = JByte b3 :: rest3
                      ∧ 0x80 <= Bytes.code b1 <= 0xBF ∧ 0x80 <= Bytes.code b2 <= 0xBF
                      ∧ 0x80 <= Bytes.code b3 <= 0xBF
                      ∧ (Bytes.code b = 0xF0 → 0x90 <= Bytes.code b1)
                      ∧ (Bytes.code b = 0xF4 → Bytes.code b1 <= 0x8F)
                      ∧ well_formed rest3 = true)).
    { clear IH. unfold tail_byte in Hwf.
      destruct (Z.eqb_spec (Bytes.code b) 0xE0).
      { left. bools. range_bytes. split; [lia|].
        do 2 eexists. repeat split; try eassumption; lia. }
      destruct (((0xE1 <=? Bytes.code b) && (Bytes.code b <=? 0xEC))
                || ((0xEE <=? Bytes.code b) && (Bytes.code b <=? 0xEF))) eqn:HE.
      { left. bools. range_bytes.
        assert (0xE1 <= Bytes.code b <= 0xEF) by (destruct HE; bools; lia).
        split; [lia|].
        do 2 eexists. repeat split; try eassumption; lia. }
      destruct (Z.eqb_spec (Bytes.code b) 0xED).
      { left. bools. range_bytes. split; [lia|].
        do 2 eexists. repeat split; try eassumption; lia. }
      right. destruct rest2 as [|c3 rest3]; [discriminate|].
      destruct (Z.eqb_spec (Bytes.code b) 0xF0).
      { bools. range_bytes. split; [lia|].
        do 4 eexists. repeat split; try eassumption; lia. }
      destruct ((0xF1 <=? Bytes.code b) && (Bytes.code b <=? 0xF3)) eqn:HF.
      { bools. range_bytes. split; [lia|].
        do 4 eexists. repeat split; try eassumption; lia. }
      destruct (Z.eqb_spec (Bytes.code b) 0xF4); [|discriminate].
      bools. range_bytes. split; [lia|].
      do 4 eexists. repeat split; try eassumption; lia. }
    clear Hwf H2.
    destruct H3 as [(Hb & b1 & b2 & -> & -> & Hb1 & Hb2 & HE0 & HED & Hwf)
                   |(Hb & b1 & b2 & b3 & rest3 & -> & -> & -> & Hb1 & Hb2 & Hb3
                     & HF0 & HF4 & Hwf)].
    + cbn [json.raw_prefix utf8.DecodeRune String.length].
      destruct (utf8.first (Bytes.code b)) as [[sz [lo hi]]|] eqn:Hf.
      2:{ exfalso. revert Hf. unfold utf8.first. decide_tests; discriminate. }
      destruct (first_spec _ _ _ _ Hf)
        as [(-> & ? & -> & ->)|[(-> & ? & ? & ? & Hlo & Hhi)|(-> & ? & ? & ? & ? & ?)]];
        [lia| |lia].
      cbn [Nat.ltb Nat.leb].
      assert (Hlo' : lo <= Bytes.code b1).
      { revert Hf. unfold utf8.first. decide_tests; intros Hf; injection Hf as <- <-; lia. }
      assert (Hhi' : Bytes.code b1 <= hi).
      { revert Hf. unfold utf8.first. decide_tests; intros Hf; injection Hf as <- <-; lia. }
      destruct (Z.ltb_spec (Bytes.code b1) lo); [lia|].
      destruct (Z.ltb_spec hi (Bytes.code b1)); [lia|].
      destruct (Z.ltb_spec (Bytes.code b2) 0x80); [lia|].
      destruct (Z.ltb_spec 0xBF (Bytes.code b2)); [lia|]. cbn [orb].
      rewrite EncodeRune_3 by (assumption || lia).
      cbn [written_bytes]. rewrite (IH rest2); [reflexivity | cbn; lia | assumption].
    + cbn [json.raw_prefix utf8.DecodeRune String.length].
      destruct (utf8.first (Bytes.code b)) as [[sz [lo hi]]|] eqn:Hf.
      2:{ exfalso. revert Hf. unfold utf8.first. decide_tests; discriminate. }
      destruct (first_spec _ _ _ _ Hf)
        as [(-> & ? & -> & ->)|[(-> & ? & ? & ? & ? & ?)|(-> & ? & ? & ? & Hlo & Hhi)]];
        [lia|lia|].
      cbn [Nat.ltb Nat.leb].
      assert (Hlo' : lo <= Bytes.code b1).
      { revert Hf. unfold utf8.first. decide_tests; intros Hf; injection Hf as <- <-; lia. }
      assert (Hhi' : Bytes.code b1 <= hi).
      { revert Hf. unfold utf8.first. decide_tests; intros Hf; injection Hf as <- <-; lia. }
      destruct (Z.ltb_spec (Bytes.code b1) lo); [lia|].
      destruct (Z.ltb_spec hi (Bytes.code b1)); [lia|].
      destruct (Z.ltb_spec (Bytes.code b2) 0x80); [lia|].
      destruct (Z.ltb_spec 0xBF (Bytes.code b2)); [lia|].
      destruct (Z.ltb_spec (Bytes.code b3) 0x80); [lia|].
      destruct (Z.ltb_spec 0xBF (Bytes.code b3)); [lia|]. cbn [orb].
      rewrite EncodeRune_4 by (assumption || lia).
      cbn [written_bytes]. rewrite (IH rest3); [reflexivity | cbn; lia | assumption].
  - cbn [well_formed written_bytes json.unquote]. unfold utf16.IsSurrogate.
    intros Hwf.
    destruct ((0xD800 <=? u) && (u <=? 0xDBFF)) eqn:Hhi.
    + destruct rest as [|[b1|v] rest']; try discriminate.
      bools. unfold utf16.DecodeRune, utf8.RuneError.
      destruct (Z.leb_spec 0xD800 u); [|lia].
      destruct (Z.leb_spec u 0xDFFF); [|lia].
      destruct (Z.ltb_spec u 0xE000); [|lia].
      destruct (Z.leb_spec u 0xDBFF); [|lia].
      destruct (Z.ltb_spec u 0xDC00); [|lia].
      destruct (Z.leb_spec 0xDC00 v); [|lia].
      destruct (Z.leb_spec v 0xDFFF); [|lia].
      destruct (Z.ltb_spec v 0xE000); [|lia]. cbn [andb].
      destruct (Z.eqb_spec ((u - 0xD800) * 1024 + (v - 0xDC00) + 0x10000) 0xFFFD); [lia|].
      rewrite (IH rest'); [|cbn; lia|assumption].
      replace ((u - 0xD800) * 1024 + (v - 0xDC00) + 0x10000)
        with (0x10000 + (u - 0xD800) * 1024 + (v - 0xDC00)) by lia.
      reflexivity.
    + destruct ((0xDC00 <=? u) && (u <=? 0xDFFF)) eqn:Hlo; [discriminate|].
      bools.
      assert (Hns : (0xD800 <=? u) && (u <=? 0xDFFF) = false).
      { apply andb_false_iff. destruct Hhi, Hlo; bools; first [left; lia | right; lia | idtac].
        all: destruct (Z.leb_spec 0xD800 u); [right; apply Z.leb_gt; lia | left; reflexivity]. }
      rewrite Hns.
      assert (Hns' : (0xD800 <=? u) && (u <? 0xE000) = false).
      { apply andb_false_iff in Hns. apply andb_false_iff.
        destruct Hns; bools; [left; apply Z.leb_gt; lia | right; apply Z.ltb_ge; lia]. }
      rewrite Hns'.
      rewrite (IH rest); [reflexivity | cbn; lia | assumption].
Qed.

(** *** Integers below 2^53 survive float64 *)

Ltac pow_consts :=
  change (2 ^ 52) with 4503599627370496 in *;
  change (2 ^ 53) with 9007199254740992 in *.

Lemma round_half_even_1 x : float64.round_half_even x 1 = x.
Proof.
  unfold float64.round_half_even. rewrite Z.div_1_r, Z.mod_1_r. reflexivity.
Qed.

Lemma log2_bounds n : 0 < n → 2 ^ Z.log2 n <= n < 2 ^ (Z.log2 n + 1) ∧ 0 <= Z.log2 n.
Proof.
  intros Hn. pose proof (Z.log2_spec n Hn). pose proof (Z.log2_nonneg n).
  replace (Z.log2 n + 1) with (Z.succ (Z.log2 n)) by lia. lia.
Qed.

Lemma floor_log2_ratio_int n : 0 < n → float64.floor_log2_ratio n 1 = Z.log2 n.
Proof.
  intros Hn. unfold float64.floor_log2_ratio. cbv zeta.
  change (Z.log2 1) with 0. rewrite Z.sub_0_r.
  destruct (log2_bounds n Hn) as [[Hlo _] Hl].
  destruct (Z.leb_spec 0 (Z.log2 n)); [|lia].
  rewrite Z.mul_1_l. destruct (Z.leb_spec (2 ^ Z.log2 n) n); [reflexivity | lia].
Qed.

Lemma of_ratio_small s n :
  0 < n < 2 ^ 53 → float64.of_ratio s n 1 = Some (exact_float s n).
Proof.
  intros [Hn Hlt]. unfold float64.of_ratio.
  destruct (Z.eqb_spec n 0); [lia|].
  rewrite (floor_log2_ratio_int n Hn).
  destruct (log2_bounds n Hn) as [[Hlo Hhi] Hl].
  assert (Hl52 : Z.log2 n <= 52).
  { destruct (Z.le_gt_cases (Z.log2 n) 52) as [H|H]; [exact H|].
    assert (2 ^ 53 <= 2 ^ Z.log2 n) by (apply Z.pow_le_mono_r; lia). lia. }
  rewrite Z.max_l by lia. cbv zeta.
  set (m := if 0 <=? Z.log2 n - 52 then _ else _).
  assert (Hm : m = n * 2 ^ (52 - Z.log2 n)).
  { subst m. destruct (Z.leb_spec 0 (Z.log2 n - 52)).
    - replace (Z.log2 n - 52) with 0 by lia. replace (52 - Z.log2 n) with 0 by lia.
      change (2 ^ 0) with 1. rewrite Z.mul_1_l, Z.mul_1_r. apply round_half_even_1.
    - rewrite round_half_even_1. f_equal. f_equal. lia. }
  assert (Hmr : 2 ^ 52 <= m < 2 ^ 53).
  { rewrite Hm.
    assert (Hp : 2 ^ Z.log2 n * 2 ^ (52 - Z.log2 n) = 2 ^ 52).
    { rewrite <- Z.pow_add_r by lia. f_equal. lia. }
    assert (Hp' : 2 ^ (Z.log2 n + 1) * 2 ^ (52 - Z.log2 n) = 2 ^ 53).
    { rewrite <- Z.pow_add_r by lia. f_equal. lia. }
    assert (0 < 2 ^ (52 - Z.log2 n)) by (apply Z.pow_pos_nonneg; lia).
    split; [rewrite <- Hp | rewrite <- Hp']; nia. }
  destruct (Z.eqb_spec m (2 ^ 53)); [lia|].
  destruct (Z.ltb_spec 971 (Z.log2 n - 52)); [lia|].
  destruct (Z.eqb_spec m 0); [lia|].
  unfold exact_float. rewrite Hm. reflexivity.
Qed.

Lemma exact_float_mant s n : 0 < n < 2 ^ 53 → 2 ^ 52 <= float64.mant (exact_float s n) < 2 ^ 53.
Proof.
  intros [Hn Hlt]. cbn [exact_float float64.mant].
  destruct (log2_bounds n Hn) as [[Hlo Hhi] Hl].
  assert (Hl52 : Z.log2 n <= 52).
  { destruct (Z.le_gt_cases (Z.log2 n) 52) as [H|H]; [exact H|].
    assert (2 ^ 53 <= 2 ^ Z.log2 n) by (apply Z.pow_le_mono_r; lia). lia. }
  assert (Hp : 2 ^ Z.log2 n * 2 ^ (52 - Z.log2 n) = 2 ^ 52).
  { rewrite <- Z.pow_add_r by lia. f_equal. lia. }
  assert (Hp' : 2 ^ (Z.log2 n + 1) * 2 ^ (52 - Z.log2 n) = 2 ^ 53).
  { rewrite <- Z.pow_add_r by lia. f_equal. lia. }
  assert (0 < 2 ^ (52 - Z.log2 n)) by (apply Z.pow_pos_nonneg; lia).
  split; [rewrite <- Hp | rewrite <- Hp']; nia.
Qed.

Lemma log2_small n : 0 < n < 2 ^ 53 → 0 <= Z.log2 n <= 52.
Proof.
  intros [Hn Hlt]. destruct (log2_bounds n Hn) as [[Hlo Hhi] Hl].
  split; [exact Hl|].
  destruct (Z.le_gt_cases (Z.log2 n) 52) as [H|H]; [exact H|].
  assert (2 ^ 53 <= 2 ^ Z.log2 n) by (apply Z.pow_le_mono_r; lia). lia.
Qed.

(** An integer reads back as [exact_float s n] only if it is [n]. *)
Lemma of_ratio_reads_back s n c y :
  0 < n < 2 ^ 53 → 0 <= c → float64.of_ratio s c 1 = Some y →
  float64.eqb (exact_float s n) y = true → c = n.
Proof.
  intros Hn Hc Hy Heq.
  pose proof (exact_float_mant s n Hn) as Hmant.
  pose proof (log2_small n Hn) as Hln.
  unfold float64.eqb in Heq.
  apply andb_true_iff in Heq as [Heq He]. apply andb_true_iff in Heq as [_ Hm].
  apply Z.eqb_eq in He, Hm.
  destruct (Z.eq_dec c 0) as [->|Hc0].
  { cbn in Hy. injection Hy as <-. cbn [float64.mant] in Hm.
    rewrite Hm in Hmant. pow_consts. lia. }
  destruct (Z.lt_ge_cases c (2 ^ 53)) as [Hsmall|Hbig].
  - rewrite of_ratio_small in Hy by lia. injection Hy as <-.
    cbn [exact_float float64.expo float64.mant] in He, Hm.
    assert (Hl : Z.log2 c = Z.log2 n) by lia. rewrite Hl in Hm.
    assert (0 < 2 ^ (52 - Z.log2 n)) by (apply Z.pow_pos_nonneg; lia).
    nia.
  - exfalso. unfold float64.of_ratio in Hy.
    destruct (Z.eqb_spec c 0); [lia|].
    rewrite (floor_log2_ratio_int c) in Hy by lia.
    assert (Hlc : 53 <= Z.log2 c).
    { apply Z.log2_le_pow2; lia. }
    rewrite Z.max_l in Hy by lia. cbv zeta in Hy.
    destruct (Z.leb_spec 0 (Z.log2 c - 52)); [|lia].
    set (m := float64.round_half_even _ _) in Hy.
    cbn [float64.expo] in He.
    destruct (m =? 2 ^ 53).
    + destruct (971 <? Z.log2 c - 52 + 1); [discriminate|].
      destruct (2 ^ 52 =? 0) eqn:E; [discriminate E|].
      injection Hy as <-. cbn [exact_float float64.expo] in He. lia.
    + destruct (971 <? Z.log2 c - 52); [discriminate|].
      destruct (m =? 0).
      * injection Hy as <-. cbn [float64.mant] in Hm. rewrite Hm in Hmant.
        pow_consts. lia.
      * injection Hy as <-. cbn [exact_float float64.expo] in He. lia.
Qed.

Lemma float64_eqb_refl x : float64.eqb x x = true.
Proof.
  unfold float64.eqb. rewrite !Z.eqb_refl. destruct (float64.sign x); reflexivity.
Qed.

Lemma to_ratio_exact s n :
  0 < n < 2 ^ 53 → ∃ q, 0 < q ∧ float64.to_ratio (exact_float s n) = (n * q, q).
Proof.
  intros Hn. pose proof (log2_small n Hn) as Hl.
  unfold float64.to_ratio. cbn [exact_float float64.expo float64.mant].
  destruct (Z.leb_spec 0 (Z.log2 n - 52)).
  - exists 1. split; [lia|]. replace (Z.log2 n - 52) with 0 by lia.
    replace (52 - Z.log2 n) with 0 by lia. change (2 ^ 0) with 1.
    rewrite !Z.mul_1_r. reflexivity.
  - exists (2 ^ (52 - Z.log2 n)). split; [apply Z.pow_pos_nonneg; lia|].
    replace (- (Z.log2 n - 52)) with (52 - Z.log2 n) by lia. reflexivity.
Qed.

Lemma ndigits_fuel_spec :
  ∀ fuel n, 0 <= n < 2 ^ Z.of_nat fuel →
    (n = 0 ∧ float64.ndigits_fuel fuel n = 0)
    ∨ (0 < n ∧ 1 <= float64.ndigits_fuel fuel n
       ∧ 10 ^ (float64.ndigits_fuel fuel n - 1) <= n < 10 ^ float64.ndigits_fuel fuel n).
Proof.
  induction fuel as [|fuel IH]; intros n Hn.
  - left. cbn in Hn. split; [lia | reflexivity].
  - cbn [float64.ndigits_fuel].
    destruct (Z.leb_spec n 0) as [H0|Hpos]; [left; split; [lia | reflexivity]|].
    right. rewrite Nat2Z.inj_succ, Z.pow_succ_r in Hn by lia.
    assert (Hdiv : 0 <= n / 10 < 2 ^ Z.of_nat fuel).
    { split; [apply Z.div_pos; lia|].
      apply Z.div_lt_upper_bound; [lia|].
      assert (0 < 2 ^ Z.of_nat fuel) by (apply Z.pow_pos_nonneg; lia). lia. }
    destruct (IH (n / 10) Hdiv) as [(Hz & ->)|(Hp & Hd & Hlo & Hhi)].
    + split; [lia|]. split; [lia|]. cbn. 
      assert (n < 10).
      { destruct (Z.lt_ge_cases n 10) as [H|H]; [exact H|].
        assert (1 <= n / 10) by (apply Z.div_le_lower_bound; lia). lia. }
      lia.
    + set (D := float64.ndigits_fuel fuel (n / 10)) in *.
      split; [lia|]. split; [lia|].
      replace (1 + D - 1) with (Z.succ (D - 1)) by lia.
      replace (1 + D) with (Z.succ D) by lia.
      rewrite !Z.pow_succ_r by lia.
      pose proof (Z.mul_div_le n 10 ltac:(lia)).
      pose proof (Z.mul_succ_div_gt n 10 ltac:(lia)).
      split; lia.
Qed.

Lemma ndigits_spec n :
  0 < n → 1 <= float64.ndigits n
          ∧ 10 ^ (float64.ndigits n - 1) <= n < 10 ^ float64.ndigits n.
Proof.
  intros Hn. unfold float64.ndigits.
  destruct (log2_bounds n Hn) as [[_ Hhi] Hl].
  destruct (ndigits_fuel_spec (Z.to_nat (Z.log2 n + 1)) n) as [[H0 _]|(_ & H)];
    [rewrite Z2Nat.id by lia; lia | lia | exact H].
Qed.

Lemma floor_log10_ratio_int n q :
  0 < n → 0 < q → float64.floor_log10_ratio (n * q) q = float64.ndigits n - 1.
Proof.
  intros Hn Hq. unfold float64.floor_log10_ratio.
  destruct (Z.leb_spec q (n * q)); [|nia].
  rewrite Z.div_mul by lia. reflexivity.
Qed.

Lemma of_decimal_int s d k :
  0 <= k → float64.of_decimal s d k = float64.of_ratio s (d * 10 ^ k) 1.
Proof.
  intros Hk. unfold float64.of_decimal, float64.ratio_of_decimal.
  destruct (Z.leb_spec 0 k); [reflexivity | lia].
Qed.

Lemma truncate_digits_int n q nd :
  0 < n → 0 < q → 1 <= nd <= float64.ndigits n →
  ∃ half, float64.truncate_digits (n * q) q nd
          = (n / 10 ^ (float64.ndigits n - nd), half, float64.ndigits n - nd).
Proof.
  intros Hn Hq Hnd. unfold float64.truncate_digits.
  rewrite floor_log10_ratio_int by assumption.
  replace (float64.ndigits n - 1 - (nd - 1)) with (float64.ndigits n - nd) by lia.
  cbv zeta. destruct (Z.leb_spec 0 (float64.ndigits n - nd)); [|lia].
  eexists. f_equal. f_equal.
  rewrite (Z.mul_comm n q).
  assert (0 < 10 ^ (float64.ndigits n - nd)) by (apply Z.pow_pos_nonneg; lia).
  apply Z.div_mul_cancel_l; lia.
Qed.

Lemma shortest_from_int s n :
  0 < n < 2 ^ 53 →
  ∀ fuel nd, 1 <= nd <= float64.ndigits n →
    float64.ndigits n - nd < Z.of_nat fuel →
    ∃ dd k, float64.shortest_from fuel nd (exact_float s n) = (dd, k)
            ∧ dd * 10 ^ k = n ∧ 0 <= k ∧ 0 < dd.
Proof.
  intros Hn. destruct (to_ratio_exact s n Hn) as (q & Hq & Hratio).
  destruct (ndigits_spec n ltac:(lia)) as (HD & HDlo & HDhi).
  induction fuel as [|fuel IH]; intros nd Hnd Hfuel; [lia|].
  cbn [float64.shortest_from]. rewrite Hratio.
  destruct (truncate_digits_int n q nd ltac:(lia) Hq Hnd) as (half & ->).
  set (k := float64.ndigits n - nd) in *.
  set (lo := n / 10 ^ k).
  assert (Hk : 0 <= k) by lia.
  assert (Hpk : 0 < 10 ^ k) by (apply Z.pow_pos_nonneg; lia).
  assert (Hlo : lo * 10 ^ k <= n < (lo + 1) * 10 ^ k).
  { subst lo. pose proof (Z.mul_div_le n (10 ^ k) Hpk).
    pose proof (Z.mul_succ_div_gt n (10 ^ k) Hpk). lia. }
  assert (Hlo1 : 1 <= lo).
  { subst lo. apply Z.div_le_lower_bound; [lia|].
    assert (10 ^ k <= 10 ^ (float64.ndigits n - 1)) by (apply Z.pow_le_mono_r; lia).
    lia. }
  assert (Hnn1 : 0 <= (lo + 1) * 10 ^ k) by (apply Z.mul_nonneg_nonneg; lia).
  assert (Hnn0 : 0 <= lo * 10 ^ k) by (apply Z.mul_nonneg_nonneg; lia).
  cbn [exact_float float64.sign]. fold (exact_float s n).
  rewrite !of_decimal_int by exact Hk.
  assert (Hup : match float64.of_ratio s ((lo + 1) * 10 ^ k) 1 with
                | Some y => float64.eqb (exact_float s n) y
                | None => false
                end = false).
  { destruct (float64.of_ratio s ((lo + 1) * 10 ^ k) 1) as [y|] eqn:Hy; [|reflexivity].
    destruct (float64.eqb (exact_float s n) y) eqn:He; [|reflexivity].
    pose proof (of_ratio_reads_back s n _ y Hn Hnn1 Hy He). lia. }
  rewrite Hup.
  destruct (float64.of_ratio s (lo * 10 ^ k) 1) as [y|] eqn:Hy.
  - destruct (float64.eqb (exact_float s n) y) eqn:He.
    + exists lo, k. split; [reflexivity|].
      pose proof (of_ratio_reads_back s n _ y Hn Hnn0 Hy He). lia.
    + assert (nd < float64.ndigits n).
      { destruct (Z.lt_ge_cases nd (float64.ndigits n)) as [H|H]; [exact H|].
        exfalso. assert (k = 0) by lia.
        assert (Hln : lo * 10 ^ k = n).
        { subst lo. replace k with 0 by lia. change (10 ^ 0) with 1.
          rewrite Z.div_1_r. lia. }
        rewrite Hln, of_ratio_small in Hy by exact Hn. injection Hy as <-.
        rewrite float64_eqb_refl in He. discriminate. }
      replace (float64.ndigits n - nd) with k by reflexivity.
      apply IH; lia.
  - assert (nd < float64.ndigits n).
    { destruct (Z.lt_ge_cases nd (float64.ndigits n)) as [H|H]; [exact H|].
      exfalso. assert (k = 0) by lia.
      assert (Hln : lo * 10 ^ k = n).
      { subst lo. replace k with 0 by lia. change (10 ^ 0) with 1.
        rewrite Z.div_1_r. lia. }
      rewrite Hln, of_ratio_small in Hy by exact Hn. discriminate. }
    apply IH; lia.
Qed.

Lemma ndigits_small n : 0 < n < 2 ^ 53 → float64.ndigits n <= 16.
Proof.
  intros Hn. destruct (ndigits_spec n ltac:(lia)) as (HD & HDlo & _).
  destruct (Z.le_gt_cases (float64.ndigits n) 16) as [H|H]; [exact H|].
  assert (10 ^ 16 <= 10 ^ (float64.ndigits n - 1)) by (apply Z.pow_le_mono_r; lia).
  change (10 ^ 16) with 10000000000000000 in *. pow_consts. lia.
Qed.

Lemma shortest_int s n :
  0 < n < 2 ^ 53 →
  ∃ dd k, float64.shortest (exact_float s n) = (dd, k) ∧ dd * 10 ^ k = n ∧ 0 <= k ∧ 0 < dd.
Proof.
  intros Hn. unfold float64.shortest.
  pose proof (ndigits_small n Hn).
  destruct (ndigits_spec n ltac:(lia)) as (HD & _).
  apply shortest_from_int; [exact Hn | lia | lia].
Qed.

(** *** Digit strings *)

Lemma append_cons c (a b : string) : String c a ++ b = String c (a ++ b).
Proof. reflexivity. Qed.

Lemma append_nil_r (s : string) : s ++ "" = s.
Proof. induction s as [|c s IH]; [reflexivity|]. rewrite append_cons, IH. reflexivity. Qed.

Lemma append_assoc (a b c : string) : (a ++ b) ++ c = a ++ (b ++ c).
Proof. induction a as [|x a IH]; [reflexivity|]. rewrite !append_cons, IH. reflexivity. Qed.

Lemma length_append (a b : string) :
  String.length (a ++ b) = (String.length a + String.length b)%nat.
Proof.
  induction a as [|x a IH]; [reflexivity|].
  rewrite append_cons. cbn [String.length Nat.add]. rewrite IH. reflexivity.
Qed.

Lemma digits_value_app a : ∀ b acc,
  Bytes.digits_value acc (a ++ b) = Bytes.digits_value (Bytes.digits_value acc a) b.
Proof.
  induction a as [|x a IH]; intros b acc; [reflexivity|].
  rewrite append_cons. cbn [Bytes.digits_value]. apply IH.
Qed.

Lemma digits_value_lower s : ∀ acc,
  Bytes.all_digits s = true → 0 <= acc →
  acc * 10 ^ Z.of_nat (String.length s) <= Bytes.digits_value acc s.
Proof.
  induction s as [|c s IH]; intros acc Hd Hacc.
  - cbn. lia.
  - cbn [Bytes.all_digits] in Hd. apply andb_true_iff in Hd as [Hc Hs].
    unfold Bytes.is_digit in Hc. apply andb_true_iff in Hc as [Hc1 Hc2].
    apply Z.leb_le in Hc1, Hc2.
    cbn [Bytes.digits_value String.length]. rewrite Nat2Z.inj_succ, Z.pow_succ_r by lia.
    specialize (IH (acc * 10 + (Bytes.code c - 48)) Hs ltac:(lia)).
    assert (0 <= 10 ^ Z.of_nat (String.length s)) by (apply Z.pow_nonneg; lia).
    nia.
Qed.

Lemma all_digits_zeros k : Bytes.all_digits (json.zeros k) = true.
Proof. induction k as [|k IH]; [reflexivity|]. cbn [json.zeros Bytes.all_digits]. rewrite IH. reflexivity. Qed.

Lemma digits_value_zeros k : ∀ acc,
  Bytes.digits_value acc (json.zeros k) = acc * 10 ^ Z.of_nat k.
Proof.
  induction k as [|k IH]; intros acc.
  - cbn. lia.
  - cbn [json.zeros Bytes.digits_value]. rewrite IH, Nat2Z.inj_succ, Z.pow_succ_r by lia.
    change (Bytes.code "0") with 48. lia.
Qed.

Lemma zeros_add a b : json.zeros (a + b) = json.zeros a ++ json.zeros b.
Proof.
  induction a as [|a IH]; [reflexivity|].
  cbn [Nat.add json.zeros]. rewrite append_cons, IH. reflexivity.
Qed.

Lemma length_zeros k : String.length (json.zeros k) = k.
Proof.
  induction k as [|k IH]; [reflexivity|].
  cbn [json.zeros String.length]. rewrite IH. reflexivity.
Qed.

(** *** Reversal and trailing zeros *)

Lemma rev_app_spec a : ∀ b, String.rev_app a b = String.rev a ++ b.
Proof.
  unfold String.rev. induction a as [|x a IH]; intros b; [reflexivity|].
  cbn [String.rev_app]. rewrite (IH (String x b)), (IH (String x "")).
  rewrite append_assoc. reflexivity.
Qed.

Lemma rev_cons x a : String.rev (String x a) = String.rev a ++ String x "".
Proof. unfold String.rev at 1. cbn [String.rev_app]. apply rev_app_spec. Qed.

Lemma rev_append a : ∀ b, String.rev (a ++ b) = String.rev b ++ String.rev a.
Proof.
  induction a as [|x a IH]; intros b.
  - change ("" ++ b) with b. change (String.rev "") with "".
    rewrite append_nil_r. reflexivity.
  - rewrite append_cons, !rev_cons, IH, append_assoc. reflexivity.
Qed.

Lemma rev_involutive a : String.rev (String.rev a) = a.
Proof.
  induction a as [|x a IH]; [reflexivity|].
  rewrite rev_cons, rev_append, IH. reflexivity.
Qed.

Lemma zeros_snoc k : json.zeros k ++ "0" = String "0" (json.zeros k).
Proof.
  induction k as [|k IH]; [reflexivity|].
  cbn [json.zeros]. rewrite append_cons, IH. reflexivity.
Qed.

Lemma rev_zeros k : String.rev (json.zeros k) = json.zeros k.
Proof.
  induction k as [|k IH]; [reflexivity|].
  cbn [json.zeros]. rewrite rev_cons, IH. apply zeros_snoc.
Qed.

Lemma drop_zeros_cons c s :
  json.drop_zeros (String c s)
  = if Ascii.eqb c "0" then json.drop_zeros s else String c s.
Proof. destruct c as [[] [] [] [] [] [] [] []]; reflexivity. Qed.

Lemma drop_zeros_spec s : ∃ j, s = json.zeros j ++ json.drop_zeros s.
Proof.
  induction s as [|c s [j IH]]; [exists 0%nat; reflexivity|].
  rewrite drop_zeros_cons. destruct (Ascii.eqb_spec c "0") as [->|Hc].
  - exists (S j). cbn [json.zeros]. rewrite append_cons, <- IH. reflexivity.
  - exists 0%nat. reflexivity.
Qed.

(** Stripping the trailing zeros and putting them back. *)
Lemma strip_trailing_zeros_spec s :
  ∃ j, s = json.strip_trailing_zeros s ++ json.zeros j
       ∧ String.length s = (String.length (json.strip_trailing_zeros s) + j)%nat.
Proof.
  unfold json.strip_trailing_zeros.
  destruct (drop_zeros_spec (String.rev s)) as [j Hj].
  exists j.
  assert (H : s = String.rev (json.drop_zeros (String.rev s)) ++ json.zeros j).
  { rewrite <- (rev_involutive s) at 1. rewrite Hj at 1.
    rewrite rev_append, rev_zeros. reflexivity. }
  split; [exact H|]. rewrite H at 1. rewrite length_append, length_zeros. reflexivity.
Qed.

Lemma substring_all s : substring 0 (String.length s) s = s.
Proof.
  induction s as [|c s IH]; [reflexivity|].
  cbn [String.length substring]. rewrite IH. reflexivity.
Qed.

(** *** The decimal digits of a positive integer *)

Lemma pretty_N_go_app x : ∀ s, pretty_N_go x s = pretty_N_go x "" ++ s.
Proof.
  induction (N.lt_wf_0 x) as [x _ IH]; intros s.
  destruct (N.eq_dec x 0%N) as [->|Hx]; [rewrite !pretty_N_go_0; reflexivity|].
  rewrite (pretty_N_go_step x s), (pretty_N_go_step x "") by lia.
  rewrite (IH (x `div` 10)%N) by (apply N.div_lt; lia).
  rewrite (IH (x `div` 10)%N ltac:(apply N.div_lt; lia) (String _ "")).
  rewrite append_assoc. reflexivity.
Qed.

Lemma pretty_N_go_snoc x :
  (0 < x)%N →
  pretty_N_go x "" = pretty_N_go (x `div` 10) "" ++ String (pretty_N_char (x `mod` 10)) "".
Proof. intros Hx. rewrite pretty_N_go_step by exact Hx. apply pretty_N_go_app. Qed.

Lemma pretty_N_char_code r :
  (r < 10)%N → Bytes.code (pretty_N_char r) = 48 + Z.of_N r.
Proof.
  intros Hr.
  assert (H : (r = 0 ∨ r = 1 ∨ r = 2 ∨ r = 3 ∨ r = 4 ∨ r = 5 ∨ r = 6 ∨ r = 7
               ∨ r = 8 ∨ r = 9)%N) by lia.
  repeat (destruct H as [->|H]; [reflexivity|]). subst r. reflexivity.
Qed.

Lemma pretty_N_go_digits x :
  Bytes.all_digits (pretty_N_go x "") = true
  ∧ Bytes.digits_value 0 (pretty_N_go x "") = Z.of_N x
  ∧ ((0 < x)%N → ∃ c rest, pretty_N_go x "" = String c rest ∧ Bytes.code c ≠ 48).
Proof.
  induction (N.lt_wf_0 x) as [x _ IH].
  destruct (N.eq_dec x 0%N) as [->|Hx].
  { rewrite pretty_N_go_0. repeat split. intros H. lia. }
  rewrite pretty_N_go_snoc by lia.
  destruct (IH (x `div` 10)%N ltac:(apply N.div_lt; lia)) as (Hd & Hv & Hlead).
  assert (Hr : (x `mod` 10 < 10)%N) by (apply N.mod_lt; lia).
  pose proof (pretty_N_char_code _ Hr) as Hc.
  pose proof (N.div_mod x 10 ltac:(lia)) as Hdm.
  set (r := (x `mod` 10)%N) in *. set (q := (x `div` 10)%N) in *.
  split; [|split].
  - rewrite all_digits_app, Hd. cbn [Bytes.all_digits andb].
    unfold Bytes.is_digit. rewrite Hc.
    destruct (Z.leb_spec 48 (48 + Z.of_N r)); [|lia].
    destruct (Z.leb_spec (48 + Z.of_N r) 57); [reflexivity | lia].
  - rewrite digits_value_app, Hv. cbn [Bytes.digits_value]. rewrite Hc. lia.
  - intros _. destruct (N.eq_dec q 0%N) as [H0|H0].
    + rewrite H0, pretty_N_go_0. eexists _, _.
      split; [reflexivity|]. rewrite Hc. lia.
    + destruct (Hlead ltac:(lia)) as (c & rest & -> & Hne).
      rewrite append_cons. eexists _, _. split; [reflexivity | exact Hne].
Qed.

Lemma pretty_pos_digits (d : Z) :
  0 < d →
  Bytes.all_digits (pretty d) = true
  ∧ Bytes.digits_value 0 (pretty d) = d
  ∧ ∃ c rest, pretty d = String c rest ∧ Bytes.code c ≠ 48.
Proof.
  intros Hd. destruct d as [|p|p]; try lia.
  change (pretty (Z.pos p)) with (pretty (N.pos p)).
  unfold pretty, pretty_N. destruct (decide (N.pos p = 0%N)) as [H|_]; [discriminate|].
  destruct (pretty_N_go_digits (N.pos p)) as (Ha & Hv & Hl).
  split; [exact Ha|]. split; [exact Hv|]. apply Hl. lia.
Qed.

(** *** Integer literals *)

Lemma number_of_literal_neg t :
  json.number_of_literal (String "-" t) = unsigned_literal true t.
Proof. reflexivity. Qed.

Lemma number_of_literal_pos c t :
  c ≠ "-"%char →
  json.number_of_literal (String c t) = unsigned_literal false (String c t).
Proof.
  intros Hc. destruct c as [[] [] [] [] [] [] [] []]; try reflexivity.
  exfalso. apply Hc. reflexivity.
Qed.

Lemma span_digits_all d : Bytes.all_digits d = true → json.span_digits d = (d, "").
Proof.
  induction d as [|c d IH]; intros Hd; [reflexivity|].
  cbn [Bytes.all_digits] in Hd. apply andb_true_iff in Hd as [Hc Hd].
  cbn [json.span_digits]. rewrite Hc, (IH Hd). reflexivity.
Qed.

Lemma int_part_digits d :
  Bytes.all_digits d = true → d ≠ "" → leading_zero d = false →
  json.int_part d = Some (d, "").
Proof.
  intros Hd Hne Hz. unfold json.int_part. rewrite (span_digits_all d Hd).
  destruct d as [|c [|c' r]]; [contradiction| |].
  - destruct c as [[] [] [] [] [] [] [] []]; reflexivity.
  - destruct c as [[] [] [] [] [] [] [] []]; try reflexivity. discriminate Hz.
Qed.

Lemma unsigned_literal_digits neg d :
  Bytes.all_digits d = true → d ≠ "" → leading_zero d = false →
  unsigned_literal neg d = Some (neg, Bytes.digits_value 0 d, 0).
Proof.
  intros Hd Hne Hz. unfold unsigned_literal.
  rewrite (int_part_digits d Hd Hne Hz). cbn.
  rewrite append_nil_r. reflexivity.
Qed.

Lemma digit_not_dash c : Bytes.is_digit c = true → c ≠ "-"%char.
Proof. intros H ->. discriminate H. Qed.

Lemma leading_nonzero c rest : Bytes.code c ≠ 48 → leading_zero (String c rest) = false.
Proof.
  intros Hc. unfold leading_zero.
  destruct c as [[] [] [] [] [] [] [] []]; try reflexivity.
  exfalso. apply Hc. reflexivity.
Qed.

(** The literal of a float64 that is exactly a small integer. *)
Lemma FormatFloat_exact s n :
  0 < n < 2 ^ 53 →
  ∃ dd k, dd * 10 ^ k = n ∧ 0 <= k ∧ 0 < dd
          ∧ json.FormatFloat (exact_float s n)
            = (if s then "-" else "") ++ pretty dd ++ json.zeros (Z.to_nat k).
Proof.
  intros Hn. destruct (shortest_int s n Hn) as (dd & k & Hsh & Hv & Hk & Hdd).
  exists dd, k. split; [exact Hv|]. split; [exact Hk|]. split; [exact Hdd|].
  unfold json.FormatFloat. cbv zeta.
  pose proof (exact_float_mant s n Hn) as Hm.
  destruct (Z.eqb_spec (float64.mant (exact_float s n)) 0) as [H0|_];
    [rewrite H0 in Hm; pow_consts; lia|].
  rewrite Hsh. cbn [exact_float float64.sign].
  destruct (pretty_pos_digits dd Hdd) as (Hall & Hval & c & rest & HP & Hc).
  destruct (strip_trailing_zeros_spec (pretty dd)) as (j & Hj & Hlen).
  set (P := pretty dd) in *. set (ds := json.strip_trailing_zeros P) in *.
  assert (HlenP : (1 <= String.length P)%nat) by (rewrite HP; cbn; lia).
  assert (Hbound : Z.of_nat (String.length P) + k <= 16).
  { pose proof (digits_value_lower P 0 Hall ltac:(lia)) as _.
    assert (Hlow : 10 ^ (Z.of_nat (String.length P) - 1) <= dd).
    { rewrite <- Hval. rewrite HP. cbn [Bytes.digits_value String.length].
      rewrite HP in Hall. cbn [Bytes.all_digits] in Hall.
      apply andb_true_iff in Hall as [Hcd Hrest].
      unfold Bytes.is_digit in Hcd. apply andb_true_iff in Hcd as [Hc1 Hc2].
      apply Z.leb_le in Hc1, Hc2.
      pose proof (digits_value_lower rest (0 * 10 + (Bytes.code c - 48)) Hrest
                    ltac:(lia)) as Hl.
      replace (Z.of_nat (S (String.length rest)) - 1)
        with (Z.of_nat (String.length rest)) by lia.
      assert (0 <= 10 ^ Z.of_nat (String.length rest)) by (apply Z.pow_nonneg; lia).
      nia. }
    destruct (Z.le_gt_cases (Z.of_nat (String.length P) + k) 16) as [H|H]; [exact H|].
    exfalso.
    assert (H16 : 10 ^ 16 <= 10 ^ (Z.of_nat (String.length P) - 1 + k))
      by (apply Z.pow_le_mono_r; lia).
    rewrite Z.pow_add_r in H16 by lia.
    assert (0 < 10 ^ k) by (apply Z.pow_pos_nonneg; lia).
    change (10 ^ 16) with 10000000000000000 in H16. pow_consts. nia. }
  assert (Hds : (String.length ds <= String.length P)%nat) by lia.
  destruct (Z.leb_spec (Z.of_nat (String.length P) + k) (-6)); [lia|].
  destruct (Z.leb_spec 22 (Z.of_nat (String.length P) + k)); [lia|].
  cbn [orb]. f_equal.
  unfold json.fmtF. cbv zeta.
  destruct (Z.ltb_spec 0 (Z.of_nat (String.length P) + k)); [|lia].
  destruct (Z.ltb_spec (Z.of_nat (String.length P) + k) (Z.of_nat (String.length ds)));
    [lia|].
  rewrite Z.min_l by lia. rewrite Nat2Z.id, substring_all, append_nil_r.
  replace (Z.to_nat (Z.of_nat (String.length P) + k - Z.of_nat (String.length ds)))
    with (j + Z.to_nat k)%nat by lia.
  rewrite zeros_add, <- append_assoc, <- Hj. reflexivity.
Qed.

Lemma number_of_literal_signed neg d :
  Bytes.all_digits d = true → d ≠ "" → leading_zero d = false →
  json.number_of_literal ((if neg : bool then "-" else "") ++ d)
  = Some (neg, Bytes.digits_value 0 d, 0).
Proof.
  intros Hd Hne Hz. destruct neg.
  - change ("-" ++ d) with (String "-" d).
    rewrite number_of_literal_neg. apply unsigned_literal_digits; assumption.
  - change ("" ++ d) with d. destruct d as [|c r]; [contradiction|].
    rewrite number_of_literal_pos.
    + apply unsigned_literal_digits; assumption.
    + apply digit_not_dash. cbn [Bytes.all_digits] in Hd.
      apply andb_true_iff in Hd as [Hc _]. exact Hc.
Qed.

Lemma number_of_FormatFloat_exact s n :
  0 < n < 2 ^ 53 →
  json.number_of_literal (json.FormatFloat (exact_float s n)) = Some (s, n, 0).
Proof.
  intros Hn. destruct (FormatFloat_exact s n Hn) as (dd & k & Hv & Hk & Hdd & ->).
  destruct (pretty_pos_digits dd Hdd) as (Hall & Hval & c & rest & HP & Hc).
  rewrite number_of_literal_signed.
  - rewrite digits_value_app, Hval, digits_value_zeros, Z2Nat.id by lia.
    rewrite Hv. reflexivity.
  - rewrite all_digits_app, Hall, all_digits_zeros. reflexivity.
  - rewrite HP, append_cons. discriminate.
  - rewrite HP, append_cons. apply leading_nonzero, Hc.
Qed.

Lemma plain_integer_literal lit :
  plain_integer lit = true →
  ∃ neg n, 0 <= n < 2 ^ 53 ∧ json.number_of_literal lit = Some (neg, n, 0).
Proof.
  assert (Hd : ∀ neg d,
             negb (d =? "")%string && Bytes.all_digits d && negb (leading_zero d)
             && (Bytes.digits_value 0 d <? 2 ^ 53) = true →
             0 <= Bytes.digits_value 0 d < 2 ^ 53
             ∧ unsigned_literal neg d = Some (neg, Bytes.digits_value 0 d, 0)).
  { intros neg d H. apply andb_true_iff in H as [H Hlt].
    apply andb_true_iff in H as [H Hz]. apply andb_true_iff in H as [Hne Hall].
    apply Z.ltb_lt in Hlt. apply negb_true_iff in Hz, Hne.
    apply String.eqb_neq in Hne.
    split; [split; [apply AtoiFacts.digits_value_ge; [exact Hall | lia] | exact Hlt]|].
    apply unsigned_literal_digits; assumption. }
  unfold plain_integer. cbv zeta. intros H.
  destruct lit as [|c t]; [discriminate H|].
  destruct (Ascii.eqb_spec c "-") as [->|Hc].
  - destruct (Hd true t H) as [Hr Hu]. exists true, (Bytes.digits_value 0 t).
    split; [exact Hr|]. rewrite number_of_literal_neg. exact Hu.
  - assert (Hsame : match String c t with String "-" t' => t' | _ => String c t end
                    = String c t).
    { destruct c as [[] [] [] [] [] [] [] []]; try reflexivity.
      exfalso. apply Hc. reflexivity. }
    rewrite Hsame in H. destruct (Hd false _ H) as [Hr Hu].
    exists false, (Bytes.digits_value 0 (String c t)).
    split; [exact Hr|]. rewrite number_of_literal_pos by exact Hc. exact Hu.
Qed.

(** An integer literal of magnitude below 2^53 survives float64. *)
Lemma plain_integer_survives lit : plain_integer lit = true → survives lit = true.
Proof.
  intros H. destruct (plain_integer_literal lit H) as (neg & n & Hn & Hlit).
  unfold survives, json.ParseFloat. rewrite Hlit. cbn [mbind option_bind].
  rewrite of_decimal_int by lia. change (10 ^ 0) with 1. rewrite Z.mul_1_r.
  destruct (Z.eq_dec n 0) as [->|Hn0].
  - unfold same_number. rewrite Hlit. destruct neg; reflexivity.
  - rewrite of_ratio_small by lia.
    unfold same_number. rewrite Hlit, number_of_FormatFloat_exact by lia.
    cbv zeta. apply Z.eqb_refl.
Qed.


(** *** Decimals of at most fifteen digits survive float64 *)

Lemma round_half_even_spec num den :
  0 <= num → 0 < den →
  - den <= 2 * (float64.round_half_even num den * den - num) <= den
  ∧ num / den <= float64.round_half_even num den <= num / den + 1.
Proof.
  intros Hn Hd. unfold float64.round_half_even. cbv zeta.
  pose proof (Z.div_mod num den ltac:(lia)) as Hdm.
  pose proof (Z.mod_pos_bound num den Hd) as Hr.
  set (q := num / den) in *. set (r := num mod den) in *.
  destruct (Z.ltb_spec (2 * r) den); [split; nia|].
  destruct (Z.ltb_spec den (2 * r)); [split; nia|].
  destruct (Z.even q); split; nia.
Qed.

Lemma round_half_even_scale num den j :
  0 < den → 0 < j →
  float64.round_half_even (num * j) (den * j) = float64.round_half_even num den.
Proof.
  intros Hd Hj. unfold float64.round_half_even. cbv zeta.
  rewrite Z.div_mul_cancel_r by lia.
  rewrite Z.mul_mod_distr_r by lia.
  set (q := num / den). set (r := num mod den).
  assert (H1 : (2 * (r * j) <? den * j) = (2 * r <? den)).
  { destruct (Z.ltb_spec (2 * r) den); destruct (Z.ltb_spec (2 * (r * j)) (den * j));
      try reflexivity; nia. }
  assert (H2 : (den * j <? 2 * (r * j)) = (den <? 2 * r)).
  { destruct (Z.ltb_spec den (2 * r)); destruct (Z.ltb_spec (den * j) (2 * (r * j)));
      try reflexivity; nia. }
  rewrite H1, H2. reflexivity.
Qed.

Lemma reaches_scale b l p q j :
  0 < j → reaches b l (p * j) (q * j) = reaches b l p q.
Proof.
  intros Hj. unfold reaches. destruct (0 <=? l).
  - destruct (Z.leb_spec (q * b ^ l) p); destruct (Z.leb_spec (q * j * b ^ l) (p * j));
      try reflexivity; nia.
  - destruct (Z.leb_spec q (p * b ^ (- l)));
      destruct (Z.leb_spec (q * j) (p * j * b ^ (- l))); try reflexivity; nia.
Qed.

Lemma reaches_down b l p q :
  1 < b → 0 < p → 0 < q → reaches b (l + 1) p q = true → reaches b l p q = true.
Proof.
  intros Hb Hp Hq. unfold reaches.
  destruct (Z.leb_spec 0 (l + 1)) as [H1|H1]; destruct (Z.leb_spec 0 l) as [H0|H0];
    try lia.
  - intros H. apply Z.leb_le in H. apply Z.leb_le.
    rewrite Z.pow_add_r, Z.pow_1_r in H by lia.
    assert (0 < b ^ l) by (apply Z.pow_pos_nonneg; lia). nia.
  - assert (l = -1) by lia. subst l. change (-1 + 1) with 0. change (- -1) with 1.
    rewrite Z.pow_0_r, Z.pow_1_r. intros H. apply Z.leb_le in H.
    apply Z.leb_le. nia.
  - intros H. apply Z.leb_le in H. apply Z.leb_le.
    replace (- l) with (- (l + 1) + 1) by lia.
    rewrite Z.pow_add_r, Z.pow_1_r by lia.
    assert (0 < b ^ (- (l + 1))) by (apply Z.pow_pos_nonneg; lia). nia.
Qed.

Lemma reaches_mono b p q : 1 < b → 0 < p → 0 < q →
  ∀ l l', l <= l' → reaches b l' p q = true → reaches b l p q = true.
Proof.
  intros Hb Hp Hq l l' Hle.
  replace l with (l' - Z.of_nat (Z.to_nat (l' - l))) by lia.
  generalize (Z.to_nat (l' - l)) as n. clear Hle l.
  induction n as [|n IH]; intros H.
  - rewrite Z.sub_0_r. exact H.
  - apply reaches_down; [assumption..|].
    replace (l' - Z.of_nat (S n) + 1) with (l' - Z.of_nat n) by lia. apply IH, H.
Qed.

Lemma floor_log2_ratio_spec p q :
  0 < p → 0 < q →
  reaches 2 (float64.floor_log2_ratio p q) p q = true
  ∧ reaches 2 (float64.floor_log2_ratio p q + 1) p q = false.
Proof.
  intros Hp Hq. unfold float64.floor_log2_ratio. cbv zeta.
  pose proof (Z.log2_spec p Hp) as [Hp1 Hp2].
  pose proof (Z.log2_spec q Hq) as [Hq1 Hq2].
  pose proof (Z.log2_nonneg p). pose proof (Z.log2_nonneg q).
  set (a := Z.log2 p) in *. set (b := Z.log2 q) in *.
  rewrite <- Z.add_1_r in Hp2, Hq2.
  fold (reaches 2 (a - b) p q).
  destruct (reaches 2 (a - b) p q) eqn:Hr.
  - split; [exact Hr|]. unfold reaches.
    destruct (Z.leb_spec 0 (a - b + 1)).
    + apply Z.leb_gt.
      assert (2 ^ (a + 1) = 2 ^ b * 2 ^ (a - b + 1)).
      { rewrite <- Z.pow_add_r by lia. f_equal. lia. }
      assert (0 < 2 ^ (a - b + 1)) by (apply Z.pow_pos_nonneg; lia). nia.
    + apply Z.leb_gt.
      assert (2 ^ b = 2 ^ (a + 1) * 2 ^ (- (a - b + 1))).
      { rewrite <- Z.pow_add_r by lia. f_equal. lia. }
      assert (0 < 2 ^ (- (a - b + 1))) by (apply Z.pow_pos_nonneg; lia). nia.
  - replace (a - b - 1 + 1) with (a - b) by lia. split; [|exact Hr].
    unfold reaches. destruct (Z.leb_spec 0 (a - b - 1)).
    + apply Z.leb_le.
      assert (2 ^ a = 2 ^ (b + 1) * 2 ^ (a - b - 1)).
      { rewrite <- Z.pow_add_r by lia. f_equal. lia. }
      assert (0 < 2 ^ (a - b - 1)) by (apply Z.pow_pos_nonneg; lia). nia.
    + apply Z.leb_le.
      assert (2 ^ (b + 1) = 2 ^ a * 2 ^ (- (a - b - 1))).
      { rewrite <- Z.pow_add_r by lia. f_equal. lia. }
      assert (0 < 2 ^ (- (a - b - 1))) by (apply Z.pow_pos_nonneg; lia). nia.
Qed.

Lemma reaches_unique b p q l l' :
  1 < b → 0 < p → 0 < q →
  reaches b l p q = true → reaches b (l + 1) p q = false →
  reaches b l' p q = true → reaches b (l' + 1) p q = false → l = l'.
Proof.
  intros Hb Hp Hq H1 H2 H3 H4.
  destruct (Z.lt_trichotomy l l') as [Hlt|[Heq|Hgt]]; [|exact Heq|].
  - rewrite (reaches_mono b p q Hb Hp Hq (l + 1) l' ltac:(lia) H3) in H2. discriminate.
  - rewrite (reaches_mono b p q Hb Hp Hq (l' + 1) l ltac:(lia) H1) in H4. discriminate.
Qed.

Lemma floor_log2_ratio_scale p q j :
  0 < p → 0 < q → 0 < j →
  float64.floor_log2_ratio (p * j) (q * j) = float64.floor_log2_ratio p q.
Proof.
  intros Hp Hq Hj.
  destruct (floor_log2_ratio_spec (p * j) (q * j) ltac:(nia) ltac:(nia)) as [H1 H2].
  destruct (floor_log2_ratio_spec p q Hp Hq) as [H3 H4].
  rewrite reaches_scale in H1, H2 by exact Hj.
  exact (reaches_unique 2 p q _ _ ltac:(lia) Hp Hq H1 H2 H3 H4).
Qed.

Lemma of_ratio_scale s p q j :
  0 <= p → 0 < q → 0 < j →
  float64.of_ratio s (p * j) (q * j) = float64.of_ratio s p q.
Proof.
  intros Hp Hq Hj. unfold float64.of_ratio.
  destruct (Z.eqb_spec p 0) as [->|Hp0]; [reflexivity|].
  destruct (Z.eqb_spec (p * j) 0); [nia|].
  rewrite floor_log2_ratio_scale by lia.
  set (e := Z.max _ _). cbv zeta.
  assert (Hm : (if 0 <=? e then float64.round_half_even (p * j) (q * j * 2 ^ e)
                else float64.round_half_even (p * j * 2 ^ (- e)) (q * j))
               = (if 0 <=? e then float64.round_half_even p (q * 2 ^ e)
                  else float64.round_half_even (p * 2 ^ (- e)) q)).
  { destruct (Z.leb_spec 0 e).
    - replace (q * j * 2 ^ e) with (q * 2 ^ e * j) by lia.
      apply round_half_even_scale; [|lia].
      assert (0 < 2 ^ e) by (apply Z.pow_pos_nonneg; lia). nia.
    - replace (p * j * 2 ^ (- e)) with (p * 2 ^ (- e) * j) by lia.
      apply round_half_even_scale; lia. }
  rewrite Hm. reflexivity.
Qed.

(** What reading back as [x] says about a ratio: it is within half a
    unit in the last place of [x]. *)
Lemma of_ratio_close s a b x :
  0 < a → 0 < b → float64.of_ratio s a b = Some x →
  float64.expo x < 0 → 0 < float64.mant x →
  - b <= 2 * (float64.mant x * b - a * 2 ^ (- float64.expo x)) <= b.
Proof.
  intros Ha Hb Hx HE HM. unfold float64.of_ratio in Hx.
  destruct (Z.eqb_spec a 0); [lia|].
  set (e := Z.max _ _) in Hx. cbv zeta in Hx.
  destruct (Z.leb_spec 0 e) as [He|He].
  - exfalso. set (m := float64.round_half_even _ _) in Hx.
    destruct (m =? 2 ^ 53).
    + destruct (971 <? e + 1); [discriminate|].
      destruct (2 ^ 52 =? 0); injection Hx as <-; cbn in HE, HM; lia.
    + destruct (971 <? e); [discriminate|].
      destruct (m =? 0); injection Hx as <-; cbn in HE, HM; lia.
  - assert (Hpow : 0 < 2 ^ (- e)) by (apply Z.pow_pos_nonneg; lia).
    destruct (round_half_even_spec (a * 2 ^ (- e)) b ltac:(nia) Hb) as [Hc _].
    set (m := float64.round_half_even _ _) in *.
    destruct (Z.eqb_spec m (2 ^ 53)) as [Hm|Hm].
    + destruct (971 <? e + 1); [discriminate|].
      destruct (2 ^ 52 =? 0); injection Hx as <-; cbn [float64.expo float64.mant] in *;
        [lia|].
      replace (- e) with (- (e + 1) + 1) in Hc by lia.
      rewrite Z.pow_add_r, Z.pow_1_r in Hc by lia.
      rewrite Hm in Hc. pow_consts.
      set (T := 2 ^ (- (e + 1))) in *. lia.
    + destruct (971 <? e); [discriminate|].
      destruct (m =? 0); injection Hx as <-; cbn [float64.expo float64.mant] in *;
        [lia|]. exact Hc.
Qed.

(** The float of a short decimal [m / 10^f]: normal, with a negative
    exponent. *)
Lemma of_ratio_short s m f :
  0 < m < 10 ^ 15 → 0 <= f <= 15 →
  ∃ x, float64.of_ratio s m (10 ^ f) = Some x
       ∧ float64.sign x = s ∧ 2 ^ 52 <= float64.mant x ∧ float64.expo x < 0.
Proof.
  intros Hm Hf.
  assert (HF : 0 < 10 ^ f) by (apply Z.pow_pos_nonneg; lia).
  assert (HF15 : 10 ^ f <= 10 ^ 15) by (apply Z.pow_le_mono_r; lia).
  destruct (floor_log2_ratio_spec m (10 ^ f) ltac:(lia) HF) as [Hr Hnr].
  unfold float64.of_ratio. destruct (Z.eqb_spec m 0); [lia|].
  set (l := float64.floor_log2_ratio m (10 ^ f)) in *.
  change (10 ^ 15) with 1000000000000000 in *.
  assert (Hl : -50 <= l <= 49).
  { split.
    - destruct (Z.le_gt_cases (-50) l) as [H|H]; [exact H|]. exfalso.
      unfold reaches in Hnr. destruct (Z.leb_spec 0 (l + 1)); [lia|].
      apply Z.leb_gt in Hnr.
      assert (2 ^ 50 <= 2 ^ (- (l + 1))) by (apply Z.pow_le_mono_r; lia).
      change (2 ^ 50) with 1125899906842624 in *. nia.
    - destruct (Z.le_gt_cases l 49) as [H|H]; [exact H|]. exfalso.
      unfold reaches in Hr. destruct (Z.leb_spec 0 l); [|lia].
      apply Z.leb_le in Hr.
      assert (2 ^ 50 <= 2 ^ l) by (apply Z.pow_le_mono_r; lia).
      change (2 ^ 50) with 1125899906842624 in *. nia. }
  rewrite Z.max_l by lia. cbv zeta.
  destruct (Z.leb_spec 0 (l - 52)); [lia|].
  replace (- (l - 52)) with (52 - l) by lia.
  assert (Hpow : 0 < 2 ^ (52 - l)) by (apply Z.pow_pos_nonneg; lia).
  assert (Hlow : 2 ^ 52 * 10 ^ f <= m * 2 ^ (52 - l)).
  { unfold reaches in Hr. destruct (Z.leb_spec 0 l).
    - apply Z.leb_le in Hr.
      replace (2 ^ 52) with (2 ^ l * 2 ^ (52 - l))
        by (rewrite <- Z.pow_add_r by lia; f_equal; lia). nia.
    - apply Z.leb_le in Hr.
      replace (2 ^ (52 - l)) with (2 ^ 52 * 2 ^ (- l))
        by (rewrite <- Z.pow_add_r by lia; f_equal; lia). nia. }
  destruct (round_half_even_spec (m * 2 ^ (52 - l)) (10 ^ f) ltac:(nia) HF) as [_ [Hge _]].
  assert (Hdiv : 2 ^ 52 <= m * 2 ^ (52 - l) / 10 ^ f)
    by (apply Z.div_le_lower_bound; lia).
  set (r := float64.round_half_even _ _) in *.
  pow_consts.
  destruct (Z.eqb_spec r 9007199254740992).
  - destruct (Z.ltb_spec 971 (l - 52 + 1)); [lia|].
    destruct (Z.eqb_spec 4503599627370496 0); [lia|].
    eexists. split; [reflexivity|]. cbn [float64.sign float64.mant float64.expo].
    split; [reflexivity|]. lia.
  - destruct (Z.ltb_spec 971 (l - 52)); [lia|].
    destruct (Z.eqb_spec r 0); [lia|].
    eexists. split; [reflexivity|]. cbn [float64.sign float64.mant float64.expo].
    split; [reflexivity|]. lia.
Qed.

(** [floor (log10 (p / q))] is what its name says. *)
Lemma floor_log10_ratio_spec p q :
  0 < p → 0 < q →
  reaches 10 (float64.floor_log10_ratio p q) p q = true
  ∧ reaches 10 (float64.floor_log10_ratio p q + 1) p q = false.
Proof.
  intros Hp Hq. unfold float64.floor_log10_ratio.
  destruct (Z.leb_spec q p) as [Hle|Hlt].
  - assert (Hn : 0 < p / q) by (apply Z.div_str_pos; lia).
    destruct (ndigits_spec (p / q) Hn) as (HD & Hlo & Hhi).
    set (D := float64.ndigits (p / q)) in *.
    pose proof (Z.mul_div_le p q Hq). pose proof (Z.mul_succ_div_gt p q Hq).
    unfold reaches. replace (D - 1 + 1) with D by lia.
    destruct (Z.leb_spec 0 (D - 1)); [|lia]. destruct (Z.leb_spec 0 D); [|lia].
    split; [apply Z.leb_le | apply Z.leb_gt]; nia.
  - set (c := (q + p - 1) / p).
    pose proof (Z.mul_div_le (q + p - 1) p Hp). pose proof (Z.mul_succ_div_gt (q + p - 1) p Hp).
    fold c in H, H0.
    assert (Hn : 0 < c - 1) by nia.
    destruct (ndigits_spec (c - 1) Hn) as (HD & Hlo & Hhi).
    set (D := float64.ndigits (c - 1)) in *.
    unfold reaches.
    destruct (Z.leb_spec 0 (- D)); [lia|].
    replace (- - D) with D by lia.
    split; [apply Z.leb_le; nia|].
    destruct (Z.leb_spec 0 (- D + 1)).
    + replace (- D + 1) with 0 by lia. rewrite Z.pow_0_r. apply Z.leb_gt. lia.
    + replace (- (- D + 1)) with (D - 1) by lia. apply Z.leb_gt. nia.
Qed.

Lemma float64_eqb_eq x y : float64.eqb x y = true → x = y.
Proof.
  destruct x as [sx mx ex], y as [sy my ey]. unfold float64.eqb.
  cbn [float64.sign float64.mant float64.expo]. intros H.
  apply andb_true_iff in H as [H He]. apply andb_true_iff in H as [Hs Hm].
  apply Z.eqb_eq in He, Hm. apply Bool.eqb_prop in Hs. subst. reflexivity.
Qed.

Lemma same_decimal_at N c k m e :
  N <= k → N <= e →
  same_decimal c k m e ↔ c * 10 ^ (k - N) = m * 10 ^ (e - N).
Proof.
  intros Hk He. unfold same_decimal.
  set (lo := Z.min k e).
  assert (HN : N <= lo) by (subst lo; lia).
  assert (Hp : 0 < 10 ^ (lo - N)) by (apply Z.pow_pos_nonneg; lia).
  replace (k - N) with ((k - lo) + (lo - N)) by lia.
  replace (e - N) with ((e - lo) + (lo - N)) by lia.
  rewrite !Z.pow_add_r by (subst lo; lia).
  split; intros H; nia.
Qed.

Lemma truncate_digits_range p q nd :
  0 < p → 0 < q → 1 <= nd →
  ∃ lo half,
    let k := float64.floor_log10_ratio p q - nd + 1 in
    float64.truncate_digits p q nd = (lo, half, k)
    ∧ 10 ^ (nd - 1) <= lo < 10 ^ nd
    ∧ (if 0 <=? k then lo * (q * 10 ^ k) <= p < (lo + 1) * (q * 10 ^ k)
       else lo * q <= p * 10 ^ (- k) < (lo + 1) * q).
Proof.
  intros Hp Hq Hnd. destruct (floor_log10_ratio_spec p q Hp Hq) as [Hr Hnr].
  unfold float64.truncate_digits.
  set (fl := float64.floor_log10_ratio p q) in *.
  replace (fl - (nd - 1)) with (fl - nd + 1) by lia.
  cbv zeta. set (k := fl - nd + 1).
  assert (Hnd1 : 0 < 10 ^ (nd - 1)) by (apply Z.pow_pos_nonneg; lia).
  assert (Hnd10 : 10 ^ nd = 10 * 10 ^ (nd - 1)).
  { replace nd with (1 + (nd - 1)) at 1 by lia. rewrite Z.pow_add_r by lia. reflexivity. }
  unfold reaches in Hr, Hnr.
  destruct (Z.leb_spec 0 k) as [Hk|Hk].
  - (* fl >= 0, k >= 0 *)
    destruct (Z.leb_spec 0 fl); [|lia]. destruct (Z.leb_spec 0 (fl + 1)); [|lia].
    apply Z.leb_le in Hr. apply Z.leb_gt in Hnr.
    assert (Hk10 : 0 < 10 ^ k) by (apply Z.pow_pos_nonneg; lia).
    assert (Hfl : 10 ^ fl = 10 ^ k * 10 ^ (nd - 1)).
    { rewrite <- Z.pow_add_r by lia. f_equal. lia. }
    assert (Hfl1 : 10 ^ (fl + 1) = 10 ^ k * 10 ^ nd).
    { rewrite <- Z.pow_add_r by lia. f_equal. lia. }
    rewrite Hfl in Hr. rewrite Hfl1 in Hnr.
    pose proof (Z.mul_div_le p (q * 10 ^ k) ltac:(nia)) as Hd1.
    pose proof (Z.mul_succ_div_gt p (q * 10 ^ k) ltac:(nia)) as Hd2.
    eexists _, _. split; [reflexivity|].
    set (lo := p / (q * 10 ^ k)) in *.
    split; [|nia].
    split.
    + apply Z.div_le_lower_bound; nia.
    + apply Z.div_lt_upper_bound; nia.
  - assert (Hk10 : 0 < 10 ^ (- k)) by (apply Z.pow_pos_nonneg; lia).
    pose proof (Z.mul_div_le (p * 10 ^ (- k)) q Hq) as Hd1.
    pose proof (Z.mul_succ_div_gt (p * 10 ^ (- k)) q Hq) as Hd2.
    eexists _, _. split; [reflexivity|].
    set (lo := p * 10 ^ (- k) / q) in *.
    split; [|nia].
    destruct (Z.leb_spec 0 fl) as [Hfl|Hfl].
    + (* fl >= 0, k < 0 *)
      destruct (Z.leb_spec 0 (fl + 1)); [|lia].
      apply Z.leb_le in Hr. apply Z.leb_gt in Hnr.
      assert (He1 : 10 ^ (nd - 1) = 10 ^ fl * 10 ^ (- k)).
      { rewrite <- Z.pow_add_r by lia. f_equal. lia. }
      assert (He2 : 10 ^ nd = 10 ^ (fl + 1) * 10 ^ (- k)).
      { rewrite <- Z.pow_add_r by lia. f_equal. lia. }
      split.
      * apply Z.div_le_lower_bound; [lia|]. rewrite He1. nia.
      * apply Z.div_lt_upper_bound; [lia|]. rewrite He2. nia.
    + (* fl < 0 *)
      apply Z.leb_le in Hr.
      assert (Hup : p * 10 ^ (- fl - 1) < q).
      { destruct (Z.leb_spec 0 (fl + 1)).
        - replace (- fl - 1) with 0 by lia. replace (fl + 1) with 0 in Hnr by lia.
          rewrite Z.pow_0_r in *. apply Z.leb_gt in Hnr. lia.
        - apply Z.leb_gt in Hnr. replace (- fl - 1) with (- (fl + 1)) by lia. exact Hnr. }
      assert (He1 : 10 ^ (- k) = 10 ^ (- fl) * 10 ^ (nd - 1)).
      { rewrite <- Z.pow_add_r by lia. f_equal. lia. }
      assert (He2 : 10 ^ (- k) = 10 ^ (- fl - 1) * 10 ^ nd).
      { rewrite <- Z.pow_add_r by lia. f_equal. lia. }
      assert (Hnd0 : 0 < 10 ^ nd) by lia.
      split.
      * apply Z.div_le_lower_bound; [lia|]. rewrite He1. nia.
      * apply Z.div_lt_upper_bound; [lia|]. rewrite He2. nia.
Qed.

Section ShortDecimal.

Variables (s : bool) (m f : Z) (x : float64.t).
Hypothesis Hm : 0 < m < 10 ^ 15.
Hypothesis Hf : 0 <= f <= 14.
Hypothesis Hx : float64.of_ratio s m (10 ^ f) = Some x.

(** The float of the decimal: its mantissa [M], the denominator
    [B = 2^-expo] of its value [M / B], and how close [M / B] is to
    [m / F], [F = 10^f]. *)
Lemma short_float_facts :
  float64.sign x = s ∧ 2 ^ 52 <= float64.mant x ∧ float64.expo x < 0
  ∧ 0 < 2 ^ (- float64.expo x) ∧ 0 < 10 ^ f
  ∧ - 10 ^ f
    <= 2 * (float64.mant x * 10 ^ f - m * 2 ^ (- float64.expo x)) <= 10 ^ f
  ∧ 10 ^ f < 2 ^ (- float64.expo x)
  ∧ float64.mant x * 10 ^ f < 10 ^ 15 * 2 ^ (- float64.expo x)
  ∧ float64.to_ratio x = (float64.mant x, 2 ^ (- float64.expo x)).
Proof.
  set (M := float64.mant x). set (B := 2 ^ (- float64.expo x)). set (F := 10 ^ f).
  destruct (of_ratio_short s m f Hm ltac:(lia)) as (x' & Hx' & Hs & HM & HE).
  rewrite Hx in Hx'. injection Hx' as <-.
  assert (HF : 0 < F) by (apply Z.pow_pos_nonneg; lia).
  assert (HB : 0 < B) by (apply Z.pow_pos_nonneg; lia).
  pose proof (of_ratio_close s m (10 ^ f) x ltac:(lia) HF Hx HE ltac:(pow_consts; lia)) as Hc.
  fold M B F in Hc, HM.
  change (10 ^ 15) with 1000000000000000 in *. pow_consts.
  assert (HFB : F < B).
  { destruct (Z.lt_ge_cases F B) as [H|H]; [exact H|]. exfalso.
    assert (m * B <= m * F) by nia. nia. }
  split; [exact Hs|]. split; [exact HM|]. split; [exact HE|].
  split; [exact HB|]. split; [exact HF|]. split; [exact Hc|]. split; [exact HFB|].
  split; [nia|].
  unfold float64.to_ratio. destruct (Z.leb_spec 0 (float64.expo x)); [lia | reflexivity].
Qed.

(** A candidate below 10^15 that reads back as [x] is the decimal. *)
Lemma reads_back_same c k :
  0 < c <= 10 ^ 15 →
  match float64.of_decimal s c k with
  | Some y => float64.eqb x y
  | None => false
  end = true →
  same_decimal c k m (- f).
Proof.
  intros Hc Hrb.
  destruct short_float_facts as (Hs & HM & HE & HB & HF & Hv & HFB & _ & _).
  set (M := float64.mant x) in *. set (B := 2 ^ (- float64.expo x)) in *.
  set (F := 10 ^ f) in *.
  destruct (float64.of_decimal s c k) as [y|] eqn:Hy; [|discriminate].
  apply float64_eqb_eq in Hrb. subst y.
  unfold float64.of_decimal, float64.ratio_of_decimal in Hy.
  change (10 ^ 15) with 1000000000000000 in *. pow_consts.
  destruct (Z.leb_spec 0 k) as [Hk|Hk].
  - assert (Hk10 : 0 < 10 ^ k) by (apply Z.pow_pos_nonneg; lia).
    pose proof (of_ratio_close s (c * 10 ^ k) 1 x ltac:(nia) ltac:(lia) Hy HE ltac:(lia))
      as Hw.
    fold M B in Hw.
    apply (same_decimal_at (- f)); [lia | lia|].
    replace (- f - - f) with 0 by lia. rewrite Z.pow_0_r, Z.mul_1_r.
    replace (k - - f) with (k + f) by lia. rewrite Z.pow_add_r by lia. fold F.
    set (a := c * 10 ^ k) in *.
    assert (HMa : M = a * B) by lia.
    rewrite HMa in Hv.
    assert (Hd : - F <= 2 * B * (a * F - m) <= F) by lia.
    destruct (Z.lt_trichotomy (a * F) m) as [Hlt|[Heq|Hgt]]; [exfalso; nia | lia | exfalso; nia].
  - set (K := 10 ^ (- k)) in *.
    assert (HK : 0 < K) by (apply Z.pow_pos_nonneg; lia).
    pose proof (of_ratio_close s c K x ltac:(lia) HK Hy HE ltac:(lia)) as Hw.
    fold M B in Hw.
    destruct (Z.le_gt_cases (- f) k) as [Hfk|Hfk].
    + apply (same_decimal_at (- f)); [lia | lia|].
      replace (- f - - f) with 0 by lia. rewrite Z.pow_0_r, Z.mul_1_r.
      replace (k - - f) with (k + f) by lia.
      set (J := 10 ^ (k + f)).
      assert (HJ : 0 < J) by (apply Z.pow_pos_nonneg; lia).
      assert (HFK : F = K * J).
      { unfold F, K, J. rewrite <- Z.pow_add_r by lia. f_equal. lia. }
      assert (Hw' : - F <= 2 * (M * F - c * J * B) <= F) by (rewrite HFK; nia).
      assert (Hd : - (2 * F) <= 2 * B * (c * J - m) <= 2 * F) by lia.
      destruct (Z.lt_trichotomy (c * J) m) as [Hlt|[Heq|Hgt]];
        [exfalso; nia | lia | exfalso; nia].
    + apply (same_decimal_at k); [lia | lia|].
      replace (k - k) with 0 by lia. rewrite Z.pow_0_r, Z.mul_1_r.
      set (J := 10 ^ (- f - k)).
      assert (HJ : 0 < J) by (apply Z.pow_pos_nonneg; lia).
      assert (HKF : K = F * J).
      { unfold F, K, J. rewrite <- Z.pow_add_r by lia. f_equal. lia. }
      assert (Hv' : - K <= 2 * (M * K - m * J * B) <= K) by (rewrite HKF; nia).
      assert (HKB : K < B).
      { destruct (Z.lt_ge_cases K B) as [H|H]; [exact H|]. exfalso.
        assert (c * B <= c * K) by nia. nia. }
      assert (Hd : - (2 * K) <= 2 * B * (c - m * J) <= 2 * K) by lia.
      destruct (Z.lt_trichotomy c (m * J)) as [Hlt|[Heq|Hgt]];
        [exfalso; nia | lia | exfalso; nia].
Qed.

Lemma short_float_log10 :
  float64.floor_log10_ratio (float64.mant x) (2 ^ (- float64.expo x)) <= 14 - f.
Proof.
  destruct short_float_facts as (Hs & HM & HE & HB & HF & Hv & HFB & HMF & _).
  set (M := float64.mant x) in *. set (B := 2 ^ (- float64.expo x)) in *.
  set (F := 10 ^ f) in *.
  assert (HM0 : 0 < M) by (pow_consts; lia).
  destruct (floor_log10_ratio_spec M B HM0 HB) as [Hr _].
  set (fl := float64.floor_log10_ratio M B) in *.
  destruct (Z.le_gt_cases fl (14 - f)) as [H|H]; [exact H|]. exfalso.
  unfold reaches in Hr. destruct (Z.leb_spec 0 fl); [|lia]. apply Z.leb_le in Hr.
  assert (H15 : 10 ^ 15 = 10 ^ (15 - f) * F).
  { unfold F. rewrite <- Z.pow_add_r by lia. f_equal. lia. }
  assert (Hmono : 10 ^ (15 - f) <= 10 ^ fl) by (apply Z.pow_le_mono_r; lia).
  rewrite H15 in HMF. nia.
Qed.

(** Once the digits reach the last digit of the decimal, the decimal is
    one of the two candidates, and it reads back. *)
Lemma short_decimal_found nd lo :
  1 <= nd <= 15 →
  let M := float64.mant x in
  let B := 2 ^ (- float64.expo x) in
  let k := float64.floor_log10_ratio M B - nd + 1 in
  k <= - f →
  10 ^ (nd - 1) <= lo < 10 ^ nd →
  (if 0 <=? k then lo * (B * 10 ^ k) <= M < (lo + 1) * (B * 10 ^ k)
   else lo * B <= M * 10 ^ (- k) < (lo + 1) * B) →
  ∃ c, (c = lo ∨ c = lo + 1)
       ∧ match float64.of_decimal s c k with
         | Some y => float64.eqb x y
         | None => false
         end = true.
Proof.
  intros Hnd M B k Hk Hlo Htr.
  destruct short_float_facts as (Hs & HM & HE & HB & HF & Hv & HFB & HMF & _).
  fold M B in HM, HB, Hv, HFB, HMF. set (F := 10 ^ f) in *.
  set (J := 10 ^ (- f - k)).
  assert (HJ : 0 < J) by (apply Z.pow_pos_nonneg; lia).
  set (K := 10 ^ (- k)).
  assert (HK : 0 < K) by (apply Z.pow_pos_nonneg; lia).
  assert (HKF : K = F * J).
  { unfold F, K, J. rewrite <- Z.pow_add_r by lia. f_equal. lia. }
  assert (Htr' : lo * B <= M * K < (lo + 1) * B).
  { destruct (Z.leb_spec 0 k).
    - assert (k = 0) by lia. unfold K. replace (- k) with 0 by lia.
      replace (10 ^ k) with 1 in Htr by (replace k with 0 by lia; reflexivity).
      rewrite Z.pow_0_r. lia.
    - exact Htr. }
  assert (Hnd15 : 10 ^ nd <= 10 ^ 15) by (apply Z.pow_le_mono_r; lia).
  change (10 ^ 15) with 1000000000000000 in *. pow_consts.
  assert (HKB : K < B).
  { destruct (Z.lt_ge_cases K B) as [H|H]; [exact H|]. exfalso.
    assert (M * B <= M * K) by nia. nia. }
  assert (Hv' : - K <= 2 * (M * K - m * J * B) <= K) by (rewrite HKF; nia).
  exists (m * J). split.
  - assert (Hd : lo <= m * J <= lo + 1).
    { split.
      - destruct (Z.le_gt_cases lo (m * J)) as [H|H]; [exact H|]. exfalso.
        assert (m * J * B <= (lo - 1) * B) by nia. nia.
      - destruct (Z.le_gt_cases (m * J) (lo + 1)) as [H|H]; [exact H|]. exfalso.
        assert ((lo + 2) * B <= m * J * B) by nia. nia. }
    lia.
  - assert (Hrb : float64.of_decimal s (m * J) k = Some x).
    { unfold float64.of_decimal, float64.ratio_of_decimal.
      destruct (Z.leb_spec 0 k).
      - assert (k = 0) by lia. assert (f = 0) by lia.
        unfold J. replace (- f - k) with 0 by lia. replace k with 0 by lia.
        rewrite Z.pow_0_r, !Z.mul_1_r. rewrite <- Hx. unfold F. replace f with 0 by lia.
        reflexivity.
      - fold K. rewrite HKF. unfold F. rewrite of_ratio_scale by lia. exact Hx. }
    rewrite Hrb. apply float64_eqb_refl.
Qed.

Lemma shortest_from_short :
  ∀ fuel nd, 1 <= nd <= 15 → 15 - nd < Z.of_nat fuel →
    ∃ d k, float64.shortest_from fuel nd x = (d, k)
           ∧ 0 < d ∧ same_decimal d k m (- f).
Proof.
  destruct short_float_facts as (Hs & HM & HE & HB & HF & Hv & HFB & HMF & Hratio).
  pose proof short_float_log10 as Hfl.
  set (M := float64.mant x) in *. set (B := 2 ^ (- float64.expo x)) in *.
  set (F := 10 ^ f) in *.
  assert (HM0 : 0 < M) by (pow_consts; lia).
  induction fuel as [|fuel IH]; intros nd Hnd Hfuel; [lia|].
  cbn [float64.shortest_from]. rewrite Hratio.
  destruct (truncate_digits_range M B nd HM0 HB ltac:(lia))
    as (lo & half & Ht & Hlo & Htr).
  cbv zeta in Ht, Htr. rewrite Ht. rewrite Hs.
  set (k := float64.floor_log10_ratio M B - nd + 1) in *.
  assert (Hnd1 : 0 < 10 ^ (nd - 1)) by (apply Z.pow_pos_nonneg; lia).
  assert (Hnd15 : 10 ^ nd <= 10 ^ 15) by (apply Z.pow_le_mono_r; lia).
  set (rb := λ c, match float64.of_decimal s c k with
                  | Some y => float64.eqb x y
                  | None => false
                  end).
  assert (Hsame : ∀ c, (c = lo ∨ c = lo + 1) → rb c = true →
                       0 < c ∧ same_decimal c k m (- f)).
  { intros c Hc Hrb. split; [lia|]. apply reads_back_same; [lia | exact Hrb]. }
  change (match float64.of_decimal s lo k with
          | Some y => float64.eqb x y
          | None => false
          end) with (rb lo).
  change (match float64.of_decimal s (lo + 1) k with
          | Some y => float64.eqb x y
          | None => false
          end) with (rb (lo + 1)).
  destruct (rb lo) eqn:Hrlo; destruct (rb (lo + 1)) eqn:Hrhi.
  - eexists _, _. split; [reflexivity|].
    destruct half; [destruct (Z.even lo)| |];
      apply Hsame; auto.
  - eexists _, _. split; [reflexivity|]. apply Hsame; auto.
  - eexists _, _. split; [reflexivity|]. apply Hsame; auto.
  - destruct (Z.le_gt_cases k (- f)) as [Hk|Hk].
    + exfalso.
      destruct (short_decimal_found nd lo Hnd Hk Hlo Htr) as (c & Hor & Hc).
      change (rb c = true) in Hc. destruct Hor as [-> | ->]; congruence.
    + apply IH; lia.
Qed.

Lemma shortest_short :
  ∃ d k, float64.shortest x = (d, k) ∧ 0 < d ∧ same_decimal d k m (- f).
Proof. apply shortest_from_short; lia. Qed.

End ShortDecimal.

(** *** Reading a formatted number *)

Lemma span_digits_stop a b :
  Bytes.all_digits a = true → stops b = true → json.span_digits (a ++ b) = (a, b).
Proof.
  intros Ha Hb. induction a as [|c a IH].
  - change ("" ++ b) with b. destruct b as [|c b]; [reflexivity|].
    cbn [stops] in Hb. apply negb_true_iff in Hb.
    cbn [json.span_digits]. rewrite Hb. reflexivity.
  - cbn [Bytes.all_digits] in Ha. apply andb_true_iff in Ha as [Hc Ha].
    rewrite append_cons. cbn [json.span_digits]. rewrite Hc, (IH Ha). reflexivity.
Qed.

Lemma int_part_stop a b :
  Bytes.all_digits a = true → a ≠ "" → leading_zero a = false → stops b = true →
  json.int_part (a ++ b) = Some (a, b).
Proof.
  intros Ha Hne Hz Hb. unfold json.int_part. rewrite (span_digits_stop a b Ha Hb).
  destruct a as [|c [|c' r]]; [contradiction| |].
  - destruct c as [[] [] [] [] [] [] [] []]; reflexivity.
  - destruct c as [[] [] [] [] [] [] [] []]; try reflexivity. discriminate Hz.
Qed.

Lemma frac_part_dot a b :
  Bytes.all_digits a = true → a ≠ "" → stops b = true →
  json.frac_part (String "." (a ++ b)) = Some (a, b).
Proof.
  intros Ha Hne Hb. cbn [json.frac_part]. rewrite (span_digits_stop a b Ha Hb).
  destruct a; [contradiction | reflexivity].
Qed.

Lemma substring_split s : ∀ n m,
  (n <= String.length s)%nat → (String.length s <= n + m)%nat →
  substring 0 n s ++ substring n m s = s
  ∧ String.length (substring 0 n s) = n.
Proof.
  induction s as [|c s IH]; intros n m Hn Hm.
  - cbn in Hn. assert (n = 0%nat) by lia. subst n. destruct m; split; reflexivity.
  - destruct n as [|n].
    + cbn [String.length] in Hm. destruct m as [|m]; [lia|].
      cbn [substring]. change ("" ++ ?x) with x.
      destruct (IH 0%nat m ltac:(lia) ltac:(cbn; lia)) as [H _].
      assert (H0 : substring 0 0 s = "") by (destruct s; reflexivity).
      rewrite H0 in H. change ("" ++ ?x) with x in H. rewrite H.
      split; reflexivity.
    + cbn [String.length] in Hn, Hm. cbn [substring]. rewrite append_cons.
      destruct (IH n m ltac:(lia) ltac:(lia)) as [H Hl].
      rewrite H. cbn [String.length]. rewrite Hl. split; reflexivity.
Qed.

Lemma digits_value_leading_zeros j d :
  Bytes.digits_value 0 (json.zeros j ++ d) = Bytes.digits_value 0 d.
Proof.
  induction j as [|j IH]; [reflexivity|].
  cbn [json.zeros]. rewrite append_cons. cbn [Bytes.digits_value].
  change (Bytes.code "0") with 48. exact IH.
Qed.

(** The digits kept by the printer: those of [d] without its trailing
    zeros. *)
Lemma stripped_digits d :
  0 < d →
  ∃ j c rest,
    pretty d = json.strip_trailing_zeros (pretty d) ++ json.zeros j
    ∧ String.length (pretty d)
      = (String.length (json.strip_trailing_zeros (pretty d)) + j)%nat
    ∧ json.strip_trailing_zeros (pretty d) = String c rest
    ∧ Bytes.code c ≠ 48
    ∧ Bytes.all_digits (json.strip_trailing_zeros (pretty d)) = true
    ∧ d = Bytes.digits_value 0 (json.strip_trailing_zeros (pretty d)) * 10 ^ Z.of_nat j.
Proof.
  intros Hd. destruct (pretty_pos_digits d Hd) as (Hall & Hval & c & rest & HP & Hc).
  destruct (strip_trailing_zeros_spec (pretty d)) as (j & Hj & Hlen).
  set (ds := json.strip_trailing_zeros (pretty d)) in *.
  assert (Hds : Bytes.all_digits ds = true).
  { rewrite Hj, all_digits_app in Hall. apply andb_true_iff in Hall as [H _]. exact H. }
  exists j.
  destruct ds as [|c' rest'] eqn:Eds.
  - exfalso. change ("" ++ json.zeros j) with (json.zeros j) in Hj.
    rewrite HP in Hj. destruct j; [discriminate|].
    cbn [json.zeros] in Hj. injection Hj as -> _. apply Hc. reflexivity.
  - exists c', rest'. split; [exact Hj|]. split; [exact Hlen|]. split; [reflexivity|].
    split.
    + rewrite HP, append_cons in Hj. injection Hj as -> _. exact Hc.
    + split; [exact Hds|].
      rewrite <- Hval at 1. rewrite Hj at 1.
      rewrite digits_value_app, digits_value_zeros. reflexivity.
Qed.

Lemma number_of_literal_sign neg c r :
  Bytes.is_digit c = true →
  json.number_of_literal ((if neg : bool then "-" else "") ++ String c r)
  = unsigned_literal neg (String c r).
Proof.
  intros Hc. destruct neg.
  - reflexivity.
  - change ("" ++ String c r) with (String c r).
    apply number_of_literal_pos, digit_not_dash, Hc.
Qed.

(** The grammar on a number put together from its parts. *)
Lemma unsigned_literal_parts neg a b ex e :
  Bytes.all_digits a = true → a ≠ "" → leading_zero a = false →
  Bytes.all_digits b = true →
  (ex = "" ∨ ∃ r, ex = String "e" r) → json.exp_part ex = Some e →
  unsigned_literal neg (a ++ (if (b =? "")%string then "" else "." ++ b) ++ ex)
  = Some (neg, Bytes.digits_value 0 (a ++ b), e - Z.of_nat (String.length b)).
Proof.
  intros Ha Hne Hz Hb Hex He.
  assert (Hstop : stops ex = true) by (destruct Hex as [->|[r ->]]; reflexivity).
  assert (Hfrac : json.frac_part ex = Some ("", ex))
    by (destruct Hex as [->|[r ->]]; reflexivity).
  unfold unsigned_literal.
  destruct (String.eqb_spec b "") as [->|Hbne].
  - change ("" ++ ex) with ex.
    rewrite (int_part_stop a ex Ha Hne Hz Hstop). cbn [mbind option_bind].
    rewrite Hfrac. cbn [mbind option_bind]. rewrite He. cbn [mbind option_bind].
    cbn [String.length]. reflexivity.
  - change (("." ++ b) ++ ex) with (String "." (b ++ ex)).
    rewrite (int_part_stop a (String "." (b ++ ex)) Ha Hne Hz eq_refl).
    cbn [mbind option_bind].
    rewrite (frac_part_dot b ex Hb Hbne Hstop). cbn [mbind option_bind].
    rewrite He. reflexivity.
Qed.

Lemma same_decimal_refl c k : same_decimal c k c k.
Proof. reflexivity. Qed.

Lemma same_decimal_shift V e v j k :
  0 <= j → same_decimal V e v (j + k) → same_decimal V e (v * 10 ^ j) k.
Proof.
  intros Hj H.
  apply (same_decimal_at (Z.min e k)) in H; [|lia..].
  apply (same_decimal_at (Z.min e k)); [lia..|].
  rewrite H. replace (j + k - Z.min e k) with (j + (k - Z.min e k)) by lia.
  rewrite Z.pow_add_r by lia. lia.
Qed.

Lemma substring_0_ge s : ∀ m, (String.length s <= m)%nat → substring 0 m s = s.
Proof.
  induction s as [|c s IH]; intros m Hm; [destruct m; reflexivity|].
  cbn [String.length] in Hm. destruct m as [|m]; [lia|].
  cbn [substring]. rewrite IH by lia. reflexivity.
Qed.

(** [%f] denotes [0.ds * 10^dp]. *)
Lemma fmtF_value neg ds dp c rest :
  ds = String c rest → Bytes.code c ≠ 48 → Bytes.all_digits ds = true →
  ∃ V e, json.number_of_literal ((if neg : bool then "-" else "") ++ json.fmtF ds dp)
         = Some (neg, V, e)
         ∧ same_decimal V e (Bytes.digits_value 0 ds) (dp - Z.of_nat (String.length ds)).
Proof.
  intros Hds Hc Hall.
  assert (Hcd : Bytes.is_digit c = true).
  { rewrite Hds in Hall. cbn [Bytes.all_digits] in Hall.
    apply andb_true_iff in Hall as [H _]. exact H. }
  unfold json.fmtF. cbv zeta.
  set (nd := Z.of_nat (String.length ds)).
  assert (Hnd : 1 <= nd) by (subst nd; rewrite Hds; cbn [String.length]; lia).
  destruct (Z.ltb_spec 0 dp) as [Hpos|Hnpos].
  - destruct (Z.ltb_spec dp nd) as [Hlt|Hge].
    + (* digits on both sides of the point *)
      rewrite Z.min_r by lia.
      replace (Z.to_nat (dp - nd)) with 0%nat by lia.
      replace (Z.to_nat (- dp)) with 0%nat by lia.
      cbn [json.zeros]. rewrite append_nil_r. change ("" ++ ?u) with u.
      destruct (substring_split ds (Z.to_nat dp) (String.length ds) ltac:(lia) ltac:(lia))
        as [Hsplit Hlen].
      set (a := substring 0 (Z.to_nat dp) ds) in *.
      set (b := substring (Z.to_nat dp) (String.length ds) ds) in *.
      assert (Hab : Bytes.all_digits a = true ∧ Bytes.all_digits b = true).
      { rewrite <- Hsplit, all_digits_app in Hall. apply andb_true_iff in Hall. exact Hall. }
      destruct Hab as [Ha Hb].
      assert (Hlenb : String.length b = (String.length ds - Z.to_nat dp)%nat).
      { rewrite <- Hsplit at 1. rewrite length_append, Hlen. lia. }
      assert (Hbne : b ≠ "") by (intros E; rewrite E in Hlenb; cbn in Hlenb; lia).
      destruct a as [|ca ra] eqn:Ea; [cbn in Hlen; lia|].
      assert (Hca : ca = c).
      { rewrite Hds, append_cons in Hsplit. injection Hsplit as -> _. reflexivity. }
      subst ca.
      pose proof (unsigned_literal_parts neg (String c ra) b "" 0 Ha ltac:(discriminate)
                    (leading_nonzero c ra Hc) Hb ltac:(left; reflexivity) eq_refl) as Hu.
      rewrite append_nil_r in Hu.
      destruct (String.eqb_spec b "") as [Hb0|_]; [contradiction|].
      rewrite append_cons. rewrite number_of_literal_sign by exact Hcd.
      rewrite <- append_cons. rewrite Hu. eexists _, _. split; [reflexivity|].
      rewrite Hsplit. replace (0 - Z.of_nat (String.length b)) with (dp - nd) by lia.
      apply same_decimal_refl.
    + (* an integer *)
      rewrite Z.min_l by lia. subst nd. rewrite Nat2Z.id, substring_all, append_nil_r.
      rewrite number_of_literal_signed.
      * eexists _, _. split; [reflexivity|].
        rewrite digits_value_app, digits_value_zeros, Z2Nat.id by lia.
        apply (same_decimal_at 0); [lia..|].
        rewrite !Z.sub_0_r, Z.pow_0_r. lia.
      * rewrite all_digits_app, Hall, all_digits_zeros. reflexivity.
      * rewrite Hds, append_cons. discriminate.
      * rewrite Hds, append_cons. apply leading_nonzero, Hc.
  - (* below one *)
    destruct (Z.ltb_spec dp nd) as [_|Hge]; [|lia].
    replace (Z.to_nat dp) with 0%nat by lia.
    rewrite substring_all.
    set (b := json.zeros (Z.to_nat (- dp)) ++ ds).
    assert (Hb : Bytes.all_digits b = true).
    { subst b. rewrite all_digits_app, all_digits_zeros, Hall. reflexivity. }
    assert (Hbne : b ≠ "").
    { subst b. rewrite Hds. destruct (json.zeros _); discriminate. }
    pose proof (unsigned_literal_parts neg "0" b "" 0 eq_refl ltac:(discriminate)
                  eq_refl Hb ltac:(left; reflexivity) eq_refl) as Hu.
    rewrite append_nil_r in Hu.
    destruct (String.eqb_spec b "") as [Hb0|_]; [contradiction|].
    change ("0" ++ "." ++ b) with (String "0" ("." ++ b)).
    rewrite number_of_literal_sign by reflexivity.
    change (String "0" ("." ++ b)) with ("0" ++ "." ++ b). rewrite Hu.
    eexists _, _. split; [reflexivity|].
    change ("0" ++ b) with (json.zeros 1 ++ b). rewrite digits_value_leading_zeros.
    subst b. rewrite digits_value_leading_zeros, length_append, length_zeros.
    replace (0 - Z.of_nat (Z.to_nat (- dp) + String.length ds)) with (dp - nd) by lia.
    apply same_decimal_refl.
Qed.

Lemma exp_part_e (negexp : bool) dd :
  Bytes.all_digits dd = true → dd ≠ "" →
  json.exp_part ("e" ++ (if negexp then "-" else "+") ++ dd)
  = Some (if negexp then - Bytes.digits_value 0 dd else Bytes.digits_value 0 dd).
Proof.
  intros Hd Hne.
  assert (H : ∀ sg : string, "e" ++ sg ++ dd = String "e" (sg ++ dd)) by reflexivity.
  rewrite H. cbn [json.exp_part Ascii.eqb Bool.eqb orb].
  destruct negexp.
  - change ("-" ++ dd) with (String "-" dd). cbv iota.
    rewrite (span_digits_all dd Hd). destruct dd; [contradiction | reflexivity].
  - change ("+" ++ dd) with (String "+" dd). cbv iota.
    rewrite (span_digits_all dd Hd). destruct dd; [contradiction | reflexivity].
Qed.

(** The exponent digits of [%e] after the encoder's clean-up. *)
Lemma exponent_digits n :
  0 < n →
  let dd0 := if n <? 10 then "0" ++ pretty n else pretty n in
  let dd := match dd0 with
            | String "0" (String d EmptyString) => String d EmptyString
            | _ => dd0
            end in
  Bytes.all_digits dd = true ∧ dd ≠ "" ∧ Bytes.digits_value 0 dd = n.
Proof.
  intros Hn. cbv zeta. destruct (Z.ltb_spec n 10) as [Hlt|Hge].
  - assert (H : n = 1 ∨ n = 2 ∨ n = 3 ∨ n = 4 ∨ n = 5 ∨ n = 6 ∨ n = 7 ∨ n = 8 ∨ n = 9)
      by lia.
    repeat (destruct H as [->|H]; [vm_compute; repeat split; discriminate|]).
    subst n. vm_compute. repeat split; discriminate.
  - destruct (pretty_pos_digits n Hn) as (Hall & Hval & c & rest & HP & Hc).
    assert (Hsame : match pretty n with
                    | String "0" (String d EmptyString) => String d EmptyString
                    | _ => pretty n
                    end = pretty n).
    { rewrite HP. destruct c as [[] [] [] [] [] [] [] []]; try reflexivity.
      exfalso. apply Hc. reflexivity. }
    rewrite Hsame. split; [exact Hall|]. split; [rewrite HP; discriminate | exact Hval].
Qed.

(** [%e] denotes [0.ds * 10^dp]. *)
Lemma fmtE_value neg ds dp c rest :
  ds = String c rest → Bytes.code c ≠ 48 → Bytes.all_digits ds = true → dp ≠ 1 →
  ∃ V e, json.number_of_literal ((if neg : bool then "-" else "") ++ json.fmtE ds dp)
         = Some (neg, V, e)
         ∧ same_decimal V e (Bytes.digits_value 0 ds) (dp - Z.of_nat (String.length ds)).
Proof.
  intros Hds Hc Hall Hdp.
  assert (Hcd : Bytes.is_digit c = true ∧ Bytes.all_digits rest = true).
  { rewrite Hds in Hall. cbn [Bytes.all_digits] in Hall.
    apply andb_true_iff in Hall. exact Hall. }
  destruct Hcd as [Hcd Hrest].
  unfold json.fmtE. cbv zeta.
  assert (Hfirst : substring 0 1 ds = String c "").
  { rewrite Hds. cbn [substring]. destruct rest; reflexivity. }
  assert (Hmore : substring 1 (String.length ds) ds = rest).
  { rewrite Hds. cbn [substring String.length]. apply substring_0_ge. lia. }
  rewrite Hfirst, Hmore.
  destruct (exponent_digits (Z.abs (dp - 1)) ltac:(lia)) as (Hdd & Hddne & Hddv).
  cbv zeta in Hdd, Hddne, Hddv.
  set (dd := match (if Z.abs (dp - 1) <? 10 then "0" ++ pretty (Z.abs (dp - 1))
                    else pretty (Z.abs (dp - 1))) with
             | String "0" (String d EmptyString) => String d EmptyString
             | _ => if Z.abs (dp - 1) <? 10 then "0" ++ pretty (Z.abs (dp - 1))
                    else pretty (Z.abs (dp - 1))
             end) in *.
  pose proof (exp_part_e (dp - 1 <? 0) dd Hdd Hddne) as Hexp.
  pose proof (unsigned_literal_parts neg (String c "") rest
                ("e" ++ (if dp - 1 <? 0 then "-" else "+") ++ dd) _
                ltac:(cbn [Bytes.all_digits]; rewrite Hcd; reflexivity)
                ltac:(discriminate) (leading_nonzero c "" Hc) Hrest
                ltac:(right; eexists; reflexivity) Hexp) as Hu.
  rewrite append_cons. rewrite number_of_literal_sign by exact Hcd.
  rewrite <- append_cons. rewrite Hu. eexists _, _. split; [reflexivity|].
  change (String c "" ++ rest) with (String c rest). rewrite <- Hds.
  replace ((if dp - 1 <? 0 then - Bytes.digits_value 0 dd else Bytes.digits_value 0 dd)
           - Z.of_nat (String.length rest))
    with (dp - Z.of_nat (String.length ds)).
  - apply same_decimal_refl.
  - rewrite Hddv, Hds. cbn [String.length].
    destruct (Z.ltb_spec (dp - 1) 0); lia.
Qed.

(** The text of a nonzero float64 denotes the decimal chosen by
    [shortest]. *)
Lemma FormatFloat_value x d k :
  float64.mant x ≠ 0 → float64.shortest x = (d, k) → 0 < d →
  ∃ V e, json.number_of_literal (json.FormatFloat x) = Some (float64.sign x, V, e)
         ∧ same_decimal V e d k.
Proof.
  intros HM Hsh Hd. unfold json.FormatFloat. cbv zeta.
  destruct (Z.eqb_spec (float64.mant x) 0); [contradiction|].
  rewrite Hsh.
  destruct (stripped_digits d Hd) as (j & c & rest & Hj & Hlen & Hds & Hc & Hall & Hval).
  set (ds := json.strip_trailing_zeros (pretty d)) in *.
  set (dp := Z.of_nat (String.length (pretty d)) + k).
  assert (Hshift : ∀ V e,
             same_decimal V e (Bytes.digits_value 0 ds) (dp - Z.of_nat (String.length ds)) →
             same_decimal V e d k).
  { intros V e H. rewrite Hval. apply same_decimal_shift; [lia|].
    replace (Z.of_nat j + k) with (dp - Z.of_nat (String.length ds)) by (subst dp; lia).
    exact H. }
  destruct ((dp <=? -6) || (22 <=? dp)) eqn:Hfmt.
  - destruct (fmtE_value (float64.sign x) ds dp c rest Hds Hc Hall) as (V & e & HV & Hs).
    { apply orb_true_iff in Hfmt as [H|H]; [apply Z.leb_le in H | apply Z.leb_le in H]; lia. }
    exists V, e. split; [exact HV | apply Hshift, Hs].
  - destruct (fmtF_value (float64.sign x) ds dp c rest Hds Hc Hall) as (V & e & HV & Hs).
    exists V, e. split; [exact HV | apply Hshift, Hs].
Qed.

Lemma same_decimal_trans a ea b eb c ec :
  same_decimal a ea b eb → same_decimal b eb c ec → same_decimal a ea c ec.
Proof.
  intros H1 H2. set (N := Z.min ea (Z.min eb ec)).
  apply (same_decimal_at N) in H1; [|lia..].
  apply (same_decimal_at N) in H2; [|lia..].
  apply (same_decimal_at N); [lia..|]. congruence.
Qed.

Lemma same_decimal_sym a ea b eb : same_decimal a ea b eb → same_decimal b eb a ea.
Proof. unfold same_decimal. rewrite (Z.min_comm eb ea). intros H. symmetry. exact H. Qed.

Lemma span_digits_spec s :
  s = (json.span_digits s).1 ++ (json.span_digits s).2
  ∧ Bytes.all_digits (json.span_digits s).1 = true
  ∧ stops (json.span_digits s).2 = true.
Proof.
  induction s as [|c s (IH1 & IH2 & IH3)]; [repeat split|].
  cbn [json.span_digits]. destruct (Bytes.is_digit c) eqn:Hc.
  - destruct (json.span_digits s) as [d r]. cbn [fst snd] in *.
    rewrite append_cons, <- IH1. cbn [Bytes.all_digits]. rewrite Hc, IH2. repeat split.
    exact IH3.
  - cbn [fst snd stops]. rewrite Hc. repeat split.
Qed.

(** What a short decimal denotes. *)
Lemma short_decimal_literal lit :
  short_decimal lit = true →
  ∃ neg m f, 0 <= m < 10 ^ 15 ∧ 0 <= f <= 14
             ∧ json.number_of_literal lit = Some (neg, m, - f).
Proof.
  assert (Hbody : ∀ neg s,
    (let '(i, r) := json.span_digits s in
     negb (i =? "")%string && negb (leading_zero i)
     && match r with
        | EmptyString => (String.length i <=? 15)%nat
        | String c f =>
            Ascii.eqb c "." && negb (f =? "")%string && Bytes.all_digits f
            && (String.length (i ++ f) <=? 15)%nat
        end) = true →
    (∃ c t, s = String c t ∧ Bytes.is_digit c = true)
    ∧ ∃ m f, 0 <= m < 10 ^ 15 ∧ 0 <= f <= 14
             ∧ unsigned_literal neg s = Some (neg, m, - f)).
  { intros neg s H. destruct (span_digits_spec s) as (Hs & Hi & Hr).
    destruct (json.span_digits s) as [i r]. cbn [fst snd] in *.
    apply andb_true_iff in H as [H Hrest]. apply andb_true_iff in H as [Hne Hz].
    apply negb_true_iff in Hne, Hz. apply String.eqb_neq in Hne.
    assert (Hfirst : ∃ c t, s = String c t ∧ Bytes.is_digit c = true).
    { destruct i as [|c i']; [contradiction|]. rewrite Hs, append_cons.
      eexists _, _. split; [reflexivity|]. cbn [Bytes.all_digits] in Hi.
      apply andb_true_iff in Hi as [H _]. exact H. }
    split; [exact Hfirst|].
    assert (Hval : ∀ d, Bytes.all_digits d = true → (String.length d <= 15)%nat →
                        0 <= Bytes.digits_value 0 d < 10 ^ 15).
    { intros d Hd Hlen. split; [apply AtoiFacts.digits_value_ge; [exact Hd | lia]|].
      pose proof (AtoiFacts.digits_value_lt d 0 Hd ltac:(lia)) as Hlt.
      assert (10 ^ Z.of_nat (String.length d) <= 10 ^ 15) by (apply Z.pow_le_mono_r; lia).
      lia. }
    destruct r as [|c f].
    - apply Nat.leb_le in Hrest.
      exists (Bytes.digits_value 0 i), 0. split; [apply Hval; assumption|].
      split; [lia|]. rewrite Hs.
      pose proof (unsigned_literal_parts neg i "" "" 0 Hi Hne Hz eq_refl
                    ltac:(left; reflexivity) eq_refl) as Hu.
      cbn [String.eqb] in Hu. change ("" ++ "") with "" in Hu. rewrite Hu.
      rewrite append_nil_r. reflexivity.
    - apply andb_true_iff in Hrest as [Hrest Hlen].
      apply andb_true_iff in Hrest as [Hrest Hf].
      apply andb_true_iff in Hrest as [Hdot Hfne].
      apply Nat.leb_le in Hlen. apply negb_true_iff in Hfne.
      apply Ascii.eqb_eq in Hdot. subst c.
      pose proof (String.eqb_neq f "") as [Hfne' _]. specialize (Hfne' Hfne).
      exists (Bytes.digits_value 0 (i ++ f)), (Z.of_nat (String.length f)).
      split; [apply Hval; [rewrite all_digits_app, Hi, Hf; reflexivity | exact Hlen]|].
      rewrite length_append in Hlen.
      assert (1 <= String.length i)%nat by (destruct i; [contradiction | cbn; lia]).
      split; [lia|]. rewrite Hs.
      pose proof (unsigned_literal_parts neg i f "" 0 Hi Hne Hz Hf
                    ltac:(left; reflexivity) eq_refl) as Hu.
      rewrite Hfne, append_nil_r in Hu.
      change ("." ++ f) with (String "." f) in Hu. rewrite Hu. reflexivity. }
  unfold short_decimal. cbv zeta. intros H.
  destruct lit as [|c t].
  { destruct (Hbody false "" H) as [(c & t & Habs & _) _]. discriminate. }
  destruct (Ascii.eqb_spec c "-") as [->|Hc].
  - destruct (Hbody true t H) as [_ (m & f & Hm & Hf & Hu)].
    exists true, m, f. split; [exact Hm|]. split; [exact Hf|].
    rewrite number_of_literal_neg. exact Hu.
  - destruct (Hbody false _ H) as [_ (m & f & Hm & Hf & Hu)].
    exists false, m, f. split; [exact Hm|]. split; [exact Hf|].
    rewrite number_of_literal_pos by exact Hc. exact Hu.
Qed.

(** A decimal of at most fifteen digits survives float64. *)
Lemma short_decimal_survives lit : short_decimal lit = true → survives lit = true.
Proof.
  intros H. destruct (short_decimal_literal lit H) as (neg & m & f & Hm & Hf & Hlit).
  unfold survives, json.ParseFloat. rewrite Hlit. cbn [mbind option_bind].
  assert (Hdec : float64.of_decimal neg m (- f) = float64.of_ratio neg m (10 ^ f)).
  { unfold float64.of_decimal, float64.ratio_of_decimal.
    destruct (Z.leb_spec 0 (- f)).
    - replace f with 0 by lia. change (- 0) with 0. rewrite Z.pow_0_r, Z.mul_1_r.
      reflexivity.
    - replace (- - f) with f by lia. reflexivity. }
  rewrite Hdec.
  destruct (Z.eq_dec m 0) as [->|Hm0].
  - unfold same_number. rewrite Hlit. destruct neg; cbn; rewrite ?Z.mul_0_l; reflexivity.
  - destruct (of_ratio_short neg m f ltac:(lia) ltac:(lia)) as (x & Hx & Hs & HM & HE).
    rewrite Hx.
    destruct (shortest_short neg m f x ltac:(lia) Hf Hx) as (d & k & Hsh & Hd & Hsame).
    destruct (FormatFloat_value x d k ltac:(pow_consts; lia) Hsh Hd)
      as (V & e & HV & HVd).
    unfold same_number. rewrite Hlit, HV, Hs. cbv zeta.
    pose proof (same_decimal_sym _ _ _ _ (same_decimal_trans _ _ _ _ _ _ HVd Hsame)) as Hfin.
    unfold same_decimal in Hfin.
    apply Z.eqb_eq. destruct neg; lia.
Qed.

(** *** Decoding and encoding a written document *)

Lemma jtext_nested_ind (P : jtext → Prop) :
  P TNull → (∀ b, P (TBool b)) → (∀ lit, P (TNumber lit)) → (∀ s, P (TString s)) →
  (∀ l, Forall P l → P (TArray l)) →
  (∀ fs, Forall (λ kv, P kv.2) fs → P (TObject fs)) →
  ∀ t, P t.
Proof.
  intros Hnull Hbool Hnum Hstr Harr Hobj.
  fix IH 1. intros [|b|lit|s|l|fs];
    [apply Hnull | apply Hbool | apply Hnum | apply Hstr | |].
  - apply Harr. induction l as [|x l IHl]; constructor; [apply IH | exact IHl].
  - apply Hobj. induction fs as [|[key x] fs IHfs]; constructor; [apply IH | exact IHfs].
Qed.

Lemma number_kept_survives lit : number_kept lit = true → survives lit = true.
Proof.
  unfold number_kept. intros H.
  apply orb_true_iff in H as [H|H]; [|exact H].
  apply orb_true_iff in H as [H|H].
  - apply plain_integer_survives, H.
  - apply short_decimal_survives, H.
Qed.

Lemma read_lossless :
  ∀ t, lossless_text t = true →
       written_tree t = Some (json.read t) ∧ lossless (json.read t) = true.
Proof.
  induction t as [|b|lit|s|l IHl|fs IHfs] using jtext_nested_ind; intros Hl.
  - split; reflexivity.
  - split; reflexivity.
  - split; [reflexivity|]. apply number_kept_survives, Hl.
  - split; [|reflexivity]. cbn [written_tree json.read].
    cbn [lossless_text] in Hl. rewrite (unquote_well_formed s Hl). reflexivity.
  - cbn [lossless_text] in Hl. cbn [written_tree json.read lossless].
    assert (H : mapM written_tree l = Some (json.read <$> l)
                ∧ forallb lossless (json.read <$> l) = true).
    { induction IHl as [|x l Hx _ IH]; [split; reflexivity|].
      cbn [forallb] in Hl. apply andb_true_iff in Hl as [Hlx Hll].
      destruct (Hx Hlx) as [Hwx Hrx]. destruct (IH Hll) as [Hwl Hrl].
      rewrite fmap_cons. cbn [forallb]. rewrite Hrx, Hrl. split; [|reflexivity].
      cbn [mapM]. rewrite Hwx, Hwl. reflexivity. }
    destruct H as [-> ->]. split; reflexivity.
  - cbn [lossless_text] in Hl. apply andb_true_iff in Hl as [Hl Hvals].
    apply andb_true_iff in Hl as [Hkeys Hnd]. apply bool_decide_eq_true in Hnd.
    cbn [written_tree json.read lossless].
    set (rd := λ kv : list jchar * jtext, (json.unquote kv.1, json.read kv.2)).
    assert (Hk : written_bytes <$> fs.*1 = Some <$> (rd <$> fs).*1).
    { clear -Hkeys. induction fs as [|[key x] fs IH]; [reflexivity|].
      cbn [forallb fst] in Hkeys. apply andb_true_iff in Hkeys as [Hkey Hrest].
      rewrite !fmap_cons. cbn [fst]. rewrite (unquote_well_formed key Hkey), (IH Hrest).
      reflexivity. }
    assert (H : mapM (λ kv, key ← written_bytes kv.1; pair key <$> written_tree kv.2) fs
                = Some (rd <$> fs)
                ∧ forallb (λ kv, lossless kv.2) (rd <$> fs) = true).
    { clear Hnd Hk. induction IHfs as [|[key x] fs Hx _ IH]; [split; reflexivity|].
      cbn [forallb fst snd] in *.
      apply andb_true_iff in Hkeys as [Hkey Hkrest].
      apply andb_true_iff in Hvals as [Hlx Hll].
      destruct (Hx Hlx) as [Hwx Hrx]. destruct (IH Hkrest Hll) as [Hwl Hrl].
      rewrite fmap_cons. cbn [forallb]. subst rd. cbn [fst snd] in *.
      rewrite Hrx, Hrl. split; [|reflexivity].
      cbn [mapM fst snd]. rewrite (unquote_well_formed key Hkey), Hwx.
      cbn. rewrite Hwl. reflexivity. }
    destruct H as [-> ->]. split; [reflexivity|].
    rewrite andb_true_r. apply bool_decide_eq_true.
    rewrite Hk in Hnd. apply (NoDup_fmap_1 Some). exact Hnd.
Qed.

(** C5, amended. Whenever the operation's call is issued, its data is
    the encoding of the object decoded from the body, which nothing
    changed after decoding; that encoding has the field content of the
    document the client wrote whenever every string and key of the
    document is well-formed text (valid UTF-8, no unpaired surrogate
    escape), no object in it repeats a key, and every number in it is
    an integer of magnitude below 2^53, a decimal of at most fifteen
    digits without exponent, or otherwise survives the conversion to
    float64 and back. *)
Theorem outbound_body_keeps_written_content env r k t certPath keyPath payload :
  Method r = "POST" → route (URL_Path r) = Some k → Body r = Text (json.read t) →
  call_argv k certPath keyPath payload ∈ commands (exec_io (serve r) env).2 →
  ∃ m, json.Unmarshal (json.read t) = (Some m, None)
       ∧ payload = json.json_text (json.encode (AMap m))
       ∧ (lossless_text t = true →
          ∃ j, written_tree t = Some j ∧ same_content j (json.encode (AMap m))).
Proof.
  intros HM HR HB Hin.
  destruct (call_data_is_encoded_body env r k _ _ _ _ HM HR HB Hin) as (m & HU & Hp).
  exists m. split; [exact HU|]. split; [exact Hp|].
  intros Hl. destruct (read_lossless t Hl) as [Hw Hr].
  exists (json.read t). split; [exact Hw|].
  apply encode_decode_same_content; [exact Hr|].
  apply Unmarshal_object, HU.
Qed.

Lemma outbound_body_keeps_written_content_witness :
  let t := TObject
             [ (raw "crn", TString (raw "1234"));
               (raw "items",
                TArray [ TObject [ (raw "name", TString (raw "caf" ++ [JEscape 0xE9])%list);
                                   (raw "price", TNumber "1.50") ];
                         TObject [ (raw "name", TString [JEscape 0xD83D; JEscape 0xDE00]);
                                   (raw "price", TNumber "9007199254740991") ] ]);
               (raw "cash", TBool true);
               (raw "note", TNull) ] in
  ∃ m, json.Unmarshal (json.read t) = (Some m, None)
       ∧ (json.Marshal_map (json.Unmarshal (json.read t)).1).1
         = json.json_text (json.encode (AMap m))
       ∧ ∃ j, written_tree t = Some j ∧ same_content j (json.encode (AMap m)).
Proof.
  intros t.
  destruct (outbound_body_keeps_written_content Fixture.store
              (Fixture.post "/print" (json.read t)) "print" t
              "certs/1234_shop.crt" "certs/1234_shop.key"
              (json.Marshal_map (json.Unmarshal (json.read t)).1).1)
    as (m & HU & Hp & Hsame).
  - reflexivity.
  - vm_compute. reflexivity.
  - reflexivity.
  - vm_compute. apply list_elem_of_further, list_elem_of_here.
  - exists m. split; [exact HU|]. split; [exact Hp|].
    apply Hsame. vm_compute. reflexivity.
Defined.

(** The conditions on strings are needed.  A document with an unpaired
    surrogate escape, or with a byte that is not UTF-8, repeats no key
    and has no number; it is relayed, and the name goes upstream as
    U+FFFD, which is not what the client wrote. *)
Lemma ill_formed_string_is_replaced :
  let fffd := String "239" (String "191" (String "189" "")) in
  let sent := JObject [("crn", JString "1234"); ("name", JString fffd)] in
  ∀ name, name = [JEscape 0xD83D] ∨ name = [JByte "255"] →
    let t := TObject [(raw "crn", TString (raw "1234")); (raw "name", TString name)] in
    commands (exec_io (serve (Fixture.post "/print" (json.read t))) Fixture.store).2
    = [ upload_argv "certs/1234_shop.crt" "certs/1234_shop.key" "1234";
        call_argv "print" "certs/1234_shop.crt" "certs/1234_shop.key"
          (json.json_text sent) ]
    ∧ written_tree t ≠ Some sent
    ∧ lossless_text t = false.
Proof.
  intros fffd sent name [->| ->]; vm_compute; repeat split; discriminate.
Qed.
